(** * Pairwise MPO / docking post-processor: a shallow embedding

    Model of [3_Partial_Agonist_Postprocessor.py].  The script is a straight
    line of pandas calls; the embedding keeps its variables and its order of
    evaluation, and gives every pandas / numpy call the behaviour the library
    documents for the arguments the script passes.

    - a cell is a binary64 number or a string; a missing value is NaN, as
      [read_csv] produces it;
    - a row ([pandas.Series]) is an ordered association list with the row
      label as its name; a [DataFrame] is a column list and its rows;
    - exceptions are an error type; the files written and the lines printed
      are the trace of the run;
    - two library kernels are parameters of the pipeline: the [argsort] that
      [sort_values] reaches with its default [kind='quicksort'], and the
      regular-expression compiler that [str.contains] reaches with its default
      [regex=True];
    - [os.path] is [posixpath]: the one separator is the slash. *)

From Stdlib Require Import List String Ascii ZArith Bool Arith Lia Permutation.
From Stdlib Require Import SpecFloat.
Import ListNotations.
Local Open Scope string_scope.
Local Open Scope list_scope.
Local Open Scope nat_scope.

(** ** binary64 arithmetic, as numpy's [float64] *)

Module F64.
Definition prec : Z := 53.
Definition emax : Z := 1024.

Definition add : spec_float -> spec_float -> spec_float := SFadd prec emax.
Definition sub : spec_float -> spec_float -> spec_float := SFsub prec emax.
Definition div : spec_float -> spec_float -> spec_float := SFdiv prec emax.
Definition abs : spec_float -> spec_float := SFabs.
Definition ltb : spec_float -> spec_float -> bool := SFltb.
Definition eqb : spec_float -> spec_float -> bool := SFeqb.

(** [m * 2^e], rounded to binary64. *)
Definition of_Z2 (m e : Z) : spec_float := binary_normalize prec emax m e false.

(** The integer literal [2] of [(a + b) / 2], converted to float64. *)
Definition two : spec_float := Eval cbv in of_Z2 2 0.

Definition nan : spec_float := S754_nan.

Definition is_nan (x : spec_float) : bool :=
  match x with S754_nan => true | _ => false end.

(** [a > b] on float64: false as soon as one side is NaN. *)
Definition gtb (a b : spec_float) : bool := ltb b a.
End F64.

(** ** Exceptions and results *)

Inductive exn : Type :=
| ValueError (msg : string)
| KeyError (key : string)
| TypeError
| IndexError
| AttributeError
| ReError
| ConstructError
| OSError.
(* [ConstructError]: the exception that leaves [pd.DataFrame(list)] when the
   list holds a DataFrame (a ValueError, "Must pass 2-d input", when the frame
   comes first; the class differs with the position and the pandas version).
   [OSError]: [to_csv] on a path whose parent directory does not exist. *)

Inductive result (A : Type) : Type :=
| Ok (a : A)
| Raise (e : exn).
Arguments Ok {A} a.
Arguments Raise {A} e.

Definition rbind {A B} (r : result A) (k : A -> result B) : result B :=
  match r with
  | Ok a => k a
  | Raise e => Raise e
  end.

Declare Scope result_scope.
Delimit Scope result_scope with result.
Notation "x <- r ;; k" := (rbind r (fun x => k))
  (at level 61, r at next level, right associativity) : result_scope.

(** ** Cells, rows and frames *)

Inductive cell : Type :=
| Num (f : spec_float)
| Str (s : string).

Definition NaN : cell := Num F64.nan.

Definition isna (c : cell) : bool :=
  match c with
  | Num f => F64.is_nan f
  | Str _ => false
  end.

Definition is_num (c : cell) : bool :=
  match c with Num _ => true | Str _ => false end.

(** A row: [name] is the row label, [items] the labelled values in order. *)
Record Series : Type := mkSeries { name : nat; items : list (string * cell) }.

Record DataFrame : Type := mkFrame { columns : list string; rows : list Series }.

Definition index (s : Series) : list string := map fst (items s).

Fixpoint lookup (c : string) (l : list (string * cell)) : option cell :=
  match l with
  | [] => None
  | (k, v) :: t => if String.eqb k c then Some v else lookup c t
  end.

(** [s[c]] *)
Definition getitem (s : Series) (c : string) : result cell :=
  match lookup c (items s) with
  | Some v => Ok v
  | None => Raise (KeyError c)
  end.

(** [s[c] = v]: overwrite in place when the label exists, append otherwise. *)
Fixpoint assoc_set (c : string) (v : cell) (l : list (string * cell)) : list (string * cell) :=
  match l with
  | [] => [(c, v)]
  | (k, x) :: t => if String.eqb k c then (k, v) :: t else (k, x) :: assoc_set c v t
  end.

Definition setitem (s : Series) (c : string) (v : cell) : Series :=
  mkSeries (name s) (assoc_set c v (items s)).

(** [c in cols] *)
Definition mem (c : string) (cols : list string) : bool := existsb (String.eqb c) cols.

(** A row realigned on a column list; a label the row lacks reads as NaN. *)
Definition reindex (cols : list string) (s : Series) : Series :=
  mkSeries (name s)
    (map (fun c => (c, match lookup c (items s) with Some v => v | None => NaN end)) cols).

(** ** Python strings *)

(** A string is a sequence of code points below 256 (Latin-1 text); text with
    other code points is not represented. *)

(** The lower-case mapping of such a code point: the letters A-Z and the
    capital letters from 192 to 222 (215 is the multiplication sign) move up
    by 32, everything else stays. *)
Definition ascii_lower (c : ascii) : ascii :=
  let n := nat_of_ascii c in
  if (Nat.leb 65 n && Nat.leb n 90)
     || (Nat.leb 192 n && Nat.leb n 222 && negb (Nat.eqb n 215))
  then ascii_of_nat (n + 32) else c.

(** [str.lower()] *)
Fixpoint lower (s : string) : string :=
  match s with
  | EmptyString => EmptyString
  | String c t => String (ascii_lower c) (lower t)
  end.

(** [str.isspace] on one code point: tab to carriage return, the four
    separators 28-31, the space, next line (133) and the no-break space
    (160). *)
Definition is_space (c : ascii) : bool :=
  let n := nat_of_ascii c in
  (Nat.leb 9 n && Nat.leb n 13) || (Nat.leb 28 n && Nat.leb n 32)
  || Nat.eqb n 133 || Nat.eqb n 160.

Fixpoint lstrip (s : string) : string :=
  match s with
  | EmptyString => EmptyString
  | String c t => if is_space c then lstrip t else s
  end.

Fixpoint rstrip (s : string) : string :=
  match s with
  | EmptyString => EmptyString
  | String c t =>
      match rstrip t with
      | EmptyString => if is_space c then EmptyString else String c EmptyString
      | t' => String c t'
      end
  end.

(** [str.strip()] *)
Definition strip (s : string) : string := rstrip (lstrip s).

(** [needle in hay] on strings. *)
Fixpoint is_substring (needle hay : string) : bool :=
  String.prefix needle hay ||
  match hay with
  | EmptyString => false
  | String _ t => is_substring needle t
  end.

(** [repr] of a list of plain strings, as an f-string prints it:
    ['Title', 'MPO_score']. *)
Definition quote (s : string) : string := "'" ++ s ++ "'".

Fixpoint join (sep : string) (l : list string) : string :=
  match l with
  | [] => EmptyString
  | [x] => x
  | x :: t => x ++ sep ++ join sep t
  end.

Definition repr_list (l : list string) : string :=
  "[" ++ join ", " (map quote l) ++ "]".

(** ** Lines 53-56: the required columns *)

Definition required_columns : list string :=
  ["Title"; "MPO_score"; "norm_docking_score"; "docking score"].

Definition missing_cols (df : DataFrame) : list string :=
  filter (fun col => negb (mem col (columns df))) required_columns.

Definition missing_message (missing : list string) : string :=
  "Missing required columns: " ++ repr_list missing.

Definition check_schema (df : DataFrame) : result DataFrame :=
  match missing_cols df with
  | [] => Ok df
  | missing => Raise (ValueError (missing_message missing))
  end.

(** ** Lines 59-76: grouping and the pair statistics *)

(** Equality of group keys. *)
Definition key_eqb (a b : cell) : bool :=
  match a, b with
  | Str x, Str y => String.eqb x y
  | Num x, Num y => F64.eqb x y
  | _, _ => false
  end.

Fixpoint add_to_group (k : cell) (r : Series) (gs : list (cell * list Series))
  : list (cell * list Series) :=
  match gs with
  | [] => [(k, [r])]
  | (k', g) :: t =>
      if key_eqb k' k then (k', g ++ [r]) :: t else (k', g) :: add_to_group k r t
  end.

(** The groups of [df.groupby('Title', sort=False)] for a frame that has the
    column: groups in first-seen order, members in row order; rows whose key
    is missing belong to no group ([dropna=True]).  The call itself is
    [grouped] below. *)
Definition groupby_Title (df : DataFrame) : list (cell * list Series) :=
  fold_left
    (fun gs r =>
       match lookup "Title" (items r) with
       | Some k => if isna k then gs else add_to_group k r gs
       | None => gs
       end)
    (rows df) [].

(** Python's [+], [-], [/ 2] and [abs] on two cell values. *)
Definition cell_add (a b : cell) : result cell :=
  match a, b with
  | Num x, Num y => Ok (Num (F64.add x y))
  | Str x, Str y => Ok (Str (x ++ y))
  | _, _ => Raise TypeError
  end.

Definition cell_sub (a b : cell) : result cell :=
  match a, b with
  | Num x, Num y => Ok (Num (F64.sub x y))
  | _, _ => Raise TypeError
  end.

Definition cell_half (a : cell) : result cell :=
  match a with
  | Num x => Ok (Num (F64.div x F64.two))
  | Str _ => Raise TypeError
  end.

Definition cell_abs (a : cell) : result cell :=
  match a with
  | Num x => Ok (Num (F64.abs x))
  | Str _ => Raise TypeError
  end.

Local Open Scope result_scope.

(** [(row1[c] + row2[c]) / 2] *)
Definition average (row1 row2 : Series) (c : string) : result cell :=
  a <- getitem row1 c ;;
  b <- getitem row2 c ;;
  s <- cell_add a b ;;
  cell_half s.

(** [abs(row1[c] - row2[c])] *)
Definition delta (row1 row2 : Series) (c : string) : result cell :=
  a <- getitem row1 c ;;
  b <- getitem row2 c ;;
  d <- cell_sub a b ;;
  cell_abs d.

(** Lines 72-75, the four assignments on one row. *)
Definition tag (row : Series) (avg_mpo delta_mpo avg_dock delta_dock : cell) : Series :=
  setitem (setitem (setitem (setitem row
    "Avg_MPO" avg_mpo)
    "Delta_MPO" delta_mpo)
    "Avg_norm_docking" avg_dock)
    "Delta_norm_docking" delta_dock.

(** What [processed_rows] holds: a whole group (a DataFrame) or one row. *)
Inductive item : Type :=
| Group (g : DataFrame)
| Row (s : Series).

(** One turn of the loop of lines 62-76: what it adds to [processed_rows]. *)
Definition process_group (cols : list string) (group : list Series) : result (list item) :=
  match group with
  | [row1; row2] =>
      avg_mpo <- average row1 row2 "MPO_score" ;;
      delta_mpo <- delta row1 row2 "MPO_score" ;;
      avg_dock <- average row1 row2 "norm_docking_score" ;;
      delta_dock <- delta row1 row2 "norm_docking_score" ;;
      Ok [Row (tag row1 avg_mpo delta_mpo avg_dock delta_dock);
          Row (tag row2 avg_mpo delta_mpo avg_dock delta_dock)]
  | _ => Ok [Group (mkFrame cols group)]
  end.

Fixpoint process_groups (cols : list string) (groups : list (cell * list Series))
  : result (list item) :=
  match groups with
  | [] => Ok []
  | (_, group) :: rest =>
      here <- process_group cols group ;;
      more <- process_groups cols rest ;;
      Ok (here ++ more)
  end.

(** Line 59, [grouped]: the call raises [KeyError] when the frame has no
    column of that name. *)
Definition grouped (df : DataFrame) : result (list (cell * list Series)) :=
  if mem "Title" (columns df) then Ok (groupby_Title df) else Raise (KeyError "Title").

(** [processed_rows] after the loop. *)
Definition processed_rows (df : DataFrame) : result (list item) :=
  groups <- grouped df ;;
  process_groups (columns df) groups.

(** ** Line 78: [pd.DataFrame(processed_rows)] *)

Definition is_group (i : item) : bool :=
  match i with Group _ => true | Row _ => false end.

Fixpoint series_of (l : list item) : list Series :=
  match l with
  | [] => []
  | Row s :: t => s :: series_of t
  | Group _ :: t => series_of t
  end.

(** Union of the rows' labels in first-seen order. *)
Definition union_index (acc : list string) (labels : list string) : list string :=
  fold_left (fun a c => if mem c a then a else a ++ [c]) labels acc.

Definition combined_columns (l : list Series) : list string :=
  fold_left (fun acc s => union_index acc (index s)) l [].

(** The constructor builds one row per list element and aligns the rows on
    the union of their labels.  It has no case that splices a DataFrame element
    into rows ([pd.concat] does that): with a frame first the list is read as
    an array of more than two dimensions or of ragged shape, with a row first
    the frame cannot be aligned as a row; either way the call raises. *)
Definition DataFrame_of_list (l : list item) : result DataFrame :=
  if existsb is_group l then Raise ConstructError
  else
    let cols := combined_columns (series_of l) in
    Ok (mkFrame cols (map (reindex cols) (series_of l))).

(** [processed_df] *)
Definition aggregate (df : DataFrame) : result DataFrame :=
  l <- processed_rows df ;;
  DataFrame_of_list l.

(** ** Lines 81-88 and 95-105: the column order of the two ranked files *)

(** [cols.remove(col)] guarded by [col in cols]: the first occurrence goes. *)
Fixpoint remove_first (col : string) (cols : list string) : list string :=
  match cols with
  | [] => []
  | x :: t => if String.eqb x col then t else x :: remove_first col t
  end.

Definition strip_columns (names cols : list string) : list string :=
  fold_left (fun cs col => remove_first col cs) names cols.

(** [cols.index(col)] *)
Fixpoint list_index (col : string) (cols : list string) : option nat :=
  match cols with
  | [] => None
  | x :: t => if String.eqb x col then Some 0 else option_map S (list_index col t)
  end.

Record template : Type := mkTemplate { to_strip : list string; to_insert : list string }.

Definition mpo_first : template :=
  mkTemplate
    ["Avg_MPO"; "Delta_MPO"; "Avg_norm_docking"; "Delta_norm_docking"; "MPO_score";
     "norm_docking_score"]
    ["Avg_MPO"; "Delta_MPO"; "MPO_score"; "Avg_norm_docking"; "Delta_norm_docking";
     "norm_docking_score"].

Definition docking_first : template :=
  mkTemplate
    ["Avg_MPO"; "Delta_MPO"; "MPO_score"; "Avg_norm_docking"; "Delta_norm_docking";
     "norm_docking_score"; "docking score"]
    ["Avg_norm_docking"; "Delta_norm_docking"; "norm_docking_score"; "docking score";
     "Avg_MPO"; "Delta_MPO"; "MPO_score"].

Definition arrange (t : template) (cols : list string) : result (list string) :=
  let cols := strip_columns (to_strip t) cols in
  match list_index "Title" cols with
  | None => Raise (ValueError "'Title' is not in list")
  | Some i =>
      let insert_idx := i + 1 in
      Ok (firstn insert_idx cols ++ to_insert t ++ skipn insert_idx cols)
  end.

(** [df[cols]]: the listed columns, in the listed order. *)
Definition select_columns (df : DataFrame) (cols : list string) : result DataFrame :=
  match filter (fun c => negb (mem c (columns df))) cols with
  | [] => Ok (mkFrame cols (map (reindex cols) (rows df)))
  | c :: _ => Raise (KeyError c)
  end.

(** ** Columns as vectors *)

Definition cell_at (r : Series) (c : string) : cell :=
  match lookup c (items r) with
  | Some v => v
  | None => NaN
  end.

(** [df[c]] *)
Definition column (df : DataFrame) (c : string) : result (list cell) :=
  if mem c (columns df) then Ok (map (fun r => cell_at r c) (rows df))
  else Raise (KeyError c).

Definition number (c : cell) : result spec_float :=
  match c with
  | Num f => Ok f
  | Str _ => Raise TypeError
  end.

Fixpoint numbers (l : list cell) : result (list spec_float) :=
  match l with
  | [] => Ok []
  | c :: t =>
      f <- number c ;;
      fs <- numbers t ;;
      Ok (f :: fs)
  end.

(** A column read as float64; ordering a string against a number is a
    [TypeError]. *)
Definition float_column (df : DataFrame) (c : string) : result (list spec_float) :=
  cells <- column df c ;;
  numbers cells.

(** [df[mask]] *)
Definition mask_rows (l : list Series) (mask : list bool) : list Series :=
  map fst (filter snd (combine l mask)).

(** [rows[indexer]], by position. *)
Definition take (l : list Series) (indexer : list nat) : list Series :=
  flat_map (fun i => match nth_error l i with Some r => [r] | None => [] end) indexer.

(** ** [sort_values(by=..., ascending=False)] *)

Section Ranker.
(** numpy's [argsort] for the kind pandas passes down, [kind='quicksort']:
    the positions of the values in ascending order. *)
Variable argsort : list spec_float -> list nat.

(** pandas' [nargsort] with [ascending=False], [na_position='last']: the
    present values are reversed, argsorted, and the answer reversed again;
    the positions of the missing values follow in their own order. *)
Definition nargsort_desc (values : list spec_float) : list nat :=
  let idx := seq 0 (List.length values) in
  let tagged := combine idx values in
  let present := filter (fun p => negb (F64.is_nan (snd p))) tagged in
  let nan_idx := map fst (filter (fun p => F64.is_nan (snd p)) tagged) in
  let non_nans := rev (map snd present) in
  let non_nan_idx := rev (map fst present) in
  let indexer := rev (map (fun k => nth k non_nan_idx 0) (argsort non_nans)) in
  indexer ++ nan_idx.

(** A new frame; [df] itself is left as it is ([inplace=False]). *)
Definition sort_values (df : DataFrame) (by_ : string) : result DataFrame :=
  k <- float_column df by_ ;;
  Ok (mkFrame (columns df) (take (rows df) (nargsort_desc k))).
End Ranker.

(** ** The run: files written and lines printed *)

(** The [print] calls of lines 113 and 133-145; the three counts are printed
    with the benchmark name. *)
Inductive line : Type :=
| BenchmarkNotFound (benchmark_name : string)
| ProcessingComplete
| FileSortedByMPO (path : string)
| ExceededMPO (unique_mpo : nat) (benchmark_name : string)
| FileSortedByDocking (path : string)
| ExceededDocking (unique_dock : nat) (benchmark_name : string)
| FileFiltered (path : string)
| ExceededBoth (unique_both : nat) (benchmark_name : string).

Inductive event : Type :=
| to_csv (path : string) (df : DataFrame)
| print (l : line).

(** A run is its trace so far and either a value or the exception that ended it. *)
Definition prog (A : Type) : Type := (list event * result A)%type.

Definition pbind {A B} (m : prog A) (k : A -> prog B) : prog B :=
  match m with
  | (tr, Ok a) => let (tr', r) := k a in (tr ++ tr', r)
  | (tr, Raise e) => (tr, Raise e)
  end.

Definition lift {A} (r : result A) : prog A := ([], r).
Definition emit (e : event) : prog unit := ([e], Ok tt).

Declare Scope prog_scope.
Delimit Scope prog_scope with prog.
Notation "x <- m ;; k" := (pbind m (fun x => k))
  (at level 61, m at next level, right associativity) : prog_scope.
Notation "m ;; k" := (pbind m (fun _ => k))
  (at level 61, right associativity) : prog_scope.

(** [os.path.join(output_dir, file)] for a relative [file]. *)
Fixpoint ends_with_slash (s : string) : bool :=
  match s with
  | EmptyString => false
  | String c EmptyString => Ascii.eqb c "/"
  | String _ t => ends_with_slash t
  end.

Definition path_join (dir file : string) : string :=
  match dir with
  | EmptyString => file
  | _ => if ends_with_slash dir then dir ++ file else dir ++ "/" ++ file
  end.

Definition is_sep (c : ascii) : bool := Ascii.eqb c "/".

Fixpoint has_sep (s : string) : bool :=
  match s with
  | EmptyString => false
  | String c t => is_sep c || has_sep t
  end.

(** [df.to_csv(os.path.join(output_dir, file), index=False)].  pandas checks
    the parent directory of the path before it opens the file and raises
    [OSError] when that is no directory.  [output_dir] is the directory the
    input was read from; a file name that holds a slash points into a
    directory below it, which is not there. *)
Definition to_csv_in (output_dir file : string) (df : DataFrame) : prog unit :=
  if has_sep file then lift (Raise OSError)
  else emit (to_csv (path_join output_dir file) df).

(** [Series.dropna()] and [.iloc[0]] *)
Definition dropna (l : list spec_float) : list spec_float :=
  filter (fun f => negb (F64.is_nan f)) l.

Definition iloc0 (l : list spec_float) : result spec_float :=
  match l with
  | x :: _ => Ok x
  | [] => Raise IndexError
  end.

(** [Series.nunique()]: distinct values, the missing ones apart. *)
Definition nunique (l : list cell) : nat :=
  List.length
    (fold_left
       (fun seen c => if isna c || existsb (key_eqb c) seen then seen else seen ++ [c])
       l []).

(** [ignore_index=True]: fresh labels 0, 1, ... *)
Definition renumber (l : list Series) : list Series :=
  map (fun p => mkSeries (fst p) (items (snd p))) (combine (seq 0 (List.length l)) l).

Definition key_cols : list string :=
  ["Title"; "Avg_MPO"; "Avg_norm_docking"; "norm_docking_score"; "docking score"].

Section Pipeline.
Variable argsort : list spec_float -> list nat.

(** [re.compile]: [None] when the pattern is rejected, else the predicate
    [pat.search(s) is not None]. *)
Variable re_compile : string -> option (string -> bool).

(** [col.str.lower().str.contains(pat, na=False)].  The [.str] accessor is
    refused on a column without strings; an element that is no string gives
    a missing value, which [na=False] turns into [False]. *)
Definition str_lower_contains (col : list cell) (pat : string) : result (list bool) :=
  if forallb is_num col then Raise AttributeError
  else
    match re_compile pat with
    | None => Raise ReError
    | Some search =>
        Ok (map (fun c => match c with
                          | Str s => search (lower s)
                          | Num _ => false
                          end) col)
    end.

(** [df[df[c] > threshold]] *)
Definition above (df : DataFrame) (c : string) (threshold : spec_float) : result DataFrame :=
  k <- float_column df c ;;
  Ok (mkFrame (columns df) (mask_rows (rows df) (map (fun x => F64.gtb x threshold) k))).

(** Lines 119-122 *)
Definition better_than (processed_df : DataFrame) (avg_mpo_benchmark avg_norm_dock_benchmark : spec_float)
  : result DataFrame :=
  m <- float_column processed_df "Avg_MPO" ;;
  d <- float_column processed_df "Avg_norm_docking" ;;
  let mask :=
    map (fun p => F64.gtb (fst p) avg_mpo_benchmark && F64.gtb (snd p) avg_norm_dock_benchmark)
        (combine m d) in
  Ok (mkFrame (columns processed_df) (mask_rows (rows processed_df) mask)).

(** Line 111 *)
Definition select_benchmark (processed_df : DataFrame) (benchmark_name : string)
  : result DataFrame :=
  titles <- column processed_df "Title" ;;
  mask <- str_lower_contains titles benchmark_name ;;
  Ok (mkFrame (columns processed_df) (mask_rows (rows processed_df) mask)).

(** Lines 115-116 *)
Definition thresholds (benchmark_row : DataFrame) : result (spec_float * spec_float) :=
  m <- float_column benchmark_row "Avg_MPO" ;;
  avg_mpo_benchmark <- iloc0 (dropna m) ;;
  d <- float_column benchmark_row "Avg_norm_docking" ;;
  avg_norm_dock_benchmark <- iloc0 (dropna d) ;;
  Ok (avg_mpo_benchmark, avg_norm_dock_benchmark).

(** Lines 124-128 *)
Definition final_output (better_than_benchmark benchmark_row : DataFrame) : result DataFrame :=
  let both :=
    mkFrame (columns better_than_benchmark)
            (renumber (rows better_than_benchmark ++ rows benchmark_row)) in
  let remaining_cols := filter (fun col => negb (mem col key_cols)) (columns both) in
  select_columns both (key_cols ++ remaining_cols).

Definition count_above (df : DataFrame) (c : string) (threshold : spec_float) : result nat :=
  sub <- above df c threshold ;;
  titles <- column sub "Title" ;;
  Ok (nunique titles).

Local Open Scope prog_scope.

(** Lines 53-108: validation, aggregation and the two ranked files. *)
Definition ranked_outputs (output_dir : string) (df : DataFrame)
  : prog (DataFrame * DataFrame * DataFrame) :=
  _ <- lift (check_schema df) ;;
  processed_df <- lift (aggregate df) ;;
  cols <- lift (arrange mpo_first (columns processed_df)) ;;
  view <- lift (select_columns processed_df cols) ;;
  df_sorted_mpo <- lift (sort_values argsort view "Avg_MPO") ;;
  to_csv_in output_dir "Sorted_by_Avg_MPO.csv" df_sorted_mpo ;;
  cols <- lift (arrange docking_first (columns processed_df)) ;;
  view <- lift (select_columns processed_df cols) ;;
  df_sorted_dock <- lift (sort_values argsort view "Avg_norm_docking") ;;
  to_csv_in output_dir "Sorted_by_Avg_normDocking.csv" df_sorted_dock ;;
  lift (Ok (processed_df, df_sorted_mpo, df_sorted_dock)).

(** Lines 111-145: the benchmark filter and the summary. *)
Definition benchmark_filter (output_dir : string)
    (processed_df df_sorted_mpo df_sorted_dock : DataFrame) (benchmark_name : string)
  : prog unit :=
  benchmark_row <- lift (select_benchmark processed_df benchmark_name) ;;
  match rows benchmark_row with
  | [] => emit (print (BenchmarkNotFound benchmark_name))
  | _ :: _ =>
      t <- lift (thresholds benchmark_row) ;;
      let avg_mpo_benchmark := fst t in
      let avg_norm_dock_benchmark := snd t in
      better_than_benchmark <-
        lift (better_than processed_df avg_mpo_benchmark avg_norm_dock_benchmark) ;;
      out <- lift (final_output better_than_benchmark benchmark_row) ;;
      let file_filtered := ("Above_" ++ benchmark_name ++ "_Compounds.csv")%string in
      let output_path_filtered := path_join output_dir file_filtered in
      to_csv_in output_dir file_filtered out ;;
      emit (print ProcessingComplete) ;;
      unique_mpo <- lift (count_above df_sorted_mpo "Avg_MPO" avg_mpo_benchmark) ;;
      unique_dock <-
        lift (count_above df_sorted_dock "Avg_norm_docking" avg_norm_dock_benchmark) ;;
      unique_both <- lift (titles <- column better_than_benchmark "Title" ;; Ok (nunique titles))%result ;;
      emit (print (FileSortedByMPO (path_join output_dir "Sorted_by_Avg_MPO.csv"))) ;;
      emit (print (ExceededMPO unique_mpo benchmark_name)) ;;
      emit (print (FileSortedByDocking (path_join output_dir "Sorted_by_Avg_normDocking.csv"))) ;;
      emit (print (ExceededDocking unique_dock benchmark_name)) ;;
      emit (print (FileFiltered output_path_filtered)) ;;
      emit (print (ExceededBoth unique_both benchmark_name))
  end.

(** The whole script, from the table [read_csv] returned and the two answers
    typed at the prompts ([output_dir] is the directory of the input path). *)
Definition main (output_dir : string) (df : DataFrame) (benchmark_input : string) : prog unit :=
  let benchmark_name := lower (strip benchmark_input) in
  r <- ranked_outputs output_dir df ;;
  let '(processed_df, df_sorted_mpo, df_sorted_dock) := r in
  benchmark_filter output_dir processed_df df_sorted_mpo df_sorted_dock benchmark_name.
End Pipeline.

(** ** Lines 46 and 90: the input path and the output directory *)

(** [s.replace("\\", "/")] *)
Fixpoint replace_backslash (s : string) : string :=
  match s with
  | EmptyString => EmptyString
  | String c t => String (if Ascii.eqb c "\" then "/"%char else c) (replace_backslash t)
  end.

(** [s.strip(chars)], with [p] the membership in [chars]. *)
Fixpoint lstrip_chars (p : ascii -> bool) (s : string) : string :=
  match s with
  | EmptyString => EmptyString
  | String c t => if p c then lstrip_chars p t else s
  end.

Fixpoint rstrip_chars (p : ascii -> bool) (s : string) : string :=
  match s with
  | EmptyString => EmptyString
  | String c t =>
      match rstrip_chars p t with
      | EmptyString => if p c then EmptyString else String c EmptyString
      | t' => String c t'
      end
  end.

Definition strip_chars (p : ascii -> bool) (s : string) : string :=
  rstrip_chars p (lstrip_chars p s).

(** The double quote. *)
Definition is_quote (c : ascii) : bool := Ascii.eqb c "034".

(** Line 46, from the answer typed at the prompt. *)
Definition input_path (answer : string) : string :=
  strip_chars is_quote (replace_backslash (strip answer)).

(** [p[:p.rfind('/') + 1]] *)
Fixpoint head_of (p : string) : string :=
  match p with
  | EmptyString => EmptyString
  | String c t => if has_sep p then String c (head_of t) else EmptyString
  end.

(** Every character is in the set. *)
Fixpoint all_chars (p : ascii -> bool) (s : string) : bool :=
  match s with
  | EmptyString => true
  | String c t => p c && all_chars p t
  end.

(** [os.path.dirname], as [posixpath] has it: the head up to the last slash,
    its trailing slashes removed unless it consists of slashes only. *)
Definition dirname (p : string) : string :=
  let head := head_of p in
  if all_chars is_sep head then head else rstrip_chars is_sep head.

(** Lines 46-145, from the two answers and the table [read_csv] returned. *)
Definition script (argsort : list spec_float -> list nat)
    (re_compile : string -> option (string -> bool))
    (path_answer : string) (df : DataFrame) (benchmark_answer : string) : prog unit :=
  main argsort re_compile (dirname (input_path path_answer)) df benchmark_answer.

(** ** The two library kernels, for concrete runs *)

(** numpy's argsort for [kind='quicksort'] on float64, scalar path
    ([npysort/quicksort], [aquicksort_]): an introsort over the index array,
    with median-of-three partitioning, insertion sort for runs of at most 17
    elements and heapsort past the depth limit.  numpy documents this kind as
    not stable. *)
Module Npy.
Section Kernel.
Variable v : list spec_float.

Definition val (i : nat) : spec_float := nth i v F64.nan.

(** [DOUBLE_LT]: [a < b], a NaN counting as larger than any number. *)
Definition LT (a b : spec_float) : bool :=
  F64.ltb a b || (F64.is_nan b && negb (F64.is_nan a)).

Definition get (a : list nat) (p : nat) : nat := nth p a 0.

Definition set (a : list nat) (p x : nat) : list nat :=
  if p <? List.length a then firstn p a ++ x :: skipn (S p) a else a.

Definition SWAP (a : list nat) (p q : nat) : list nat :=
  set (set a p (get a q)) q (get a p).

Definition swap_if (c : bool) (a : list nat) (p q : nat) : list nat :=
  if c then SWAP a p q else a.

(** [do ++pi; while (LT(v[*pi], vp))], entered with [pi] already advanced. *)
Fixpoint scan_up (fuel : nat) (a : list nat) (pi : nat) (vp : spec_float) : nat :=
  match fuel with
  | 0 => pi
  | S fuel => if LT (val (get a pi)) vp then scan_up fuel a (S pi) vp else pi
  end.

(** [do --pj; while (LT(vp, v[*pj]))], entered with [pj] already moved. *)
Fixpoint scan_down (fuel : nat) (a : list nat) (pj : nat) (vp : spec_float) : nat :=
  match fuel with
  | 0 => pj
  | S fuel => if LT vp (val (get a pj)) then scan_down fuel a (pred pj) vp else pj
  end.

Fixpoint partition_loop (fuel : nat) (a : list nat) (pi pj : nat) (vp : spec_float)
  : list nat * nat :=
  match fuel with
  | 0 => (a, pi)
  | S fuel =>
      let pi := scan_up (List.length a) a (S pi) vp in
      let pj := scan_down (List.length a) a (pred pj) vp in
      if pj <=? pi then (a, pi) else partition_loop fuel (SWAP a pi pj) pi pj vp
  end.

(** One pass of the partitioning loop on [a[pl..pr]]; returns the array
    and the final place of the pivot. *)
Definition partition (a : list nat) (pl pr : nat) : list nat * nat :=
  let pm := pl + Nat.div2 (pr - pl) in
  let a := swap_if (LT (val (get a pm)) (val (get a pl))) a pm pl in
  let a := swap_if (LT (val (get a pr)) (val (get a pm))) a pr pm in
  let a := swap_if (LT (val (get a pm)) (val (get a pl))) a pm pl in
  let vp := val (get a pm) in
  let a := SWAP a pm (pr - 1) in
  let '(a, pi) := partition_loop (List.length a) a pl (pr - 1) vp in
  (SWAP a pi (pr - 1), pi).

(** The insertion sort of a run; [done] is the sorted part, nearest
    neighbour first. *)
Fixpoint shift_in (vi : nat) (done : list nat) : list nat :=
  match done with
  | [] => [vi]
  | pk :: rest =>
      if LT (val vi) (val pk) then pk :: shift_in vi rest else vi :: done
  end.

Definition insertion_sort (run : list nat) : list nat :=
  rev (fold_left (fun done vi => shift_in vi done) run []).

(** Heapsort of a run, on the 1-based view [a[1..n]] of the C code. *)
Definition get1 (a : list nat) (p : nat) : nat := get a (p - 1).
Definition set1 (a : list nat) (p x : nat) : list nat := set a (p - 1) x.

Fixpoint sift (fuel : nat) (a : list nat) (n tmp i j : nat) : list nat :=
  match fuel with
  | 0 => set1 a i tmp
  | S fuel =>
      if j <=? n then
        let j := if (j <? n) && LT (val (get1 a j)) (val (get1 a (j + 1))) then j + 1 else j in
        if LT (val tmp) (val (get1 a j))
        then sift fuel (set1 a i (get1 a j)) n tmp j (j + j)
        else set1 a i tmp
      else set1 a i tmp
  end.

Fixpoint build_heap (l : nat) (a : list nat) (n : nat) : list nat :=
  match l with
  | 0 => a
  | S l' => build_heap l' (sift n a n (get1 a l) l (l + l)) n
  end.

Fixpoint drain_heap (n : nat) (a : list nat) : list nat :=
  match n with
  | 0 => a
  | S n' =>
      match n' with
      | 0 => a
      | S _ =>
          let tmp := get1 a n in
          let a := set1 a n (get1 a 1) in
          drain_heap n' (sift n a n' tmp 1 2)
      end
  end.

Definition heapsort (run : list nat) : list nat :=
  let n := List.length run in
  drain_heap n (build_heap (Nat.div2 n) run n).

Definition on_run (f : list nat -> list nat) (a : list nat) (pl pr : nat) : list nat :=
  firstn pl a ++ f (firstn (S pr - pl) (skipn pl a)) ++ skipn (S pr) a.

Definition SMALL_QUICKSORT : nat := 16.

(** The outer loop.  [fresh] is true at the head of the outer [while (1)],
    where the depth limit is tested, and false inside the partitioning
    [while], where it is not. *)
Fixpoint quicksort_loop (fuel : nat) (fresh : bool) (a : list nat) (pl pr : nat)
    (stack : list (nat * nat * Z)) (cdepth : Z) : list nat :=
  match fuel with
  | 0 => a
  | S fuel =>
      let pop (a : list nat) :=
        match stack with
        | [] => a
        | (pl', pr', d) :: rest => quicksort_loop fuel true a pl' pr' rest d
        end in
      if fresh && (cdepth <? 0)%Z then pop (on_run heapsort a pl pr)
      else if SMALL_QUICKSORT <? pr - pl then
        let '(a, pi) := partition a pl pr in
        let cdepth := (cdepth - 1)%Z in
        if pi - pl <? pr - pi
        then quicksort_loop fuel false a pl (pi - 1) ((pi + 1, pr, cdepth) :: stack) cdepth
        else quicksort_loop fuel false a (pi + 1) pr ((pl, pi - 1, cdepth) :: stack) cdepth
      else pop (on_run insertion_sort a pl pr)
  end.
End Kernel.

(** [npy_get_msb] *)
Definition msb (n : nat) : Z := Z.log2 (Z.of_nat n).

Definition argsort (v : list spec_float) : list nat :=
  let n := List.length v in
  match n with
  | 0 => []
  | _ => quicksort_loop v (2 * n + 2) true (seq 0 n) 0 (n - 1) [] (2 * msb n)
  end.
End Npy.

(** Python's [re], for the patterns built from ordinary characters and [.]
    (any character but a newline).  A pattern that holds another
    metacharacter is outside this fragment: [compile] answers [None] for it,
    as [re] does for the ill-formed ones (an unclosed parenthesis, a lone
    quantifier); a well-formed pattern with such a character, which [re]
    compiles, is not covered by this kernel. *)
Module Re.
Definition metachars : string := "\^$*+?{}[]|()".

Fixpoint has (c : ascii) (s : string) : bool :=
  match s with
  | EmptyString => false
  | String x t => Ascii.eqb x c || has c t
  end.

Fixpoint in_fragment (pat : string) : bool :=
  match pat with
  | EmptyString => true
  | String c t => negb (has c metachars) && in_fragment t
  end.

Definition newline : ascii := ascii_of_nat 10.

Fixpoint match_here (pat s : string) : bool :=
  match pat, s with
  | EmptyString, _ => true
  | String _ _, EmptyString => false
  | String p pt, String c ct =>
      (if Ascii.eqb p "." then negb (Ascii.eqb c newline) else Ascii.eqb p c)
      && match_here pt ct
  end.

Fixpoint search (pat s : string) : bool :=
  match_here pat s ||
  match s with
  | EmptyString => false
  | String _ t => search pat t
  end.

Definition compile (pat : string) : option (string -> bool) :=
  if in_fragment pat then Some (search pat) else None.
End Re.
(** * Words for the statements *)

(** The four fields the loop adds. *)
Definition derived : list string :=
  ["Avg_MPO"; "Delta_MPO"; "Avg_norm_docking"; "Delta_norm_docking"].

(** A row carries the four derived fields, as numbers. *)
Definition tagged (s : Series) : Prop :=
  forall c, In c derived -> exists f, getitem s c = Ok (Num f).

Definition numeric_at (c : string) (r : Series) : Prop := exists f, cell_at r c = Num f.

(** A row carries the required and the derived fields. *)
Definition complete (s : Series) : Prop :=
  forall c, In c (required_columns ++ derived) -> In c (index s).

Definition has_number (r : Series) (c : string) : bool :=
  match lookup c (items r) with
  | Some (Num _) => true
  | _ => false
  end.

Definition ready_row (r : Series) : bool :=
  mem "Title" (index r) && mem "docking score" (index r)
  && has_number r "MPO_score" && has_number r "norm_docking_score".

Definition ready_group (g : list Series) : bool :=
  match g with
  | [r1; r2] => ready_row r1 && ready_row r2
  | _ => false
  end.

(** The table has a group, every group is a pair, and every row of a pair
    carries the four required fields, with numbers (NaN included) for the two
    scores. *)
Definition ready (df : DataFrame) : bool :=
  match groupby_Title df with
  | [] => false
  | gs => forallb (fun kg => ready_group (snd kg)) gs
  end.

(** [s1] and [s2] are the two ranked tables of [processed_df]: its MPO-first
    view sorted by [Avg_MPO], its docking-first view sorted by
    [Avg_norm_docking]. *)
Definition ranked_files (argsort : list spec_float -> list nat)
    (processed_df s1 s2 : DataFrame) : Prop :=
  (exists cols view,
      arrange mpo_first (columns processed_df) = Ok cols /\
      select_columns processed_df cols = Ok view /\
      sort_values argsort view "Avg_MPO" = Ok s1) /\
  (exists cols view,
      arrange docking_first (columns processed_df) = Ok cols /\
      select_columns processed_df cols = Ok view /\
      sort_values argsort view "Avg_norm_docking" = Ok s2).

(** The test of lines 120-121 on one row. *)
Definition exceeds (avg_mpo_benchmark avg_norm_dock_benchmark : spec_float) (r : Series) : bool :=
  match cell_at r "Avg_MPO", cell_at r "Avg_norm_docking" with
  | Num a, Num b => F64.gtb a avg_mpo_benchmark && F64.gtb b avg_norm_dock_benchmark
  | _, _ => false
  end.

(** [r] is the first row of [l] whose field [c] is present, and [v] is its
    value. *)
Definition first_present (c : string) (l : list Series) (r : Series) (v : spec_float) : Prop :=
  exists before after,
    l = before ++ r :: after /\
    Forall (fun p => isna (cell_at p c) = true) before /\
    cell_at r c = Num v /\ F64.is_nan v = false.

(** Did the run write this file, did it print the warning? *)
Definition wrote (path : string) (tr : list event) : bool :=
  existsb (fun e => match e with to_csv p _ => String.eqb p path | print _ => false end) tr.

Definition warned (tr : list event) : bool :=
  existsb (fun e => match e with print (BenchmarkNotFound _) => true | _ => false end) tr.

(** The key of a row, as [sort_values] reads it. *)
Definition key_of (by_ : string) (r : Series) : spec_float :=
  match cell_at r by_ with
  | Num f => f
  | Str _ => F64.nan
  end.

(** [a <= b] on float64. *)
Definition F64_leb : spec_float -> spec_float -> bool := SFleb.

(** Adjacent elements are related. *)
Fixpoint chain {A} (R : A -> A -> bool) (l : list A) : bool :=
  match l with
  | a :: (b :: _) as t => R a b && chain R t
  | _ => true
  end.

(** No element is followed by a smaller one. *)
Definition ascending (l : list spec_float) : bool :=
  chain (fun a b => negb (F64.ltb b a)) l.

(** Every element is at least the one that follows it. *)
Definition descending (l : list spec_float) : bool :=
  chain (fun a b => F64_leb b a) l.

Fixpoint nodupb (l : list nat) : bool :=
  match l with
  | [] => true
  | x :: t => negb (existsb (Nat.eqb x) t) && nodupb t
  end.

(** What any kind of numpy argsort answers for [values]: each position once,
    the values read in that order ascending. *)
Definition is_argsort (values : list spec_float) (order : list nat) : bool :=
  (List.length order =? List.length values)
  && forallb (fun i => i <? List.length values) order
  && nodupb order
  && ascending (map (fun i => nth i values F64.nan) order).

(** A row with a present identifier. *)
Definition titled (r : Series) : bool :=
  match lookup "Title" (items r) with
  | Some k => negb (isna k)
  | None => false
  end.

(** The rows of the groups, group by group. *)
Definition members (gs : list (cell * list Series)) : list Series := List.concat (map snd gs).

(** A row of [processed_rows] against the input row it comes from: same
    label, and every field but the four derived ones as it was. *)
Definition passed_through (r s : Series) : Prop :=
  name s = name r /\
  (forall col, In col (index r) -> In col (index s)) /\
  (forall col, ~ In col derived -> lookup col (items s) = lookup col (items r)).

(** The row carries the field; the field holds text. *)
Definition has_field (r : Series) (c : string) : bool :=
  match lookup c (items r) with Some _ => true | None => false end.

Definition is_text (r : Series) (c : string) : bool :=
  match lookup c (items r) with Some (Str _) => true | _ => false end.

(** A pair whose two rows carry both scores; a pair with text for a score. *)
Definition scored_pair (g : list Series) : bool :=
  match g with
  | [r1; r2] =>
      has_field r1 "MPO_score" && has_field r2 "MPO_score"
      && has_field r1 "norm_docking_score" && has_field r2 "norm_docking_score"
  | _ => false
  end.

Definition text_score (g : list Series) : bool :=
  match g with
  | [r1; r2] =>
      is_text r1 "MPO_score" || is_text r2 "MPO_score"
      || is_text r1 "norm_docking_score" || is_text r2 "norm_docking_score"
  | _ => false
  end.

(** Nothing but white space. *)
Definition blank (s : string) : bool := all_chars is_space s.

(** The files of a trace. *)
Definition paths_written (tr : list event) : list string :=
  flat_map (fun e => match e with to_csv p _ => [p] | print _ => [] end) tr.

(** A representative of a float64 value under [==]: the two zeros are equal. *)
Definition canon (f : spec_float) : spec_float :=
  match f with
  | S754_zero _ => S754_zero false
  | _ => f
  end.

Definition canon_key (c : cell) : cell :=
  match c with
  | Num f => Num (canon f)
  | Str s => Str s
  end.

(** One turn of the grouping fold. *)
Definition group_step (gs : list (cell * list Series)) (r : Series)
  : list (cell * list Series) :=
  match lookup "Title" (items r) with
  | Some k => if isna k then gs else add_to_group k r gs
  | None => gs
  end.

(** [r] belongs to the group keyed [k], and to none of the groups keyed by
    [prev]. *)
Definition member_ok (prev : list cell) (k : cell) (r : Series) : Prop :=
  exists t, lookup "Title" (items r) = Some t /\ isna t = false /\ key_eqb k t = true /\
            Forall (fun k' => key_eqb k' t = false) prev.

(** The groups are as the fold builds them: each is keyed by the identifier
    of its first row, and no row could have joined an earlier group. *)
Fixpoint well_grouped (prev : list cell) (gs : list (cell * list Series)) : Prop :=
  match gs with
  | [] => True
  | (k, g) :: rest =>
      (exists r g', g = r :: g' /\ lookup "Title" (items r) = Some k) /\
      Forall (member_ok prev k) g /\
      well_grouped (prev ++ [k]) rest
  end.

(** The two output rows of a pair. *)
Definition block_of (g b : list Series) : Prop :=
  exists r1 r2 a1 a2 a3 a4,
    g = [r1; r2] /\ b = [tag r1 a1 a2 a3 a4; tag r2 a1 a2 a3 a4] /\
    average r1 r2 "MPO_score" = Ok a1 /\ delta r1 r2 "MPO_score" = Ok a2 /\
    average r1 r2 "norm_docking_score" = Ok a3 /\ delta r1 r2 "norm_docking_score" = Ok a4.

Definition same_title (r o : Series) : Prop :=
  lookup "Title" (items o) = lookup "Title" (items r).

(** The groups [gs] with their members replaced by the blocks [bs]. *)
Definition rekeyed (gs : list (cell * list Series)) (bs : list (list Series))
  : list (cell * list Series) :=
  map (fun p => (fst (fst p), snd p)) (combine gs bs).

(** * Example tables *)

Definition input_columns : list string :=
  ["Title"; "MPO_score"; "norm_docking_score"; "docking score"].

Definition record (label : nat) (title : string) (mpo dock raw : spec_float) : Series :=
  mkSeries label
    [("Title", Str title); ("MPO_score", Num mpo); ("norm_docking_score", Num dock);
     ("docking score", Num raw)].

Definition table (l : list Series) : DataFrame := mkFrame input_columns l.

(** 0.25, 0.5, 0.75 and a raw score of -7. *)
Definition q1 : spec_float := Eval cbv in F64.of_Z2 1 (-2).
Definition q2 : spec_float := Eval cbv in F64.of_Z2 1 (-1).
Definition q3 : spec_float := Eval cbv in F64.of_Z2 3 (-2).
Definition raw7 : spec_float := Eval cbv in F64.of_Z2 (-7) 0.

(** The aggregated table of an example, when there is one. *)
Definition aggregated (df : DataFrame) : DataFrame :=
  match aggregate df with
  | Ok d => d
  | Raise _ => mkFrame [] []
  end.

(** Two exact pairs: A scores (0.75, 0.5) and (0.25, 0.5), B scores
    (0.5, 0.75) twice. *)
Definition a1 : Series := record 0 "A" q3 q2 raw7.
Definition a2 : Series := record 1 "A" q1 q2 raw7.
Definition b1 : Series := record 2 "B" q2 q3 raw7.
Definition b2 : Series := record 3 "B" q2 q3 raw7.
Definition two_pairs : DataFrame := table [a1; a2; b1; b2].
Definition two_pairs_aggregated : DataFrame := Eval vm_compute in aggregated two_pairs.

(** The scenario of the specification, with a lone row for B. *)
Definition b_alone : Series := record 2 "B" q2 q2 raw7.
Definition pair_and_single : DataFrame := table [a1; a2; b_alone].

(** A table without the two score columns. *)
Definition no_scores : DataFrame :=
  mkFrame ["Title"; "docking score"]
          [mkSeries 0 [("Title", Str "A"); ("docking score", Num raw7)]].

(** A query that matches two groups: X lacks one MPO score, XY is complete. *)
Definition x1 : Series := record 0 "X" F64.nan q2 raw7.
Definition x2 : Series := record 1 "X" q2 q2 raw7.
Definition y1 : Series := record 2 "XY" q3 q1 raw7.
Definition y2 : Series := record 3 "XY" q3 q1 raw7.
Definition two_matches : DataFrame := table [x1; x2; y1; y2].
Definition two_matches_aggregated : DataFrame := Eval vm_compute in aggregated two_matches.

(** The pair X alone: its [Avg_MPO] is unset. *)
Definition unset_pair : DataFrame := table [x1; x2].
Definition unset_pair_aggregated : DataFrame := Eval vm_compute in aggregated unset_pair.

(** One pair titled abc. *)
Definition abc_pair : DataFrame :=
  table [record 0 "abc" q2 q2 raw7; record 1 "abc" q2 q2 raw7].

(** Two groups under one query: A1 averages 0.5 on both metrics, A2 0.75. *)
Definition two_groups : DataFrame :=
  table [record 0 "A1" q2 q2 raw7; record 1 "A1" q2 q2 raw7;
         record 2 "A2" q3 q3 raw7; record 3 "A2" q3 q3 raw7].
Definition two_groups_aggregated : DataFrame := Eval vm_compute in aggregated two_groups.

(** Nine pairs, A to I, already in descending order of their MPO scores
    (9/16 down to 1/16); rows 8 and 9 are the two rows of E. *)
Definition letter (i : nat) : string := String (ascii_of_nat (65 + i)) EmptyString.

Definition pair_of (i : nat) : list Series :=
  let mpo := F64.of_Z2 (9 - Z.of_nat i) (-4) in
  [record (2 * i) (letter i) mpo q2 raw7; record (2 * i + 1) (letter i) mpo q2 raw7].

Definition nine_pairs : DataFrame := table (flat_map pair_of (seq 0 9)).

(** The MPO-first view of its aggregated table, before and after the sort. *)
Definition nine_pairs_view : DataFrame :=
  Eval vm_compute in
    match (p <- aggregate nine_pairs ;;
           cols <- arrange mpo_first (columns p) ;;
           select_columns p cols)%result with
    | Ok d => d
    | Raise _ => mkFrame [] []
    end.

Definition nine_pairs_sorted : DataFrame :=
  Eval vm_compute in
    match sort_values Npy.argsort nine_pairs_view "Avg_MPO" with
    | Ok d => d
    | Raise _ => mkFrame [] []
    end.

(** A header and no row; a row without identifier, alone and among two
    pairs. *)
Definition header_only : DataFrame := table [].
Definition untitled : Series :=
  mkSeries 4 [("Title", NaN); ("MPO_score", Num q2); ("norm_docking_score", Num q2);
              ("docking score", Num raw7)].
Definition two_pairs_and_untitled : DataFrame := table [a1; b1; untitled; a2; b2].

(** A pair whose second MPO score was read as text. *)
Definition text_row1 : Series := record 0 "T" q2 q2 raw7.
Definition text_row2 : Series :=
  mkSeries 1 [("Title", Str "T"); ("MPO_score", Str "n/a"); ("norm_docking_score", Num q2);
              ("docking score", Num raw7)].
Definition text_pair : DataFrame := table [a1; a2; text_row1; text_row2].

(** Two pairs identified by the numbers 0.25 and 0.5. *)
Definition numbered (label : nat) (title mpo dock : spec_float) : Series :=
  mkSeries label
    [("Title", Num title); ("MPO_score", Num mpo); ("norm_docking_score", Num dock);
     ("docking score", Num raw7)].
Definition numbered_pairs : DataFrame :=
  table [numbered 0 q1 q3 q2; numbered 1 q1 q1 q2; numbered 2 q2 q2 q3; numbered 3 q2 q2 q3].

(** The rows of [two_groups] that beat the thresholds of the query a, and the
    filtered file. *)
Definition two_groups_better : DataFrame :=
  Eval vm_compute in
    match better_than two_groups_aggregated q2 q2 with
    | Ok d => d
    | Raise _ => mkFrame [] []
    end.

Definition two_groups_filtered : DataFrame :=
  Eval vm_compute in
    match final_output two_groups_better two_groups_aggregated with
    | Ok d => d
    | Raise _ => mkFrame [] []
    end.

(** The two ranked tables of [two_matches], where the pair X has no
    [Avg_MPO]. *)
Definition two_matches_by_mpo : DataFrame :=
  Eval vm_compute in
    match fst (main Npy.argsort Re.compile "out" two_matches "none") with
    | to_csv _ d :: _ => d
    | _ => mkFrame [] []
    end.

Definition two_matches_by_docking : DataFrame :=
  Eval vm_compute in
    match fst (main Npy.argsort Re.compile "out" two_matches "none") with
    | _ :: to_csv _ d :: _ => d
    | _ => mkFrame [] []
    end.

(** The answer of a user who pastes a quoted Windows path. *)
Definition pasted_path : string :=
  (" " ++ String "034" "C:\data\in.csv" ++ String "034" " ")%string.

(** * Facts *)

(** ** binary64 *)

Lemma SFadd_comm (x y : spec_float) : F64.add x y = F64.add y x.
Proof.
  unfold F64.add.
  destruct x as [sx|sx| |sx mx ex], y as [sy|sy| |sy my ey]; simpl;
    try reflexivity; try (destruct sx, sy; reflexivity).
  rewrite (Z.min_comm ey ex).
  f_equal. apply Z.add_comm.
Qed.

Lemma SFabs_round_aux_sign (s : bool) (m e : Z) (l : location) :
  SFabs (binary_round_aux F64.prec F64.emax s m e l)
  = SFabs (binary_round_aux F64.prec F64.emax false m e l).
Proof.
  unfold binary_round_aux.
  destruct (shr_fexp F64.prec F64.emax m e l) as [mrs' e'].
  destruct (shr_fexp F64.prec F64.emax _ e' loc_Exact) as [mrs'' e''].
  destruct (shr_m mrs''); try reflexivity.
  destruct (Z.leb e'' _); reflexivity.
Qed.

Lemma SFabs_normalize_opp (m e : Z) :
  SFabs (binary_normalize F64.prec F64.emax (- m) e false)
  = SFabs (binary_normalize F64.prec F64.emax m e false).
Proof.
  destruct m as [|p|p]; simpl; try reflexivity; unfold binary_round;
    destruct (shl_align p e _) as [mz ez];
    rewrite (SFabs_round_aux_sign true); reflexivity.
Qed.

Lemma SFabs_sub_sym (x y : spec_float) : F64.abs (F64.sub x y) = F64.abs (F64.sub y x).
Proof.
  unfold F64.abs, F64.sub.
  destruct x as [sx|sx| |sx mx ex], y as [sy|sy| |sy my ey]; simpl;
    try reflexivity; try (destruct sx, sy; reflexivity).
  rewrite (Z.min_comm ey ex).
  rewrite <- SFabs_normalize_opp.
  f_equal. f_equal. lia.
Qed.

Lemma SFltb_irrefl (x : spec_float) : F64.ltb x x = false.
Proof.
  unfold F64.ltb, SFltb.
  destruct x as [s|s| |s m e]; simpl; try reflexivity; try (destruct s; reflexivity).
  destruct s; rewrite Z.compare_refl;
    change (Pos.compare_cont Eq m m) with (Pos.compare m m);
    rewrite Pos.compare_refl; reflexivity.
Qed.

Lemma gtb_self (x : spec_float) : F64.gtb x x = false.
Proof. apply SFltb_irrefl. Qed.

Lemma SFcompare_antisym (a b : spec_float) :
  F64.is_nan a = false -> F64.is_nan b = false ->
  exists c, SFcompare a b = Some c /\ SFcompare b a = Some (CompOpp c).
Proof.
  intros Na Nb.
  destruct a as [sa|sa| |sa ma ea], b as [sb|sb| |sb mb eb]; try discriminate; simpl;
    try (destruct sa; eexists; split; reflexivity);
    try (destruct sb; eexists; split; reflexivity);
    try (destruct sa, sb; eexists; split; reflexivity).
  change (Pos.compare_cont Eq ma mb) with (Pos.compare ma mb).
  change (Pos.compare_cont Eq mb ma) with (Pos.compare mb ma).
  rewrite (Z.compare_antisym ea eb), (Pos.compare_antisym ma mb).
  destruct sa, sb; eexists; (split; [reflexivity|]);
    destruct (Z.compare ea eb); simpl; try reflexivity;
    destruct (Pos.compare ma mb); reflexivity.
Qed.

Lemma not_ltb_leb (a b : spec_float) :
  F64.is_nan a = false -> F64.is_nan b = false ->
  F64.ltb a b = false -> F64_leb b a = true.
Proof.
  intros Na Nb. destruct (SFcompare_antisym a b Na Nb) as [c [E1 E2]].
  unfold F64.ltb, F64_leb, SFltb, SFleb. rewrite E1, E2.
  destruct c; simpl; congruence.
Qed.

(** ** Rows *)

Lemma lookup_assoc_set_same (c : string) (v : cell) (l : list (string * cell)) :
  lookup c (assoc_set c v l) = Some v.
Proof.
  induction l as [|[k x] t IH]; simpl.
  - now rewrite String.eqb_refl.
  - destruct (String.eqb k c) eqn:E; simpl; rewrite E; auto.
Qed.

Lemma lookup_assoc_set_other (c c' : string) (v : cell) (l : list (string * cell)) :
  c <> c' -> lookup c (assoc_set c' v l) = lookup c l.
Proof.
  intros D. induction l as [|[k x] t IH]; simpl.
  - destruct (String.eqb c' c) eqn:E; auto.
    apply String.eqb_eq in E. congruence.
  - destruct (String.eqb k c') eqn:E; simpl.
    + apply String.eqb_eq in E. subst k.
      destruct (String.eqb c' c) eqn:E'; auto.
      apply String.eqb_eq in E'. congruence.
    + rewrite IH. reflexivity.
Qed.

Lemma In_index_assoc_set (c c' : string) (v : cell) (l : list (string * cell)) :
  In c (map fst (assoc_set c' v l)) <-> c = c' \/ In c (map fst l).
Proof.
  induction l as [|[k x] t IH]; simpl.
  - intuition.
  - destruct (String.eqb k c') eqn:E; simpl.
    + apply String.eqb_eq in E. subst k. intuition.
    + rewrite IH. intuition.
Qed.

Lemma lookup_In_index (c : string) (l : list (string * cell)) :
  In c (map fst l) <-> exists v, lookup c l = Some v.
Proof.
  induction l as [|[k x] t IH]; simpl.
  - split; [tauto | intros [v H]; discriminate].
  - destruct (String.eqb k c) eqn:E.
    + apply String.eqb_eq in E. split; eauto.
    + apply String.eqb_neq in E. rewrite <- IH. intuition.
Qed.

Lemma mem_In (c : string) (cols : list string) : mem c cols = true <-> In c cols.
Proof.
  unfold mem. rewrite existsb_exists. split.
  - intros [x [H E]]. apply String.eqb_eq in E. now subst.
  - intros H. exists c. split; auto. apply String.eqb_refl.
Qed.

Lemma mem_false (c : string) (cols : list string) : mem c cols = false <-> ~ In c cols.
Proof.
  rewrite <- mem_In. destruct (mem c cols); split; congruence.
Qed.

Lemma lookup_tabulate (f : string -> cell) (c : string) (cols : list string) :
  In c cols -> lookup c (map (fun c => (c, f c)) cols) = Some (f c).
Proof.
  induction cols as [|x t IH]; simpl; [tauto|].
  intros H. destruct (String.eqb x c) eqn:E.
  - apply String.eqb_eq in E. now subst.
  - apply String.eqb_neq in E. destruct H; [congruence | auto].
Qed.

Lemma cell_at_reindex (cols : list string) (s : Series) (c : string) :
  In c cols -> cell_at (reindex cols s) c = cell_at s c.
Proof.
  intros H. unfold cell_at at 1. unfold reindex; simpl.
  rewrite (lookup_tabulate (fun c => match lookup c (items s) with Some v => v | None => NaN end) c cols H).
  reflexivity.
Qed.

Lemma getitem_cell_at (s : Series) (c : string) (v : cell) :
  getitem s c = Ok v -> cell_at s c = v.
Proof.
  unfold getitem, cell_at. destruct (lookup c (items s)); congruence.
Qed.

(** The four derived fields of a tagged row, and its other fields. *)
Lemma tag_fields (row : Series) (a b c d : cell) :
  getitem (tag row a b c d) "Avg_MPO" = Ok a /\
  getitem (tag row a b c d) "Delta_MPO" = Ok b /\
  getitem (tag row a b c d) "Avg_norm_docking" = Ok c /\
  getitem (tag row a b c d) "Delta_norm_docking" = Ok d.
Proof.
  unfold tag, getitem, setitem; simpl.
  repeat split;
    repeat (first [ rewrite lookup_assoc_set_same
                  | rewrite lookup_assoc_set_other by discriminate ]);
    reflexivity.
Qed.

Lemma tag_frame (row : Series) (a b c d : cell) (col : string) :
  ~ In col derived -> lookup col (items (tag row a b c d)) = lookup col (items row).
Proof.
  intros H. unfold tag, setitem; simpl in *.
  repeat rewrite lookup_assoc_set_other by intuition congruence.
  reflexivity.
Qed.

Lemma tag_index (row : Series) (a b c d : cell) (col : string) :
  In col (index (tag row a b c d)) <-> In col derived \/ In col (index row).
Proof.
  unfold tag, setitem, index; simpl.
  repeat rewrite In_index_assoc_set. intuition.
Qed.

(** ** The aggregation loop and the frame constructor *)

Lemma rbind_Ok {A B} (r : result A) (k : A -> result B) (b : B) :
  rbind r k = Ok b -> exists a, r = Ok a /\ k a = Ok b.
Proof. destruct r; simpl; [eauto | discriminate]. Qed.

(** A group that is not a pair goes to [processed_rows] as it is: one element,
    the group's frame, with the group's rows in their order and no field
    added. *)
Lemma process_group_not_pair (cols : list string) (group : list Series) :
  List.length group <> 2 ->
  process_group cols group = Ok [Group (mkFrame cols group)].
Proof.
  intros H. destruct group as [|a [|b [|c t]]]; simpl in *; try reflexivity.
  congruence.
Qed.

Lemma process_groups_In (cols : list string) (groups : list (cell * list Series))
    (l : list item) (k : cell) (g : list Series) :
  process_groups cols groups = Ok l -> In (k, g) groups ->
  exists here, process_group cols g = Ok here /\ incl here l.
Proof.
  revert l. induction groups as [|[k' g'] rest IH]; simpl; intros l H HIn; [tauto|].
  apply rbind_Ok in H. destruct H as [here [Hh H]].
  apply rbind_Ok in H. destruct H as [more [Hm H]].
  injection H as <-.
  destruct HIn as [E | HIn].
  - injection E as -> ->. exists here. split; auto. apply incl_appl, incl_refl.
  - destruct (IH more Hm HIn) as [h [P Q]]. exists h. split; auto.
    now apply incl_appr.
Qed.

Lemma process_groups_has_group (cols : list string) (groups : list (cell * list Series))
    (l : list item) (k : cell) (g : list Series) :
  process_groups cols groups = Ok l -> In (k, g) groups -> List.length g <> 2 ->
  existsb is_group l = true.
Proof.
  intros H HIn Hlen.
  destruct (process_groups_In _ _ _ _ _ H HIn) as [here [P Q]].
  rewrite process_group_not_pair in P by assumption. injection P as <-.
  apply existsb_exists. exists (Group (mkFrame cols g)). split; [|reflexivity].
  apply Q. now left.
Qed.

Lemma DataFrame_of_list_Ok (l : list item) (pdf : DataFrame) :
  DataFrame_of_list l = Ok pdf ->
  existsb is_group l = false /\
  pdf = mkFrame (combined_columns (series_of l))
                (map (reindex (combined_columns (series_of l))) (series_of l)).
Proof.
  unfold DataFrame_of_list. destruct (existsb is_group l); [discriminate|].
  intros H. injection H as <-. auto.
Qed.

Lemma In_series_of (s : Series) (l : list item) : In (Row s) l -> In s (series_of l).
Proof.
  induction l as [|[g|s'] t IH]; simpl; [tauto| |].
  - intros [E|H]; [discriminate | auto].
  - intros [E|H]; [injection E as ->; now left | right; auto].
Qed.

Lemma series_of_In (s : Series) (l : list item) : In s (series_of l) -> In (Row s) l.
Proof.
  induction l as [|[g|s'] t IH]; simpl; [tauto| |]; intuition congruence.
Qed.

Lemma In_union_index (c : string) (labels acc : list string) :
  In c (union_index acc labels) <-> In c acc \/ In c labels.
Proof.
  unfold union_index. revert acc.
  induction labels as [|x t IH]; simpl; intros acc; [tauto|].
  rewrite IH. destruct (mem x acc) eqn:E.
  - apply mem_In in E. intuition. subst. auto.
  - rewrite in_app_iff. simpl. intuition.
Qed.

Lemma In_combined_from (c : string) (l : list Series) (acc : list string) :
  In c (fold_left (fun acc s => union_index acc (index s)) l acc)
  <-> In c acc \/ exists s, In s l /\ In c (index s).
Proof.
  revert acc. induction l as [|s t IH]; simpl; intros acc.
  - split; [auto | intros [H|[s [[] _]]]; auto].
  - rewrite IH, In_union_index. split.
    + intros [[H|H]|[s' [H1 H2]]]; eauto.
    + intros [H|[s' [[->|H1] H2]]]; eauto.
Qed.

Lemma In_combined_columns (c : string) (l : list Series) :
  In c (combined_columns l) <-> exists s, In s l /\ In c (index s).
Proof.
  unfold combined_columns. rewrite In_combined_from. simpl. tauto.
Qed.

(** A row of [processed_rows] is a row of [processed_df], with every field it
    had. *)
Lemma DataFrame_of_list_row (l : list item) (pdf : DataFrame) (s : Series) :
  DataFrame_of_list l = Ok pdf -> In (Row s) l ->
  exists o, In o (rows pdf) /\ name o = name s /\
            forall c, In c (index s) -> In c (columns pdf) /\ cell_at o c = cell_at s c.
Proof.
  intros H HIn. apply DataFrame_of_list_Ok in H. destruct H as [_ ->]. simpl.
  apply In_series_of in HIn.
  exists (reindex (combined_columns (series_of l)) s). split; [|split].
  - now apply in_map.
  - reflexivity.
  - intros c Hc.
    assert (In c (combined_columns (series_of l))) by (apply In_combined_columns; eauto).
    split; auto. now apply cell_at_reindex.
Qed.

Lemma average_num (row1 row2 : Series) (c : string) (a b : spec_float) :
  getitem row1 c = Ok (Num a) -> getitem row2 c = Ok (Num b) ->
  average row1 row2 c = Ok (Num (F64.div (F64.add a b) F64.two)).
Proof. intros H1 H2. unfold average. rewrite H1, H2. reflexivity. Qed.

Lemma delta_num (row1 row2 : Series) (c : string) (a b : spec_float) :
  getitem row1 c = Ok (Num a) -> getitem row2 c = Ok (Num b) ->
  delta row1 row2 c = Ok (Num (F64.abs (F64.sub a b))).
Proof. intros H1 H2. unfold delta. rewrite H1, H2. reflexivity. Qed.

Lemma process_group_pair (cols : list string) (row1 row2 : Series) (m1 m2 d1 d2 : spec_float) :
  getitem row1 "MPO_score" = Ok (Num m1) ->
  getitem row2 "MPO_score" = Ok (Num m2) ->
  getitem row1 "norm_docking_score" = Ok (Num d1) ->
  getitem row2 "norm_docking_score" = Ok (Num d2) ->
  let avg_mpo := Num (F64.div (F64.add m1 m2) F64.two) in
  let delta_mpo := Num (F64.abs (F64.sub m1 m2)) in
  let avg_dock := Num (F64.div (F64.add d1 d2) F64.two) in
  let delta_dock := Num (F64.abs (F64.sub d1 d2)) in
  process_group cols [row1; row2]
  = Ok [Row (tag row1 avg_mpo delta_mpo avg_dock delta_dock);
        Row (tag row2 avg_mpo delta_mpo avg_dock delta_dock)].
Proof.
  intros H1 H2 H3 H4. simpl.
  rewrite (average_num _ _ _ _ _ H1 H2), (delta_num _ _ _ _ _ H1 H2).
  rewrite (average_num _ _ _ _ _ H3 H4), (delta_num _ _ _ _ _ H3 H4).
  reflexivity.
Qed.

Lemma processed_rows_titled (df : DataFrame) :
  In "Title" (columns df) ->
  processed_rows df = process_groups (columns df) (groupby_Title df).
Proof.
  intros H. unfold processed_rows, grouped. now rewrite (proj2 (mem_In _ _) H).
Qed.

Lemma processed_rows_Ok (df : DataFrame) (l : list item) :
  processed_rows df = Ok l ->
  In "Title" (columns df) /\ process_groups (columns df) (groupby_Title df) = Ok l.
Proof.
  unfold processed_rows, grouped. destruct (mem "Title" (columns df)) eqn:M; [|discriminate].
  intros H. split; [now apply mem_In | exact H].
Qed.

Lemma aggregate_Ok_titled (df processed_df : DataFrame) :
  aggregate df = Ok processed_df -> In "Title" (columns df).
Proof.
  unfold aggregate. intros H. apply rbind_Ok in H. destruct H as [l [H _]].
  now apply processed_rows_Ok in H.
Qed.

Lemma check_schema_columns (df : DataFrame) (c : string) :
  check_schema df = Ok df -> In c required_columns -> In c (columns df).
Proof.
  unfold check_schema, missing_cols. intros H Hc.
  destruct (filter _ required_columns) eqn:E; [|discriminate].
  destruct (mem c (columns df)) eqn:M; [now apply mem_In|].
  assert (I : In c (filter (fun col => negb (mem col (columns df))) required_columns))
    by (apply filter_In; rewrite M; auto).
  rewrite E in I. destruct I.
Qed.

Lemma aggregate_not_pair (df : DataFrame) (key : cell) (group : list Series) :
  In (key, group) (groupby_Title df) -> List.length group <> 2 ->
  exists e, aggregate df = Raise e.
Proof.
  intros HIn Hlen. unfold aggregate.
  destruct (processed_rows df) as [l|e] eqn:E; simpl; [|eauto].
  apply processed_rows_Ok in E. destruct E as [_ E].
  exists ConstructError. unfold DataFrame_of_list.
  now rewrite (process_groups_has_group _ _ _ _ _ E HIn Hlen).
Qed.

Lemma average_is_num (row1 row2 : Series) (c : string) (v : cell) :
  average row1 row2 c = Ok v -> exists f, v = Num f.
Proof.
  unfold average. intros H.
  apply rbind_Ok in H. destruct H as [a [_ H]].
  apply rbind_Ok in H. destruct H as [b [_ H]].
  apply rbind_Ok in H. destruct H as [s [_ H]].
  destruct s; simpl in H; [injection H as <-; eauto | discriminate].
Qed.

Lemma delta_is_num (row1 row2 : Series) (c : string) (v : cell) :
  delta row1 row2 c = Ok v -> exists f, v = Num f.
Proof.
  unfold delta. intros H.
  apply rbind_Ok in H. destruct H as [a [_ H]].
  apply rbind_Ok in H. destruct H as [b [_ H]].
  apply rbind_Ok in H. destruct H as [s [_ H]].
  destruct s; simpl in H; [injection H as <-; eauto | discriminate].
Qed.

Lemma process_group_tagged (cols : list string) (g : list Series) (here : list item) (s : Series) :
  process_group cols g = Ok here -> In (Row s) here -> tagged s.
Proof.
  intros H HIn.
  destruct g as [|r1 [|r2 [|r3 t]]]; simpl in H;
    try (injection H as <-; destruct HIn as [E|[]]; discriminate).
  apply rbind_Ok in H. destruct H as [a [Ha H]].
  apply rbind_Ok in H. destruct H as [b [Hb H]].
  apply rbind_Ok in H. destruct H as [c [Hc H]].
  apply rbind_Ok in H. destruct H as [d [Hd H]].
  injection H as <-.
  apply average_is_num in Ha, Hc. apply delta_is_num in Hb, Hd.
  destruct Ha as [fa ->], Hb as [fb ->], Hc as [fc ->], Hd as [fd ->].
  assert (T : forall r, tagged (tag r (Num fa) (Num fb) (Num fc) (Num fd))).
  { intros r col Hcol.
    destruct (tag_fields r (Num fa) (Num fb) (Num fc) (Num fd)) as (A & B & C & D).
    simpl in Hcol. intuition (subst; eauto). }
  destruct HIn as [E|[E|[]]]; injection E as <-; apply T.
Qed.

Lemma process_groups_tagged (cols : list string) (groups : list (cell * list Series))
    (l : list item) (s : Series) :
  process_groups cols groups = Ok l -> In (Row s) l -> tagged s.
Proof.
  revert l. induction groups as [|[k g] rest IH]; simpl; intros l H HIn.
  - injection H as <-. destruct HIn.
  - apply rbind_Ok in H. destruct H as [here [Hh H]].
    apply rbind_Ok in H. destruct H as [more [Hm H]].
    injection H as <-. apply in_app_or in HIn. destruct HIn as [HIn|HIn].
    + eapply process_group_tagged; eassumption.
    + eapply IH; eauto.
Qed.

(** Every row of [processed_df] holds numbers in the four derived columns,
    and a table with a row has these columns. *)
Lemma aggregate_derived_numeric (df processed_df : DataFrame) (c : string) :
  aggregate df = Ok processed_df -> In c derived ->
  Forall (numeric_at c) (rows processed_df) /\
  (rows processed_df <> [] -> In c (columns processed_df)).
Proof.
  unfold aggregate. intros H Hc.
  apply rbind_Ok in H. destruct H as [l [Hl Hdf]].
  apply processed_rows_Ok in Hl. destruct Hl as [_ Hl].
  apply DataFrame_of_list_Ok in Hdf. destruct Hdf as [_ ->]. simpl.
  assert (T : forall s, In s (series_of l) -> In c (index s) /\ numeric_at c s).
  { intros s Hs. apply series_of_In in Hs.
    destruct (process_groups_tagged _ _ _ _ Hl Hs c Hc) as [f Hf].
    split.
    - apply lookup_In_index. unfold getitem in Hf.
      destruct (lookup c (items s)); [eauto | discriminate].
    - exists f. now apply getitem_cell_at. }
  split.
  - apply Forall_forall. intros r Hr. apply in_map_iff in Hr.
    destruct Hr as [s [<- Hs]]. destruct (T s Hs) as [I [f Hf]].
    exists f. rewrite cell_at_reindex; [assumption|].
    apply In_combined_columns. eauto.
  - intros NE.
    assert (E : exists s, In s (series_of l)).
    { destruct (series_of l) as [|s t]; [exfalso; apply NE; reflexivity|].
      exists s. now left. }
    destruct E as [s Hs].
    apply In_combined_columns. exists s. split; [assumption | now apply T].
Qed.

(** ** The column arranger *)

Lemma remove_first_count_other (c x : string) (cols : list string) :
  x <> c -> count_occ string_dec (remove_first c cols) x = count_occ string_dec cols x.
Proof.
  intros D. induction cols as [|y t IH]; simpl; [reflexivity|].
  destruct (String.eqb y c) eqn:E.
  - apply String.eqb_eq in E. subst y.
    destruct (string_dec c x); [congruence | reflexivity].
  - simpl. destruct (string_dec y x); rewrite IH; reflexivity.
Qed.

Lemma remove_first_perm (c : string) (cols : list string) :
  In c cols -> Permutation (c :: remove_first c cols) cols.
Proof.
  induction cols as [|y t IH]; simpl; [tauto|].
  intros H. destruct (String.eqb y c) eqn:E.
  - apply String.eqb_eq in E. now subst.
  - apply String.eqb_neq in E. destruct H as [->|H]; [congruence|].
    rewrite perm_swap. constructor. auto.
Qed.

Lemma remove_first_In_other (c x : string) (cols : list string) :
  x <> c -> In x cols -> In x (remove_first c cols).
Proof.
  intros D. induction cols as [|y t IH]; simpl; [tauto|].
  destruct (String.eqb y c) eqn:E.
  - apply String.eqb_eq in E. subst y. intros [->|H]; [congruence | auto].
  - simpl. intuition.
Qed.

Lemma strip_columns_count_other (names cols : list string) (x : string) :
  ~ In x names ->
  count_occ string_dec (strip_columns names cols) x = count_occ string_dec cols x.
Proof.
  unfold strip_columns. revert cols.
  induction names as [|n ns IH]; simpl; intros cols H; [reflexivity|].
  rewrite IH by tauto. apply remove_first_count_other. intuition.
Qed.

Lemma strip_columns_In_other (names cols : list string) (x : string) :
  ~ In x names -> In x cols -> In x (strip_columns names cols).
Proof.
  unfold strip_columns. revert cols.
  induction names as [|n ns IH]; simpl; intros cols H Hx; [assumption|].
  apply IH; [tauto|]. apply remove_first_In_other; intuition.
Qed.

(** When every stripped column is there, stripping takes out exactly one
    copy of each. *)
Lemma strip_columns_perm (names cols : list string) :
  NoDup names -> (forall n, In n names -> In n cols) ->
  Permutation (names ++ strip_columns names cols) cols.
Proof.
  unfold strip_columns. revert cols.
  induction names as [|n ns IH]; simpl; intros cols ND H; [reflexivity|].
  inversion ND as [|? ? Hn ND']; subst.
  apply Permutation_trans with (n :: remove_first n cols);
    [|apply remove_first_perm; auto].
  constructor. apply IH; [assumption|].
  intros m Hm. apply remove_first_In_other; [|auto].
  intros ->. contradiction.
Qed.

Lemma list_index_split (c : string) (cols : list string) (i : nat) :
  list_index c cols = Some i ->
  exists before after,
    cols = before ++ c :: after /\ ~ In c before /\ List.length before = i.
Proof.
  revert i. induction cols as [|x t IH]; simpl; intros i H; [discriminate|].
  destruct (String.eqb x c) eqn:E.
  - apply String.eqb_eq in E. subst x. injection H as <-.
    exists [], t. simpl. tauto.
  - apply String.eqb_neq in E.
    destruct (list_index c t) as [j|]; [|discriminate]. injection H as <-.
    destruct (IH j eq_refl) as (b & a & -> & Hb & Hl).
    exists (x :: b), a. simpl. repeat split; [intuition | congruence].
Qed.

Lemma list_index_In (c : string) (cols : list string) :
  In c cols -> exists i, list_index c cols = Some i.
Proof.
  induction cols as [|x t IH]; simpl; [tauto|].
  intros H. destruct (String.eqb x c) eqn:E; [eauto|].
  apply String.eqb_neq in E. destruct H as [->|H]; [congruence|].
  destruct (IH H) as [i ->]. simpl. eauto.
Qed.

Lemma firstn_length_app {A} (l1 l2 : list A) : firstn (List.length l1) (l1 ++ l2) = l1.
Proof. induction l1; simpl; congruence. Qed.

Lemma skipn_length_app {A} (l1 l2 : list A) : skipn (List.length l1) (l1 ++ l2) = l2.
Proof. induction l1; simpl; congruence. Qed.

(** What [arrange] returns: the stripped list with the inserted columns
    spliced in right after the first ["Title"]. *)
Lemma arrange_Ok (t : template) (cols cols' : list string) :
  arrange t cols = Ok cols' ->
  exists before after,
    strip_columns (to_strip t) cols = before ++ "Title" :: after /\
    ~ In "Title" before /\
    cols' = before ++ "Title" :: to_insert t ++ after.
Proof.
  unfold arrange. destruct (list_index _ _) as [i|] eqn:E; [|discriminate].
  intros H. injection H as <-.
  destruct (list_index_split _ _ _ E) as (b & a & Hs & Hb & Hl).
  exists b, a. repeat split; auto.
  rewrite Hs. replace (i + 1) with (List.length (b ++ ["Title"]))
    by (rewrite length_app; simpl; lia).
  replace (b ++ "Title" :: a) with ((b ++ ["Title"]) ++ a)
    by (rewrite <- app_assoc; reflexivity).
  rewrite firstn_length_app, skipn_length_app.
  repeat rewrite <- app_assoc. reflexivity.
Qed.

Lemma arrange_perm (t : template) (cols cols' : list string) :
  arrange t cols = Ok cols' ->
  Permutation cols' (to_insert t ++ strip_columns (to_strip t) cols).
Proof.
  intros H. destruct (arrange_Ok _ _ _ H) as (b & a & Hs & _ & ->). rewrite Hs.
  apply Permutation_trans with ("Title" :: b ++ to_insert t ++ a).
  { apply Permutation_sym, Permutation_middle. }
  apply Permutation_trans with ("Title" :: to_insert t ++ b ++ a).
  { constructor. apply Permutation_app_swap_app. }
  replace (to_insert t ++ b ++ "Title" :: a) with ((to_insert t ++ b) ++ "Title" :: a)
    by (rewrite <- app_assoc; reflexivity).
  replace (to_insert t ++ b ++ a) with ((to_insert t ++ b) ++ a)
    by (rewrite <- app_assoc; reflexivity).
  apply Permutation_middle.
Qed.

Lemma arrange_keeps_unnamed (t : template) (cols cols' : list string) (col : string) :
  arrange t cols = Ok cols' -> ~ In col (to_strip t) -> ~ In col (to_insert t) ->
  count_occ string_dec cols' col = count_occ string_dec cols col.
Proof.
  intros H Hs Hi.
  rewrite (proj1 (Permutation_count_occ string_dec _ _) (arrange_perm _ _ _ H) col).
  rewrite count_occ_app, strip_columns_count_other by assumption.
  apply (count_occ_not_In string_dec) in Hi. rewrite Hi. reflexivity.
Qed.

Lemma select_columns_Ok (df : DataFrame) (cols : list string) :
  (forall c, In c cols -> In c (columns df)) ->
  select_columns df cols = Ok (mkFrame cols (map (reindex cols) (rows df))).
Proof.
  intros H. unfold select_columns.
  replace (filter (fun c => negb (mem c (columns df))) cols) with (@nil string); [reflexivity|].
  symmetry. induction cols as [|x t IH]; simpl; [reflexivity|].
  replace (mem x (columns df)) with true by (symmetry; apply mem_In, H; simpl; auto).
  simpl. apply IH. intros c Hc. apply H. simpl; auto.
Qed.

Lemma select_columns_inv (df view : DataFrame) (cols : list string) :
  select_columns df cols = Ok view ->
  view = mkFrame cols (map (reindex cols) (rows df)).
Proof.
  unfold select_columns. destruct (filter _ cols); [|discriminate].
  intros H. now injection H as <-.
Qed.

Lemma inserted_is_stripped (t : template) :
  t = mpo_first \/ t = docking_first ->
  NoDup (to_strip t) /\ Permutation (to_insert t) (to_strip t) /\ ~ In "Title" (to_strip t).
Proof.
  intros [->| ->]; simpl; (split; [|split]).
  - repeat (constructor; [simpl; intuition discriminate|]). constructor.
  - do 2 constructor.
    apply (Permutation_cons_app ["Avg_norm_docking"; "Delta_norm_docking"]
             ["norm_docking_score"]); reflexivity.
  - intuition discriminate.
  - repeat (constructor; [simpl; intuition discriminate|]). constructor.
  - apply (Permutation_cons_app ["Avg_MPO"; "Delta_MPO"; "MPO_score"]
             ["Delta_norm_docking"; "norm_docking_score"; "docking score"]).
    apply (Permutation_cons_app ["Avg_MPO"; "Delta_MPO"; "MPO_score"]
             ["norm_docking_score"; "docking score"]).
    apply (Permutation_cons_app ["Avg_MPO"; "Delta_MPO"; "MPO_score"] ["docking score"]).
    apply (Permutation_cons_app ["Avg_MPO"; "Delta_MPO"; "MPO_score"] []).
    reflexivity.
  - intuition discriminate.
Qed.

(** The arranger and the column selection go through on a table that has the
    identifier and the columns of the template. *)
Lemma arrange_select_total (t : template) (processed_df : DataFrame) :
  t = mpo_first \/ t = docking_first ->
  In "Title" (columns processed_df) ->
  (forall col, In col (to_insert t) -> In col (columns processed_df)) ->
  exists cols,
    arrange t (columns processed_df) = Ok cols /\
    Permutation cols (columns processed_df) /\
    select_columns processed_df cols
    = Ok (mkFrame cols (map (reindex cols) (rows processed_df))).
Proof.
  intros Ht HT Hins.
  destruct (inserted_is_stripped t Ht) as (ND & PI & NT).
  assert (HTs : In "Title" (strip_columns (to_strip t) (columns processed_df)))
    by (apply strip_columns_In_other; assumption).
  destruct (list_index_In _ _ HTs) as [i Hi].
  assert (A : exists cols, arrange t (columns processed_df) = Ok cols)
    by (unfold arrange; rewrite Hi; eauto).
  destruct A as [cols A]. exists cols.
  assert (P : Permutation cols (columns processed_df)).
  { apply Permutation_trans with (to_insert t ++ strip_columns (to_strip t) (columns processed_df)).
    - now apply arrange_perm.
    - apply Permutation_trans with (to_strip t ++ strip_columns (to_strip t) (columns processed_df)).
      + now apply Permutation_app_tail.
      + apply strip_columns_perm; [assumption|].
        intros n Hn. apply Hins. apply Permutation_in with (to_strip t); [|assumption].
        now apply Permutation_sym. }
  repeat split; try assumption.
  apply select_columns_Ok. intros c Hc. apply Permutation_in with cols; assumption.
Qed.

(** ** Columns read as numbers, masks, thresholds *)

Lemma numbers_Ok (cells : list cell) (fs : list spec_float) :
  numbers cells = Ok fs <-> cells = map Num fs.
Proof.
  revert fs. induction cells as [|c t IH]; simpl; intros fs.
  - split; intros H.
    + injection H as <-. reflexivity.
    + destruct fs; [reflexivity | discriminate].
  - destruct c as [f|s]; simpl.
    + destruct (numbers t) as [fs'|e] eqn:E; simpl.
      * split; intros H.
        -- injection H as <-. simpl. f_equal. now apply IH.
        -- destruct fs as [|f' fs'']; [discriminate|]. simpl in H.
           injection H as -> H. apply IH in H. congruence.
      * split; intros H; [discriminate|].
        destruct fs as [|f' fs'']; [discriminate|]. simpl in H.
        injection H as -> H. apply IH in H. congruence.
    + split; intros H; [discriminate|].
      destruct fs; discriminate.
Qed.

Lemma float_column_Ok (df : DataFrame) (c : string) (fs : list spec_float) :
  float_column df c = Ok fs <->
  In c (columns df) /\ map (fun r => cell_at r c) (rows df) = map Num fs.
Proof.
  unfold float_column, column. destruct (mem c (columns df)) eqn:E; simpl.
  - apply mem_In in E. rewrite numbers_Ok. tauto.
  - apply mem_false in E. split; [discriminate | tauto].
Qed.

Lemma float_column_total (df : DataFrame) (c : string) :
  In c (columns df) -> Forall (numeric_at c) (rows df) ->
  exists fs, float_column df c = Ok fs.
Proof.
  intros Hc H.
  assert (E : exists fs, map (fun r => cell_at r c) (rows df) = map Num fs).
  { induction H as [|r t [f Hf] _ [fs IH]].
    - exists []. reflexivity.
    - exists (f :: fs). simpl. congruence. }
  destruct E as [fs E]. exists fs. apply float_column_Ok. auto.
Qed.

Lemma float_column_keys (df : DataFrame) (by_ : string) (k : list spec_float) :
  float_column df by_ = Ok k -> map (key_of by_) (rows df) = k.
Proof.
  intros H. apply float_column_Ok in H. destruct H as [_ H].
  revert k H. induction (rows df) as [|r t IH]; intros k H.
  - destruct k; [reflexivity | discriminate].
  - destruct k as [|f k]; [discriminate|]. simpl in H. injection H as Hr Ht.
    simpl. unfold key_of at 1. rewrite Hr. f_equal. now apply IH.
Qed.

Lemma mask_rows_map (p : Series -> bool) (l : list Series) :
  mask_rows l (map p l) = filter p l.
Proof.
  unfold mask_rows. induction l as [|r t IH]; simpl; [reflexivity|].
  destruct (p r); simpl; now rewrite IH.
Qed.

Lemma mask_rows_incl (l : list Series) (mask : list bool) : incl (mask_rows l mask) l.
Proof.
  unfold mask_rows. intros r H. apply in_map_iff in H.
  destruct H as [[r' b] [E H]]. simpl in E. subst r'.
  apply filter_In in H. destruct H as [H _]. eapply in_combine_l; eassumption.
Qed.

Lemma better_than_Ok (processed_df better : DataFrame) (t1 t2 : spec_float) :
  better_than processed_df t1 t2 = Ok better ->
  better = mkFrame (columns processed_df) (filter (exceeds t1 t2) (rows processed_df)).
Proof.
  unfold better_than. intros H.
  apply rbind_Ok in H. destruct H as [m [Hm H]].
  apply rbind_Ok in H. destruct H as [d [Hd H]].
  injection H as <-. f_equal.
  apply float_column_Ok in Hm, Hd. destruct Hm as [_ Hm], Hd as [_ Hd].
  rewrite <- mask_rows_map. f_equal.
  revert m d Hm Hd. induction (rows processed_df) as [|r t IH]; intros m d Hm Hd.
  - destruct m; [reflexivity | discriminate].
  - destruct m as [|a m]; [discriminate|]. destruct d as [|b d]; [discriminate|].
    cbn [map combine] in *. injection Hm as Ha Hm. injection Hd as Hb Hd.
    f_equal; [|now apply IH].
    unfold exceeds. rewrite Ha, Hb. reflexivity.
Qed.

Lemma better_than_numeric (processed_df : DataFrame) (t1 t2 : spec_float)
    (m d : list spec_float) :
  float_column processed_df "Avg_MPO" = Ok m ->
  float_column processed_df "Avg_norm_docking" = Ok d ->
  better_than processed_df t1 t2
  = Ok (mkFrame (columns processed_df) (filter (exceeds t1 t2) (rows processed_df))).
Proof.
  intros Hm Hd.
  destruct (better_than processed_df t1 t2) as [b|e] eqn:E.
  - now rewrite (better_than_Ok _ _ _ _ E).
  - unfold better_than in E. rewrite Hm, Hd in E. discriminate.
Qed.

Lemma iloc0_dropna (c : string) (l : list Series) (fs : list spec_float) (v : spec_float) :
  map (fun r => cell_at r c) l = map Num fs ->
  iloc0 (dropna fs) = Ok v <-> exists r, first_present c l r v.
Proof.
  revert fs. induction l as [|r t IH]; intros fs H.
  - destruct fs; [|discriminate]. simpl. split; [discriminate|].
    intros (r & b & a & E & _). destruct b; discriminate.
  - destruct fs as [|f fs]; [discriminate|]. simpl in H. injection H as Hr Ht.
    simpl. destruct (F64.is_nan f) eqn:N; simpl.
    + rewrite (IH fs Ht). split.
      * intros (r' & b & a & E & Fb & V & P). exists r', (r :: b), a.
        repeat split; auto; [now rewrite E|].
        constructor; [|assumption]. now rewrite Hr.
      * intros (r' & b & a & E & Fb & V & P). destruct b as [|x b]; simpl in E.
        -- injection E as <- _. rewrite Hr in V. injection V as <-. congruence.
        -- injection E as <- E. inversion Fb; subst. exists r', b, a. auto.
    + split.
      * intros E. injection E as <-. exists r, [], t. repeat split; auto.
      * intros (r' & b & a & E & Fb & V & P). destruct b as [|x b]; simpl in E.
        -- injection E as <- _. rewrite Hr in V. injection V as <-. reflexivity.
        -- injection E as <- E. inversion Fb as [|? ? Hx]; subst.
           rewrite Hr in Hx. simpl in Hx. congruence.
Qed.

Lemma dropna_all_missing (c : string) (l : list Series) (fs : list spec_float) :
  map (fun r => cell_at r c) l = map Num fs ->
  Forall (fun r => isna (cell_at r c) = true) l ->
  dropna fs = [].
Proof.
  revert fs. induction l as [|r t IH]; intros fs H F.
  - destruct fs; [reflexivity | discriminate].
  - destruct fs as [|f fs]; [discriminate|]. simpl in H. injection H as Hr Ht.
    inversion F as [|? ? Fr Ft]; subst. rewrite Hr in Fr. simpl in Fr.
    simpl. rewrite Fr. simpl. now apply IH.
Qed.

Lemma thresholds_nonempty (selection : DataFrame) (t : spec_float * spec_float) :
  thresholds selection = Ok t -> rows selection <> [].
Proof.
  unfold thresholds. intros H.
  apply rbind_Ok in H. destruct H as [m [Hm H]].
  apply rbind_Ok in H. destruct H as [a [Ha _]].
  apply float_column_Ok in Hm. destruct Hm as [_ Hm].
  intros E. rewrite E in Hm. destruct m; [discriminate Ha | discriminate Hm].
Qed.

(** ** The ranker *)

Lemma nodupb_NoDup (l : list nat) : nodupb l = true -> NoDup l.
Proof.
  induction l as [|x t IH]; simpl; intros H; constructor.
  - apply andb_true_iff in H. destruct H as [H _]. apply negb_true_iff in H.
    intros HIn. assert (existsb (Nat.eqb x) t = true); [|congruence].
    apply existsb_exists. exists x. split; [assumption | apply Nat.eqb_refl].
  - apply IH. apply andb_true_iff in H. tauto.
Qed.

Lemma is_argsort_perm (values : list spec_float) (order : list nat) :
  is_argsort values order = true ->
  Permutation order (seq 0 (List.length values)) /\
  ascending (map (fun i => nth i values F64.nan) order) = true.
Proof.
  unfold is_argsort. intros H.
  apply andb_true_iff in H. destruct H as [H Ha].
  apply andb_true_iff in H. destruct H as [H Hn].
  apply andb_true_iff in H. destruct H as [Hl Hf].
  split; [|assumption].
  apply Nat.eqb_eq in Hl.
  apply NoDup_Permutation_bis.
  - now apply nodupb_NoDup.
  - rewrite length_seq. lia.
  - intros i Hi. rewrite forallb_forall in Hf. apply Hf in Hi.
    apply Nat.ltb_lt in Hi. apply in_seq. lia.
Qed.

Lemma chain_app {A} (R : A -> A -> bool) (l1 l2 : list A) (x : A) :
  chain R (l1 ++ x :: l2) = chain R (l1 ++ [x]) && chain R (x :: l2).
Proof.
  induction l1 as [|a t IH]; simpl.
  - reflexivity.
  - destruct t as [|b t']; simpl in *.
    + destruct l2; simpl; now rewrite ?andb_true_r.
    + rewrite IH. now rewrite andb_assoc.
Qed.

Lemma chain_rev {A} (R : A -> A -> bool) (l : list A) :
  chain R (rev l) = chain (fun a b => R b a) l.
Proof.
  induction l as [|a t IH]; [reflexivity|].
  destruct t as [|b t']; [reflexivity|].
  change (rev (a :: b :: t')) with (rev (b :: t') ++ [a]).
  change (rev (b :: t')) with (rev t' ++ [b]) at 1.
  rewrite <- app_assoc. simpl ((_ ++ _) ++ _). simpl ([b] ++ [a]).
  rewrite chain_app. change (rev t' ++ [b]) with (rev (b :: t')).
  rewrite IH. simpl. rewrite andb_true_r. apply andb_comm.
Qed.

Lemma chain_weaken {A} (R S : A -> A -> bool) (P : A -> Prop) (l : list A) :
  (forall a b, P a -> P b -> R a b = true -> S a b = true) ->
  Forall P l -> chain R l = true -> chain S l = true.
Proof.
  intros W. induction l as [|a t IH]; [reflexivity|].
  intros F H. destruct t as [|b t']; [reflexivity|].
  inversion F as [|? ? Pa Ft]; subst. inversion Ft as [|? ? Pb _]; subst.
  simpl in *. apply andb_true_iff in H. destruct H as [H1 H2].
  rewrite (W a b Pa Pb H1). simpl. now apply IH.
Qed.

(** The ascending answer, read backwards, is descending. *)
Lemma ascending_rev_descending (l : list spec_float) :
  Forall (fun f => F64.is_nan f = false) l ->
  ascending l = true -> descending (rev l) = true.
Proof.
  intros F H. unfold descending. rewrite chain_rev.
  apply (chain_weaken (fun a b => negb (F64.ltb b a)) _
           (fun f => F64.is_nan f = false) l); [|assumption|assumption].
  intros a b Na Nb E. apply negb_true_iff in E. now apply not_ltb_leb.
Qed.

Lemma filter_combine_snd {B} (q : B -> bool) (s : nat) (vs : list B) :
  map snd (filter (fun p => q (snd p)) (combine (seq s (List.length vs)) vs)) = filter q vs.
Proof.
  revert s. induction vs as [|v t IH]; intros s; simpl; [reflexivity|].
  destruct (q v); simpl; now rewrite IH.
Qed.

Lemma positions_in_range {B} (q : B -> bool) (s : nat) (vs : list B) (i : nat) :
  In i (map fst (filter (fun p => q (snd p)) (combine (seq s (List.length vs)) vs))) ->
  s <= i < s + List.length vs.
Proof.
  intros H. apply in_map_iff in H. destruct H as [[j v] [E H]]. simpl in E. subst j.
  apply filter_In in H. destruct H as [H _]. apply in_combine_l in H.
  now apply in_seq in H.
Qed.

Lemma nth_error_middle {A} (pre l : list A) (x : A) :
  nth_error (pre ++ x :: l) (List.length pre) = Some x.
Proof. induction pre; simpl; auto. Qed.

Lemma nth_middle_default {A} (pre l : list A) (x d : A) :
  nth (List.length pre) (pre ++ x :: l) d = x.
Proof. induction pre; simpl; auto. Qed.

(** Taking the rows at the positions where the key passes a test gives the
    rows that pass it, in their order. *)
Lemma take_positions (q : spec_float -> bool) (key : Series -> spec_float)
    (pre l : list Series) :
  take (pre ++ l)
       (map fst (filter (fun p => q (snd p))
                        (combine (seq (List.length pre) (List.length (map key l))) (map key l))))
  = filter (fun r => q (key r)) l.
Proof.
  revert pre. induction l as [|r t IH]; intros pre; simpl; [reflexivity|].
  assert (E : pre ++ r :: t = (pre ++ [r]) ++ t) by (rewrite <- app_assoc; reflexivity).
  assert (L : S (List.length pre) = List.length (pre ++ [r]))
    by (rewrite length_app; simpl; lia).
  destruct (q (key r)); simpl.
  - rewrite nth_error_middle. simpl. f_equal.
    rewrite E, L. apply IH.
  - rewrite E, L. apply IH.
Qed.

Lemma nth_positions (q : spec_float -> bool) (pre vs : list spec_float) (d : spec_float) :
  map (fun i => nth i (pre ++ vs) d)
      (map fst (filter (fun p => q (snd p))
                       (combine (seq (List.length pre) (List.length vs)) vs)))
  = filter q vs.
Proof.
  revert pre. induction vs as [|v t IH]; intros pre; simpl; [reflexivity|].
  assert (E : pre ++ v :: t = (pre ++ [v]) ++ t) by (rewrite <- app_assoc; reflexivity).
  assert (L : S (List.length pre) = List.length (pre ++ [v]))
    by (rewrite length_app; simpl; lia).
  destruct (q v); simpl.
  - rewrite nth_middle_default. f_equal. rewrite E, L. apply IH.
  - rewrite E, L. apply IH.
Qed.

Lemma map_nth_seq_from {A} (pre l : list A) (d : A) :
  map (fun k => nth k (pre ++ l) d) (seq (List.length pre) (List.length l)) = l.
Proof.
  revert pre. induction l as [|x t IH]; intros pre; simpl; [reflexivity|].
  rewrite nth_middle_default. f_equal.
  replace (pre ++ x :: t) with ((pre ++ [x]) ++ t) by (rewrite <- app_assoc; reflexivity).
  replace (S (List.length pre)) with (List.length (pre ++ [x]))
    by (rewrite length_app; simpl; lia).
  apply IH.
Qed.

Lemma map_nth_seq {A} (l : list A) (d : A) :
  map (fun k => nth k l d) (seq 0 (List.length l)) = l.
Proof. apply (map_nth_seq_from [] l d). Qed.

Lemma take_app (l : list Series) (i1 i2 : list nat) :
  take l (i1 ++ i2) = take l i1 ++ take l i2.
Proof. unfold take. apply flat_map_app. Qed.

Lemma take_perm (l : list Series) (i1 i2 : list nat) :
  Permutation i1 i2 -> Permutation (take l i1) (take l i2).
Proof. unfold take. apply Permutation_flat_map. Qed.

Lemma map_key_take (key : Series -> spec_float) (l : list Series) (idxs : list nat)
    (d : spec_float) :
  Forall (fun i => i < List.length l) idxs ->
  map key (take l idxs) = map (fun i => nth i (map key l) d) idxs.
Proof.
  induction 1 as [|i t Hi _ IH]; [reflexivity|].
  simpl. destruct (nth_error l i) as [r|] eqn:E.
  - simpl. rewrite IH. f_equal.
    rewrite (nth_indep _ d (key r)) by (rewrite length_map; assumption).
    rewrite map_nth. f_equal. symmetry. now apply nth_error_nth.
  - apply nth_error_None in E. lia.
Qed.

Lemma filter_split_perm {A} (p : A -> bool) (l : list A) :
  Permutation (filter p l ++ filter (fun x => negb (p x)) l) l.
Proof.
  induction l as [|x t IH]; simpl; [constructor|].
  destruct (p x); simpl.
  - now constructor.
  - apply Permutation_sym, Permutation_cons_app. now apply Permutation_sym.
Qed.

Section RankerFacts.
Variable argsort : list spec_float -> list nat.

(** [nargsort_desc] on the keys of a list of rows, when the kernel answers
    with an argsort of the vector it is given. *)
Lemma nargsort_desc_spec (key : Series -> spec_float) (l : list Series) :
  is_argsort (rev (dropna (map key l))) (argsort (rev (dropna (map key l)))) = true ->
  exists top,
    take l (nargsort_desc argsort (map key l))
    = top ++ filter (fun r => F64.is_nan (key r)) l /\
    Permutation top (filter (fun r => negb (F64.is_nan (key r))) l) /\
    descending (map key top) = true.
Proof.
  intros HA. unfold nargsort_desc.
  set (values := map key l) in *.
  set (present := filter (fun p => negb (F64.is_nan (snd p)))
                         (combine (seq 0 (List.length values)) values)).
  set (P := map fst present). set (PV := map snd present).
  assert (EPV : PV = dropna values)
    by (apply (filter_combine_snd (fun f => negb (F64.is_nan f)) 0 values)).
  rewrite EPV.
  set (order := argsort (rev (dropna values))) in *.
  set (M := map (fun k => nth k (rev P) 0) order).
  destruct (is_argsort_perm _ _ HA) as [HP HS].
  assert (LP : List.length (rev (dropna values)) = List.length (rev P)).
  { rewrite <- EPV. unfold P, PV. now rewrite !length_rev, !length_map. }
  assert (PM : Permutation M (rev P)).
  { unfold M.
    apply Permutation_trans
      with (map (fun k => nth k (rev P) 0) (seq 0 (List.length (rev P)))).
    - apply Permutation_map. now rewrite <- LP.
    - now rewrite map_nth_seq. }
  assert (RP : forall i, In i P -> i < List.length l).
  { intros i Hi. apply (positions_in_range (fun f => negb (F64.is_nan f)) 0 values) in Hi.
    unfold values in Hi. rewrite length_map in Hi. lia. }
  assert (KV : map (fun i => nth i values F64.nan) P = dropna values)
    by (apply (nth_positions (fun f => negb (F64.is_nan f)) [] values F64.nan)).
  exists (take l (rev M)). rewrite take_app. split; [|split].
  - f_equal. apply (take_positions F64.is_nan key [] l).
  - apply Permutation_trans with (take l P).
    + apply take_perm. apply Permutation_trans with M; [apply Permutation_sym, Permutation_rev|].
      apply Permutation_trans with (rev P); [assumption | apply Permutation_sym, Permutation_rev].
    + replace (take l P) with (filter (fun r => negb (F64.is_nan (key r))) l);
        [apply Permutation_refl|].
      symmetry. apply (take_positions (fun f => negb (F64.is_nan f)) key [] l).
  - rewrite (map_key_take key l (rev M) F64.nan).
    2:{ apply Forall_forall. intros i Hi. apply RP.
        apply in_rev in Hi. apply (Permutation_in _ PM) in Hi. now apply in_rev in Hi. }
    fold values. rewrite map_rev. unfold M. rewrite map_map.
    assert (EK : map (fun k => nth (nth k (rev P) 0) values F64.nan) order
                 = map (fun k => nth k (rev (dropna values)) F64.nan) order).
    { apply map_ext_in. intros k Hk.
      apply (Permutation_in _ HP) in Hk. apply in_seq in Hk. rewrite LP in Hk.
      rewrite <- KV, <- map_rev.
      rewrite (nth_indep (map _ (rev P)) F64.nan (nth 0 values F64.nan))
        by (rewrite length_map; lia).
      now rewrite (map_nth (fun i => nth i values F64.nan)). }
    rewrite EK. apply ascending_rev_descending; [|assumption].
    apply Forall_forall. intros f Hf. apply in_map_iff in Hf. destruct Hf as [k [<- Hk]].
    apply (Permutation_in _ HP) in Hk. apply in_seq in Hk.
    assert (I : In (nth k (rev (dropna values)) F64.nan) (rev (dropna values)))
      by (apply nth_In; lia).
    apply in_rev in I. unfold dropna in I. apply filter_In in I.
    now apply negb_true_iff.
Qed.

End RankerFacts.

Lemma sort_values_total (argsort : list spec_float -> list nat)
    (df processed_df : DataFrame) (cols : list string) (c : string) :
  aggregate df = Ok processed_df -> In c derived -> In c cols ->
  exists sorted,
    sort_values argsort (mkFrame cols (map (reindex cols) (rows processed_df))) c = Ok sorted.
Proof.
  intros HA Hd Hc.
  destruct (aggregate_derived_numeric _ _ c HA Hd) as [N _].
  destruct (float_column_total (mkFrame cols (map (reindex cols) (rows processed_df))) c)
    as [k Hk].
  - exact Hc.
  - simpl. apply Forall_forall. intros r Hr. apply in_map_iff in Hr.
    destruct Hr as [r0 [<- Hr0]]. rewrite Forall_forall in N.
    destruct (N r0 Hr0) as [f Hf]. exists f. now rewrite cell_at_reindex.
  - unfold sort_values. rewrite Hk. simpl. eauto.
Qed.

(** ** The two stages of the run *)

Section StageFacts.
Variable argsort : list spec_float -> list nat.
Variable re_compile : string -> option (string -> bool).

Lemma select_benchmark_Ok (processed_df selection : DataFrame) (benchmark_name : string) :
  select_benchmark re_compile processed_df benchmark_name = Ok selection ->
  columns selection = columns processed_df /\ incl (rows selection) (rows processed_df).
Proof.
  unfold select_benchmark. intros H.
  apply rbind_Ok in H. destruct H as [titles [_ H]].
  apply rbind_Ok in H. destruct H as [mask [_ H]].
  injection H as <-. simpl. split; [reflexivity | apply mask_rows_incl].
Qed.

(** On a non-empty selection of an aggregated table both average columns
    read as numbers. *)
Lemma selection_numeric (df processed_df selection : DataFrame) (benchmark_name c : string) :
  aggregate df = Ok processed_df ->
  select_benchmark re_compile processed_df benchmark_name = Ok selection ->
  rows selection <> [] -> In c derived ->
  exists fs, float_column selection c = Ok fs.
Proof.
  intros Ha Hs NE Hc.
  destruct (select_benchmark_Ok _ _ _ Hs) as [Ec Hi].
  destruct (aggregate_derived_numeric _ _ c Ha Hc) as [N C].
  apply float_column_total.
  - rewrite Ec. apply C. intros E. destruct (rows selection) as [|r t]; [congruence|].
    specialize (Hi r (or_introl eq_refl)). rewrite E in Hi. destruct Hi.
  - apply Forall_forall. intros r Hr. rewrite Forall_forall in N. auto.
Qed.

(** The first stage, read backwards from its result. *)
Lemma ranked_outputs_Ok (output_dir : string) (df processed_df s1 s2 : DataFrame)
    (tr : list event) :
  ranked_outputs argsort output_dir df = (tr, Ok (processed_df, s1, s2)) ->
  check_schema df = Ok df /\
  aggregate df = Ok processed_df /\
  (exists cols view,
      arrange mpo_first (columns processed_df) = Ok cols /\
      select_columns processed_df cols = Ok view /\
      sort_values argsort view "Avg_MPO" = Ok s1) /\
  (exists cols view,
      arrange docking_first (columns processed_df) = Ok cols /\
      select_columns processed_df cols = Ok view /\
      sort_values argsort view "Avg_norm_docking" = Ok s2) /\
  tr = [to_csv (path_join output_dir "Sorted_by_Avg_MPO.csv") s1;
        to_csv (path_join output_dir "Sorted_by_Avg_normDocking.csv") s2].
Proof.
  unfold ranked_outputs.
  assert (S : forall d, check_schema df = Ok d -> d = df).
  { unfold check_schema. destruct (missing_cols df); intros d H; [congruence | discriminate]. }
  destruct (check_schema df) as [d|e] eqn:E0; simpl; [|discriminate].
  rewrite (S d eq_refl).
  destruct (aggregate df) as [p|e] eqn:E1; simpl; [|discriminate].
  destruct (arrange mpo_first (columns p)) as [c1|e] eqn:E2; simpl; [|discriminate].
  destruct (select_columns p c1) as [v1|e] eqn:E3; simpl; [|discriminate].
  destruct (sort_values argsort v1 "Avg_MPO") as [o1|e] eqn:E4; simpl; [|discriminate].
  destruct (arrange docking_first (columns p)) as [c2|e] eqn:E5; simpl; [|discriminate].
  destruct (select_columns p c2) as [v2|e] eqn:E6; simpl; [|discriminate].
  destruct (sort_values argsort v2 "Avg_norm_docking") as [o2|e] eqn:E7; simpl; [|discriminate].
  intros H. injection H as <- <- <- <-.
  repeat split; eauto.
Qed.

Lemma main_after_ranked (output_dir : string) (df processed_df s1 s2 : DataFrame)
    (tr : list event) (benchmark_input : string) :
  ranked_outputs argsort output_dir df = (tr, Ok (processed_df, s1, s2)) ->
  main argsort re_compile output_dir df benchmark_input
  = let (tr', r) := benchmark_filter re_compile output_dir processed_df s1 s2
                      (lower (strip benchmark_input)) in
    (tr ++ tr', r).
Proof. intros H. unfold main. rewrite H. reflexivity. Qed.

End StageFacts.

Lemma has_number_getitem (r : Series) (c : string) :
  has_number r c = true -> exists f, getitem r c = Ok (Num f).
Proof.
  unfold has_number, getitem. destruct (lookup c (items r)) as [[f|s]|]; try discriminate.
  eauto.
Qed.

Lemma ready_row_complete (r : Series) (a b c d : cell) :
  ready_row r = true -> complete (tag r a b c d).
Proof.
  unfold ready_row. intros H.
  apply andb_true_iff in H. destruct H as [H H4].
  apply andb_true_iff in H. destruct H as [H H3].
  apply andb_true_iff in H. destruct H as [H1 H2].
  apply mem_In in H1, H2.
  apply has_number_getitem in H3, H4. destruct H3 as [f3 H3], H4 as [f4 H4].
  assert (I3 : In "MPO_score" (index r)).
  { apply lookup_In_index. unfold getitem in H3.
    destruct (lookup "MPO_score" (items r)); [eauto | discriminate]. }
  assert (I4 : In "norm_docking_score" (index r)).
  { apply lookup_In_index. unfold getitem in H4.
    destruct (lookup "norm_docking_score" (items r)); [eauto | discriminate]. }
  intros col Hc. apply tag_index. apply in_app_or in Hc. destruct Hc as [Hc|Hc]; [right | now left].
  simpl in Hc. intuition (subst; assumption).
Qed.

Lemma process_group_ready (cols : list string) (g : list Series) :
  ready_group g = true ->
  exists s1 s2, process_group cols g = Ok [Row s1; Row s2] /\ complete s1 /\ complete s2.
Proof.
  destruct g as [|r1 [|r2 [|r3 t]]]; try discriminate. unfold ready_group.
  intros H. apply andb_true_iff in H. destruct H as [R1 R2].
  pose proof R1 as Q1. pose proof R2 as Q2. unfold ready_row in Q1, Q2.
  apply andb_true_iff in Q1. destruct Q1 as [Q1 D1].
  apply andb_true_iff in Q1. destruct Q1 as [_ M1].
  apply andb_true_iff in Q2. destruct Q2 as [Q2 D2].
  apply andb_true_iff in Q2. destruct Q2 as [_ M2].
  apply has_number_getitem in M1, M2, D1, D2.
  destruct M1 as [m1 M1], M2 as [m2 M2], D1 as [d1 D1], D2 as [d2 D2].
  rewrite (process_group_pair cols _ _ _ _ _ _ M1 M2 D1 D2).
  eexists. eexists. split; [reflexivity|].
  split; now apply ready_row_complete.
Qed.

Lemma process_groups_ready (cols : list string) (gs : list (cell * list Series)) :
  forallb (fun kg => ready_group (snd kg)) gs = true ->
  exists l, process_groups cols gs = Ok l /\ existsb is_group l = false /\
            (gs <> [] -> series_of l <> []) /\
            forall s, In s (series_of l) -> complete s.
Proof.
  induction gs as [|[k g] rest IH]; simpl; intros H.
  - exists []. repeat split; auto. intros s [].
  - apply andb_true_iff in H. destruct H as [Hg Hr].
    destruct (process_group_ready cols g Hg) as (s1 & s2 & E & C1 & C2).
    destruct (IH Hr) as (l & El & G & _ & C).
    rewrite E, El. simpl. eexists. split; [reflexivity|]. simpl.
    repeat split; auto; [discriminate|].
    intros s [<-|[<-|Hs]]; auto.
Qed.

Lemma aggregate_ready (df : DataFrame) :
  In "Title" (columns df) -> ready df = true ->
  exists processed_df,
    aggregate df = Ok processed_df /\ rows processed_df <> [] /\
    forall c, In c (required_columns ++ derived) -> In c (columns processed_df).
Proof.
  intros HT. unfold aggregate. rewrite (processed_rows_titled df HT).
  unfold ready. intros H.
  assert (NE : groupby_Title df <> []) by (destruct (groupby_Title df); congruence).
  assert (F : forallb (fun kg => ready_group (snd kg)) (groupby_Title df) = true)
    by (destruct (groupby_Title df); congruence).
  destruct (process_groups_ready (columns df) _ F) as (l & El & G & N & C).
  rewrite El. simpl. unfold DataFrame_of_list. rewrite G.
  eexists. split; [reflexivity|]. simpl. split.
  - specialize (N NE). destruct (series_of l); [congruence | discriminate].
  - intros c Hc. apply In_combined_columns.
    specialize (N NE). destruct (series_of l) as [|s t] eqn:E; [congruence|].
    exists s. split; [now left|]. apply C; [now left | assumption].
Qed.

Lemma ranked_outputs_total (argsort : list spec_float -> list nat)
    (output_dir : string) (df : DataFrame) :
  check_schema df = Ok df -> ready df = true ->
  exists processed_df s1 s2,
    ranked_outputs argsort output_dir df
    = ([to_csv (path_join output_dir "Sorted_by_Avg_MPO.csv") s1;
        to_csv (path_join output_dir "Sorted_by_Avg_normDocking.csv") s2],
       Ok (processed_df, s1, s2)).
Proof.
  intros HS HR.
  assert (HT0 : In "Title" (columns df)) by (apply (check_schema_columns df _ HS); simpl; auto).
  destruct (aggregate_ready df HT0 HR) as (p & HA & _ & HC).
  assert (HT : In "Title" (columns p)) by (apply HC; simpl; auto).
  destruct (arrange_select_total mpo_first p) as (c1 & A1 & P1 & S1);
    [now left | assumption | intros col H; apply HC; simpl in *; intuition |].
  destruct (arrange_select_total docking_first p) as (c2 & A2 & P2 & S2);
    [now right | assumption | intros col H; apply HC; simpl in *; intuition |].
  destruct (sort_values_total argsort df p c1 "Avg_MPO" HA) as [s1 E1];
    [simpl; auto | apply Permutation_in with (columns p);
                   [now apply Permutation_sym | apply HC; simpl; auto 10] |].
  destruct (sort_values_total argsort df p c2 "Avg_norm_docking" HA) as [s2 E2];
    [simpl; auto | apply Permutation_in with (columns p);
                   [now apply Permutation_sym | apply HC; simpl; auto 10] |].
  exists p, s1, s2. unfold ranked_outputs.
  rewrite HS. simpl. rewrite HA. simpl. rewrite A1. simpl. rewrite S1. simpl.
  rewrite E1. simpl. rewrite A2. simpl. rewrite S2. simpl. rewrite E2. reflexivity.
Qed.

Lemma first_stage (argsort : list spec_float -> list nat) (output_dir : string)
    (df processed_df : DataFrame) :
  check_schema df = Ok df -> ready df = true -> aggregate df = Ok processed_df ->
  exists s1 s2,
    ranked_files argsort processed_df s1 s2 /\
    ranked_outputs argsort output_dir df
    = ([to_csv (path_join output_dir "Sorted_by_Avg_MPO.csv") s1;
        to_csv (path_join output_dir "Sorted_by_Avg_normDocking.csv") s2],
       Ok (processed_df, s1, s2)).
Proof.
  intros HS HR HA.
  destruct (ranked_outputs_total argsort output_dir df HS HR) as (p & s1 & s2 & E).
  destruct (ranked_outputs_Ok _ _ _ _ _ _ _ E) as (_ & HA' & F1 & F2 & _).
  assert (p = processed_df) by congruence. subst p.
  exists s1, s2. split; [split; assumption | assumption].
Qed.

(** * The properties *)

(** ** Runs of the examples *)

Example aggregate_two_pairs : aggregate two_pairs = Ok two_pairs_aggregated.
Proof. reflexivity. Qed.

Example aggregate_two_matches : aggregate two_matches = Ok two_matches_aggregated.
Proof. reflexivity. Qed.

Example aggregate_two_groups : aggregate two_groups = Ok two_groups_aggregated.
Proof. reflexivity. Qed.

Example aggregate_unset_pair : aggregate unset_pair = Ok unset_pair_aggregated.
Proof. reflexivity. Qed.

Example select_two_matches :
  select_benchmark Re.compile two_matches_aggregated "x" = Ok two_matches_aggregated.
Proof. reflexivity. Qed.

(** The query A on the two pairs: the two ranked files, the filtered file, and
    the seven lines of the summary. *)
Example run_on_two_pairs :
  snd (main Npy.argsort Re.compile "out" two_pairs " A ") = Ok tt /\
  wrote "out/Sorted_by_Avg_MPO.csv" (fst (main Npy.argsort Re.compile "out" two_pairs " A ")) = true /\
  wrote "out/Sorted_by_Avg_normDocking.csv"
        (fst (main Npy.argsort Re.compile "out" two_pairs " A ")) = true /\
  wrote "out/Above_a_Compounds.csv" (fst (main Npy.argsort Re.compile "out" two_pairs " A ")) = true /\
  List.length (fst (main Npy.argsort Re.compile "out" two_pairs " A ")) = 10.
Proof. repeat split; vm_compute; reflexivity. Qed.

Example schema_check_on_no_scores :
  main Npy.argsort Re.compile "out" no_scores "a"
  = ([], Raise (ValueError "Missing required columns: ['MPO_score', 'norm_docking_score']")).
Proof. reflexivity. Qed.

(** ** C1: the filter against the benchmark *)

(** C1 as stated fails: the query [a] selects the four rows of [two_groups],
    the thresholds come from A1, and the rows of A2, which are rows of the
    selection, pass the filter. *)
Lemma selected_rows_can_pass_the_filter :
  exists selection t1 t2 better r,
    select_benchmark Re.compile two_groups_aggregated "a" = Ok selection /\
    thresholds selection = Ok (t1, t2) /\
    better_than two_groups_aggregated t1 t2 = Ok better /\
    In r (rows selection) /\ In r (rows better).
Proof.
  exists two_groups_aggregated, q2, q2.
  exists (mkFrame (columns two_groups_aggregated) (skipn 2 (rows two_groups_aggregated))).
  exists (nth 2 (rows two_groups_aggregated) x1).
  split; [reflexivity|]. split; [reflexivity|]. split; [reflexivity|].
  split; simpl; auto.
Qed.

(** C1, amended.  On the aggregated table of a table of numeric pairs, with
    the thresholds [(t1, t2)] of the selection: the filtered subset exists and
    holds exactly the rows of the table whose [Avg_MPO] is greater than [t1]
    and whose [Avg_norm_docking] is greater than [t2], both strictly; a row
    whose [Avg_MPO] is [t1] or whose [Avg_norm_docking] is [t2] is not in it,
    so the selected rows that supply the thresholds are not; and the table
    written is the subset followed by the whole selection. *)
Theorem filter_is_strict_and_excludes_threshold_rows
    (re_compile : string -> option (string -> bool))
    (df processed_df selection : DataFrame) (benchmark_name : string) (t1 t2 : spec_float) :
  ready df = true ->
  aggregate df = Ok processed_df ->
  select_benchmark re_compile processed_df benchmark_name = Ok selection ->
  thresholds selection = Ok (t1, t2) ->
  exists better out,
    better_than processed_df t1 t2 = Ok better /\
    final_output better selection = Ok out /\
    rows out = map (reindex (columns out)) (renumber (rows better ++ rows selection)) /\
    (forall r, In r (rows better) <->
               In r (rows processed_df) /\
               exists a b, cell_at r "Avg_MPO" = Num a /\ cell_at r "Avg_norm_docking" = Num b /\
                           F64.gtb a t1 = true /\ F64.gtb b t2 = true) /\
    (forall r, cell_at r "Avg_MPO" = Num t1 \/ cell_at r "Avg_norm_docking" = Num t2 ->
               ~ In r (rows better)) /\
    (exists r1 r2,
        first_present "Avg_MPO" (rows selection) r1 t1 /\
        first_present "Avg_norm_docking" (rows selection) r2 t2 /\
        In r1 (rows selection) /\ In r2 (rows selection) /\
        ~ In r1 (rows better) /\ ~ In r2 (rows better)).
Proof.
  intros HR HA HS HT.
  destruct (aggregate_ready df (aggregate_Ok_titled _ _ HA) HR) as (p & HA' & _ & HC).
  assert (p = processed_df) by congruence. subst p. clear HA'.
  pose proof (thresholds_nonempty _ _ HT) as NE.
  destruct (select_benchmark_Ok _ _ _ _ HS) as [EC HI].
  destruct (aggregate_derived_numeric _ _ "Avg_MPO" HA) as [NM _]; [simpl; tauto|].
  destruct (aggregate_derived_numeric _ _ "Avg_norm_docking" HA) as [ND _]; [simpl; tauto|].
  destruct (float_column_total processed_df "Avg_MPO") as [m Hm];
    [apply HC; simpl; auto 10 | assumption |].
  destruct (float_column_total processed_df "Avg_norm_docking") as [d Hd];
    [apply HC; simpl; auto 10 | assumption |].
  pose proof (better_than_numeric processed_df t1 t2 m d Hm Hd) as HB.
  set (better := mkFrame (columns processed_df) (filter (exceeds t1 t2) (rows processed_df))) in *.
  assert (HO : final_output better selection
               = Ok (mkFrame (key_cols ++ filter (fun col => negb (mem col key_cols)) (columns processed_df))
                       (map (reindex (key_cols ++ filter (fun col => negb (mem col key_cols))
                                                         (columns processed_df)))
                            (renumber (rows better ++ rows selection))))).
  { unfold final_output. simpl columns. apply select_columns_Ok. simpl columns.
    intros c Hc. apply in_app_or in Hc. destruct Hc as [Hc|Hc].
    - apply HC. simpl in Hc. simpl. intuition.
    - apply filter_In in Hc. tauto. }
  exists better. eexists. split; [exact HB|]. split; [exact HO|]. split; [reflexivity|].
  assert (A : forall r, In r (rows better) <->
             In r (rows processed_df) /\
             exists a b, cell_at r "Avg_MPO" = Num a /\ cell_at r "Avg_norm_docking" = Num b /\
                         F64.gtb a t1 = true /\ F64.gtb b t2 = true).
  { intros r. unfold better. simpl. rewrite filter_In. unfold exceeds. split.
    - intros [I E]. split; [assumption|].
      destruct (cell_at r "Avg_MPO") as [a|]; [|discriminate].
      destruct (cell_at r "Avg_norm_docking") as [b|]; [|discriminate].
      apply andb_true_iff in E. exists a, b. tauto.
    - intros [I (a & b & -> & -> & Ga & Gb)]. split; [assumption|].
      now rewrite Ga, Gb. }
  assert (B : forall r, cell_at r "Avg_MPO" = Num t1 \/ cell_at r "Avg_norm_docking" = Num t2 ->
                        ~ In r (rows better)).
  { intros r H HIn. apply A in HIn. destruct HIn as [_ (a & b & Ea & Eb & Ga & Gb)].
    destruct H as [H|H].
    - rewrite H in Ea. injection Ea as <-. rewrite gtb_self in Ga. discriminate.
    - rewrite H in Eb. injection Eb as <-. rewrite gtb_self in Gb. discriminate. }
  split; [exact A|]. split; [exact B|].
  unfold thresholds in HT.
  apply rbind_Ok in HT. destruct HT as [sm [Hsm HT]].
  apply rbind_Ok in HT. destruct HT as [a [Ha HT]].
  apply rbind_Ok in HT. destruct HT as [sd [Hsd HT]].
  apply rbind_Ok in HT. destruct HT as [b [Hb HT]].
  injection HT as -> ->.
  apply float_column_Ok in Hsm, Hsd. destruct Hsm as [_ Hsm], Hsd as [_ Hsd].
  apply (iloc0_dropna "Avg_MPO" _ _ t1 Hsm) in Ha.
  apply (iloc0_dropna "Avg_norm_docking" _ _ t2 Hsd) in Hb.
  destruct Ha as [r1 F1], Hb as [r2 F2]. exists r1, r2.
  pose proof F1 as (b1 & a1' & E1 & _ & V1 & _).
  pose proof F2 as (b2' & a2' & E2 & _ & V2 & _).
  repeat split; auto.
  - rewrite E1. apply in_elt.
  - rewrite E2. apply in_elt.
Qed.

Lemma filter_is_strict_and_excludes_threshold_rows_witness :
  exists better out,
    better_than two_groups_aggregated q2 q2 = Ok better /\
    final_output better two_groups_aggregated = Ok out /\
    rows out
    = map (reindex (columns out)) (renumber (rows better ++ rows two_groups_aggregated)) /\
    exists r1 r2,
      first_present "Avg_MPO" (rows two_groups_aggregated) r1 q2 /\
      first_present "Avg_norm_docking" (rows two_groups_aggregated) r2 q2 /\
      In r1 (rows two_groups_aggregated) /\ In r2 (rows two_groups_aggregated) /\
      ~ In r1 (rows better) /\ ~ In r2 (rows better).
Proof.
  destruct (filter_is_strict_and_excludes_threshold_rows Re.compile two_groups
              two_groups_aggregated two_groups_aggregated "a" q2 q2)
    as (better & out & A & B & C & _ & _ & D).
  - vm_compute. reflexivity.
  - reflexivity.
  - reflexivity.
  - reflexivity.
  - exists better, out. auto.
Defined.

(** ** C2: the ranker *)

(** C2 as stated fails: the two rows of E have the same [Avg_MPO], row 8
    comes before row 9 in the table, and the file sorted by [Avg_MPO] has them
    in the other order. *)
Lemma quicksort_reorders_a_tied_pair :
  nth_error (fst (main Npy.argsort Re.compile "out" nine_pairs "e")) 0
  = Some (to_csv "out/Sorted_by_Avg_MPO.csv" nine_pairs_sorted) /\
  sort_values Npy.argsort nine_pairs_view "Avg_MPO" = Ok nine_pairs_sorted /\
  map name (rows nine_pairs_view) = seq 0 18 /\
  map name (rows nine_pairs_sorted)
  = [0; 1; 2; 3; 4; 5; 6; 7; 9; 8; 10; 11; 12; 13; 14; 15; 16; 17] /\
  map (fun r => F64.eqb (key_of "Avg_MPO" r) (F64.of_Z2 5 (-4)))
      (firstn 2 (skipn 8 (rows nine_pairs_view))) = [true; true].
Proof. repeat split; vm_compute; reflexivity. Qed.

(** C2, amended.  [sort_values(by, ascending=False)] on a table whose key
    column reads as numbers [k], when the kernel answers with an argsort of
    the vector it is handed (the present keys, reversed): the result is a new
    table with the same columns; its rows are the rows with a present key, in
    an order in which every key is at least the next one, followed by the rows
    with an unset key in their input order; no row is lost or added.  The
    table handed to the benchmark stage is the aggregated one, whatever the
    two sorts did.  Nothing is promised on the relative order of rows with
    equal present keys. *)
Theorem ranker_sorts_descending_unset_last
    (argsort : list spec_float -> list nat) (df : DataFrame) (by_ : string)
    (k : list spec_float) :
  float_column df by_ = Ok k ->
  is_argsort (rev (dropna k)) (argsort (rev (dropna k))) = true ->
  (exists top,
      sort_values argsort df by_
      = Ok (mkFrame (columns df)
                    (top ++ filter (fun r => F64.is_nan (key_of by_ r)) (rows df))) /\
      Permutation top (filter (fun r => negb (F64.is_nan (key_of by_ r))) (rows df)) /\
      descending (map (key_of by_) top) = true /\
      Permutation (top ++ filter (fun r => F64.is_nan (key_of by_ r)) (rows df)) (rows df)) /\
  (forall output_dir table tr processed_df s1 s2,
      ranked_outputs argsort output_dir table = (tr, Ok (processed_df, s1, s2)) ->
      aggregate table = Ok processed_df).
Proof.
  intros Hk HA. split.
  - pose proof (float_column_keys _ _ _ Hk) as EK. rewrite <- EK in HA.
    destruct (nargsort_desc_spec argsort (key_of by_) (rows df) HA) as [top (T & P & D)].
    exists top. unfold sort_values. rewrite Hk. simpl. rewrite <- EK, T.
    repeat split; try assumption.
    apply Permutation_trans
      with (filter (fun r => negb (F64.is_nan (key_of by_ r))) (rows df)
            ++ filter (fun r => F64.is_nan (key_of by_ r)) (rows df)).
    + now apply Permutation_app_tail.
    + pose proof (filter_split_perm (fun r => negb (F64.is_nan (key_of by_ r))) (rows df)) as Q.
      rewrite (filter_ext (fun x => negb (negb (F64.is_nan (key_of by_ x))))
                          (fun r => F64.is_nan (key_of by_ r))) in Q
        by (intros r; apply negb_involutive).
      exact Q.
  - intros output_dir table tr p s1 s2 H.
    now destruct (ranked_outputs_Ok _ _ _ _ _ _ _ H) as (_ & A & _).
Qed.

Lemma ranker_sorts_descending_unset_last_witness :
  exists top,
    sort_values Npy.argsort nine_pairs_view "Avg_MPO"
    = Ok (mkFrame (columns nine_pairs_view)
            (top ++ filter (fun r => F64.is_nan (key_of "Avg_MPO" r)) (rows nine_pairs_view))) /\
    descending (map (key_of "Avg_MPO") top) = true.
Proof.
  destruct (ranker_sorts_descending_unset_last Npy.argsort nine_pairs_view "Avg_MPO"
              (map (key_of "Avg_MPO") (rows nine_pairs_view)))
    as [[top (A & _ & D & _)] _].
  - vm_compute. reflexivity.
  - vm_compute. reflexivity.
  - exists top. split; assumption.
Defined.

(** ** C3: a group that is not a pair stops the run *)

(** C3.  What the script does with a table in which some identifier has one
    row, or three or more: the run ends in an exception before anything is
    written or printed.  (The header of the script promises that such rows
    are passed through.) *)
Theorem group_not_a_pair_aborts_the_run
    (argsort : list spec_float -> list nat) (re_compile : string -> option (string -> bool))
    (output_dir : string) (df : DataFrame) (benchmark_input : string)
    (key : cell) (group : list Series) :
  In (key, group) (groupby_Title df) -> List.length group <> 2 ->
  exists e, main argsort re_compile output_dir df benchmark_input = ([], Raise e).
Proof.
  intros HIn Hlen.
  destruct (aggregate_not_pair _ _ _ HIn Hlen) as [e He].
  unfold main, ranked_outputs.
  destruct (check_schema df) as [d|e'] eqn:S; simpl; [|eauto].
  rewrite He. simpl. eauto.
Qed.

Lemma group_not_a_pair_aborts_the_run_witness :
  In (Str "B", [b_alone]) (groupby_Title pair_and_single) /\
  List.length [b_alone] <> 2 /\
  exists e, main Npy.argsort Re.compile "out" pair_and_single "a" = ([], Raise e).
Proof.
  assert (H : In (Str "B", [b_alone]) (groupby_Title pair_and_single)) by (vm_compute; auto).
  assert (L : List.length [b_alone] <> 2) by (simpl; lia).
  split; [exact H|]. split; [exact L|].
  exact (group_not_a_pair_aborts_the_run Npy.argsort Re.compile "out" pair_and_single "a"
           (Str "B") [b_alone] H L).
Defined.

(** ** C4: the statistics of a pair *)

(** C4.  A group of exactly two rows with numeric scores [m1], [m2] (MPO) and
    [d1], [d2] (normalised docking): the loop hands on both rows tagged with
    the same four values, [(m1 + m2) / 2], [|m1 - m2|], [(d1 + d2) / 2],
    [|d1 - d2|] in binary64, every other field of the rows untouched; the same
    four values come out when the two rows are met in the other order; and
    when [processed_df] is built, it holds both rows with these values. *)
Theorem pair_rows_share_mean_and_delta
    (df : DataFrame) (key : cell) (row1 row2 : Series) (m1 m2 d1 d2 : spec_float) :
  In (key, [row1; row2]) (groupby_Title df) ->
  getitem row1 "MPO_score" = Ok (Num m1) ->
  getitem row2 "MPO_score" = Ok (Num m2) ->
  getitem row1 "norm_docking_score" = Ok (Num d1) ->
  getitem row2 "norm_docking_score" = Ok (Num d2) ->
  let avg_mpo := Num (F64.div (F64.add m1 m2) F64.two) in
  let delta_mpo := Num (F64.abs (F64.sub m1 m2)) in
  let avg_dock := Num (F64.div (F64.add d1 d2) F64.two) in
  let delta_dock := Num (F64.abs (F64.sub d1 d2)) in
  let out row := tag row avg_mpo delta_mpo avg_dock delta_dock in
  process_group (columns df) [row1; row2] = Ok [Row (out row1); Row (out row2)] /\
  process_group (columns df) [row2; row1] = Ok [Row (out row2); Row (out row1)] /\
  (forall row,
      getitem (out row) "Avg_MPO" = Ok avg_mpo /\
      getitem (out row) "Delta_MPO" = Ok delta_mpo /\
      getitem (out row) "Avg_norm_docking" = Ok avg_dock /\
      getitem (out row) "Delta_norm_docking" = Ok delta_dock /\
      forall col, ~ In col derived ->
                  lookup col (items (out row)) = lookup col (items row)) /\
  (forall processed_df, aggregate df = Ok processed_df ->
      exists o1 o2,
        In o1 (rows processed_df) /\ In o2 (rows processed_df) /\
        name o1 = name row1 /\ name o2 = name row2 /\
        cell_at o1 "Avg_MPO" = avg_mpo /\ cell_at o2 "Avg_MPO" = avg_mpo /\
        cell_at o1 "Delta_MPO" = delta_mpo /\ cell_at o2 "Delta_MPO" = delta_mpo /\
        cell_at o1 "Avg_norm_docking" = avg_dock /\
        cell_at o2 "Avg_norm_docking" = avg_dock /\
        cell_at o1 "Delta_norm_docking" = delta_dock /\
        cell_at o2 "Delta_norm_docking" = delta_dock).
Proof.
  intros HIn H1 H2 H3 H4 avg_mpo delta_mpo avg_dock delta_dock out.
  assert (P12 : process_group (columns df) [row1; row2] = Ok [Row (out row1); Row (out row2)])
    by exact (process_group_pair (columns df) _ _ _ _ _ _ H1 H2 H3 H4).
  split; [exact P12|]. split; [|split].
  - pose proof (process_group_pair (columns df) _ _ _ _ _ _ H2 H1 H4 H3) as P.
    cbv zeta in P. rewrite P. unfold out, avg_mpo, delta_mpo, avg_dock, delta_dock.
    rewrite (SFadd_comm m2 m1), (SFadd_comm d2 d1).
    rewrite (SFabs_sub_sym m2 m1), (SFabs_sub_sym d2 d1).
    reflexivity.
  - intros row. unfold out.
    destruct (tag_fields row avg_mpo delta_mpo avg_dock delta_dock) as (A & B & C & D).
    repeat (split; [assumption|]).
    intros col Hc. now apply tag_frame.
  - intros pdf Hagg. unfold aggregate in Hagg.
    apply rbind_Ok in Hagg. destruct Hagg as [l [Hl Hdf]].
    apply processed_rows_Ok in Hl. destruct Hl as [_ Hl].
    destruct (process_groups_In _ _ _ _ _ Hl HIn) as [here [Ph Qh]].
    rewrite P12 in Ph. injection Ph as <-.
    assert (I1 : In (Row (out row1)) l) by (apply Qh; simpl; auto).
    assert (I2 : In (Row (out row2)) l) by (apply Qh; simpl; auto).
    destruct (DataFrame_of_list_row _ _ _ Hdf I1) as [o1 [O1 [N1 V1]]].
    destruct (DataFrame_of_list_row _ _ _ Hdf I2) as [o2 [O2 [N2 V2]]].
    exists o1, o2.
    assert (G : forall row o c v,
               (forall c, In c (index (out row)) ->
                          In c (columns pdf) /\ cell_at o c = cell_at (out row) c) ->
               In c derived -> getitem (out row) c = Ok v -> cell_at o c = v).
    { intros row o c v V Hc Hg.
      destruct (V c) as [_ E]; [apply tag_index; now left|].
      rewrite E. now apply getitem_cell_at. }
    destruct (tag_fields row1 avg_mpo delta_mpo avg_dock delta_dock) as (A1 & B1 & C1 & D1).
    destruct (tag_fields row2 avg_mpo delta_mpo avg_dock delta_dock) as (A2 & B2 & C2 & D2).
    repeat (split; [first [assumption | (eapply G; [eassumption | simpl; tauto | assumption])]|]).
    eapply G; [eassumption | simpl; tauto | assumption].
Qed.

Lemma pair_rows_share_mean_and_delta_witness :
  In (Str "A", [a1; a2]) (groupby_Title two_pairs) /\
  process_group input_columns [a2; a1]
  = Ok [Row (tag a2 (Num q2) (Num q2) (Num q2) (Num (S754_zero false)));
        Row (tag a1 (Num q2) (Num q2) (Num q2) (Num (S754_zero false)))].
Proof.
  assert (H : In (Str "A", [a1; a2]) (groupby_Title two_pairs)) by (vm_compute; auto).
  split; [exact H|].
  exact (proj1 (proj2 (pair_rows_share_mean_and_delta two_pairs (Str "A") a1 a2 q3 q1 q2 q2
                         H eq_refl eq_refl eq_refl eq_refl))).
Defined.

(** ** C5: the rows of a group that is not a pair *)

(** C5.  A group that is not a pair: the loop appends the group to
    [processed_rows] as it is, its rows in their order and without any field
    added, but the list then holds a DataFrame and [pd.DataFrame] rejects it:
    no aggregated table exists. *)
Theorem group_not_a_pair_is_kept_then_rejected
    (df : DataFrame) (key : cell) (group : list Series) :
  In (key, group) (groupby_Title df) -> List.length group <> 2 ->
  process_group (columns df) group = Ok [Group (mkFrame (columns df) group)] /\
  exists e, aggregate df = Raise e.
Proof.
  intros HIn Hlen. split.
  - now apply process_group_not_pair.
  - eapply aggregate_not_pair; eassumption.
Qed.

Lemma group_not_a_pair_is_kept_then_rejected_witness :
  processed_rows pair_and_single
  = Ok [Row (tag a1 (Num q2) (Num q2) (Num q2) (Num (S754_zero false)));
        Row (tag a2 (Num q2) (Num q2) (Num q2) (Num (S754_zero false)));
        Group (table [b_alone])] /\
  aggregate pair_and_single = Raise ConstructError /\
  exists e, aggregate pair_and_single = Raise e.
Proof.
  split; [reflexivity|]. split; [reflexivity|].
  refine (proj2 (group_not_a_pair_is_kept_then_rejected pair_and_single (Str "B") [b_alone] _ _)).
  - vm_compute; auto.
  - simpl; lia.
Defined.

(** ** C6: the required columns *)

Lemma missing_cols_spec (df : DataFrame) (col : string) :
  In col (missing_cols df) <-> In col required_columns /\ ~ In col (columns df).
Proof.
  unfold missing_cols. rewrite filter_In, negb_true_iff, mem_false. tauto.
Qed.

Lemma missing_message_names_all (df : DataFrame) (col : string) :
  In col (missing_cols df) ->
  is_substring (quote col) (missing_message (missing_cols df)) = true.
Proof.
  unfold missing_cols, required_columns. simpl.
  destruct (mem "Title" (columns df)), (mem "MPO_score" (columns df)),
    (mem "norm_docking_score" (columns df)), (mem "docking score" (columns df));
    simpl; intros H;
    repeat (destruct H as [<-|H]; [vm_compute; reflexivity|]); destruct H.
Qed.

(** C6.  [missing_cols] lists exactly the required columns the table lacks.
    When there is none the check hands the table on unchanged.  Otherwise the
    run ends there in a [ValueError] whose message holds the name of every
    missing column, and nothing has been written or printed. *)
Theorem schema_check_names_every_missing_column
    (argsort : list spec_float -> list nat) (re_compile : string -> option (string -> bool))
    (output_dir : string) (df : DataFrame) (benchmark_input : string) :
  (forall col, In col (missing_cols df) <-> In col required_columns /\ ~ In col (columns df)) /\
  match missing_cols df with
  | [] => check_schema df = Ok df
  | _ :: _ =>
      let message := missing_message (missing_cols df) in
      check_schema df = Raise (ValueError message) /\
      main argsort re_compile output_dir df benchmark_input = ([], Raise (ValueError message)) /\
      message = ("Missing required columns: " ++ repr_list (missing_cols df))%string /\
      forall col, In col (missing_cols df) -> is_substring (quote col) message = true
  end.
Proof.
  split; [intros col; apply missing_cols_spec|].
  pose proof (missing_message_names_all df) as N.
  unfold main, ranked_outputs, check_schema.
  destruct (missing_cols df) as [|c t] eqn:E; [reflexivity|].
  cbv zeta. simpl. repeat split. exact N.
Qed.

(** ** C7: the column arranger *)

(** C7.  For each of the two templates and an aggregated table (one that has
    the identifier and the columns the template names): the arranger returns
    the stripped column list with the template's columns spliced in right
    after the identifier; the result has the same columns as the table, each
    as many times (nothing dropped, nothing duplicated), and whatever the
    column list, a column the template does not name keeps its count; the
    arranged view has the same rows in the same order, each with the same
    value in every column. *)
Theorem arranger_moves_only_named_columns (t : template) (processed_df : DataFrame) :
  t = mpo_first \/ t = docking_first ->
  In "Title" (columns processed_df) ->
  (forall col, In col (to_insert t) -> In col (columns processed_df)) ->
  (forall cols cols' col,
      arrange t cols = Ok cols' -> ~ In col (to_strip t) -> ~ In col (to_insert t) ->
      count_occ string_dec cols' col = count_occ string_dec cols col) /\
  exists cols view,
    arrange t (columns processed_df) = Ok cols /\
    select_columns processed_df cols = Ok view /\
    columns view = cols /\
    (exists before after,
        strip_columns (to_strip t) (columns processed_df) = before ++ "Title" :: after /\
        ~ In "Title" before /\
        cols = before ++ "Title" :: to_insert t ++ after) /\
    Permutation cols (columns processed_df) /\
    (forall col, count_occ string_dec cols col
                 = count_occ string_dec (columns processed_df) col) /\
    map name (rows view) = map name (rows processed_df) /\
    forall i r, nth_error (rows processed_df) i = Some r ->
      exists r', nth_error (rows view) i = Some r' /\
                 forall col, In col (columns processed_df) -> cell_at r' col = cell_at r col.
Proof.
  intros Ht HT Hins.
  split; [intros cols cols' col; apply arrange_keeps_unnamed|].
  destruct (arrange_select_total t processed_df Ht HT Hins) as (cols & A & P & S).
  exists cols, (mkFrame cols (map (reindex cols) (rows processed_df))).
  repeat (split; [first [assumption | reflexivity | now apply arrange_Ok
                        | now apply (Permutation_count_occ string_dec)]|]).
  split.
  - simpl. rewrite map_map. reflexivity.
  - intros k r Hr. exists (reindex cols r). simpl. split.
    + rewrite nth_error_map, Hr. reflexivity.
    + intros col Hc. apply cell_at_reindex.
      apply Permutation_in with (columns processed_df); [now apply Permutation_sym | assumption].
Qed.

Lemma arranger_moves_only_named_columns_witness :
  exists cols view,
    arrange docking_first (columns two_pairs_aggregated) = Ok cols /\
    select_columns two_pairs_aggregated cols = Ok view /\
    cols = ["Title"; "Avg_norm_docking"; "Delta_norm_docking"; "norm_docking_score";
            "docking score"; "Avg_MPO"; "Delta_MPO"; "MPO_score"] /\
    Permutation cols (columns two_pairs_aggregated).
Proof.
  destruct (arranger_moves_only_named_columns docking_first two_pairs_aggregated)
    as [_ (cols & view & A & S & _ & _ & P & _)].
  - now right.
  - simpl; tauto.
  - simpl; intros col H; intuition (subst; auto 20).
  - exists cols, view. repeat split; try assumption.
    vm_compute in A. now injection A as <-.
Defined.

(** ** C8: a query that selects nothing *)

(** C8.  The header of the script (line 24) promises a case-insensitive
    partial match of the benchmark name, and line 47 lower-cases the name for
    it; line 111 hands the name to [str.contains] with its default
    [regex=True].  The query [a.c] is a substring of no identifier of
    [abc_pair], so the substring match selects nothing; yet the run treats
    the name as a pattern, selects [abc], writes the filtered file and prints
    no warning. *)
Lemma dot_query_matches_without_substring :
  (forall r, In r (rows abc_pair) ->
             exists t, cell_at r "Title" = Str t /\ is_substring "a.c" (lower t) = false) /\
  wrote "out/Above_a.c_Compounds.csv"
        (fst (main Npy.argsort Re.compile "out" abc_pair "a.c")) = true /\
  warned (fst (main Npy.argsort Re.compile "out" abc_pair "a.c")) = false.
Proof.
  split; [|split; vm_compute; reflexivity].
  intros r [<-|[<-|[]]]; exists "abc"; split; reflexivity.
Qed.

(** X19.  On a table of numeric pairs that passes the schema check, when the
    selection of line 111 is empty: the run ends normally and its trace is the
    two ranked files followed by the warning; no filtered file, no summary. *)
Theorem empty_selection_warns_and_skips
    (argsort : list spec_float -> list nat) (re_compile : string -> option (string -> bool))
    (output_dir : string) (df : DataFrame) (benchmark_input : string)
    (processed_df selection : DataFrame) :
  check_schema df = Ok df -> ready df = true ->
  aggregate df = Ok processed_df ->
  select_benchmark re_compile processed_df (lower (strip benchmark_input)) = Ok selection ->
  rows selection = [] ->
  exists s1 s2,
    ranked_files argsort processed_df s1 s2 /\
    main argsort re_compile output_dir df benchmark_input
    = ([to_csv (path_join output_dir "Sorted_by_Avg_MPO.csv") s1;
        to_csv (path_join output_dir "Sorted_by_Avg_normDocking.csv") s2;
        print (BenchmarkNotFound (lower (strip benchmark_input)))],
       Ok tt).
Proof.
  intros HC HR HA HS HE.
  destruct (first_stage argsort output_dir df processed_df HC HR HA) as (s1 & s2 & F & E).
  exists s1, s2. split; [exact F|].
  rewrite (main_after_ranked _ _ _ _ _ _ _ _ _ E).
  unfold benchmark_filter. rewrite HS. simpl. rewrite HE. reflexivity.
Qed.

Lemma empty_selection_warns_and_skips_witness :
  snd (main Npy.argsort Re.compile "out" two_pairs "Z") = Ok tt /\
  warned (fst (main Npy.argsort Re.compile "out" two_pairs "Z")) = true /\
  wrote "out/Sorted_by_Avg_MPO.csv" (fst (main Npy.argsort Re.compile "out" two_pairs "Z")) = true /\
  wrote "out/Sorted_by_Avg_normDocking.csv"
        (fst (main Npy.argsort Re.compile "out" two_pairs "Z")) = true /\
  List.length (fst (main Npy.argsort Re.compile "out" two_pairs "Z")) = 3.
Proof.
  destruct (empty_selection_warns_and_skips Npy.argsort Re.compile "out" two_pairs "Z"
              two_pairs_aggregated
              (mkFrame (columns two_pairs_aggregated) []))
    as (s1 & s2 & _ & E).
  - reflexivity.
  - vm_compute. reflexivity.
  - reflexivity.
  - reflexivity.
  - reflexivity.
  - rewrite E. repeat split.
Defined.

(** ** C9: where the thresholds come from *)

(** C9.  On a non-empty benchmark selection of an aggregated table,
    [thresholds] returns [(t1, t2)] exactly when [t1] is the [Avg_MPO] of the
    first selected row, in table order, whose [Avg_MPO] is present and [t2]
    the [Avg_norm_docking] of the first selected row whose [Avg_norm_docking]
    is present.  The two rows can differ: the query x on [two_matches] takes
    the MPO threshold from row 2 and the docking threshold from row 0. *)
Theorem thresholds_come_from_first_present_rows
    (re_compile : string -> option (string -> bool))
    (df processed_df selection : DataFrame) (benchmark_name : string) :
  aggregate df = Ok processed_df ->
  select_benchmark re_compile processed_df benchmark_name = Ok selection ->
  rows selection <> [] ->
  (forall t1 t2,
      thresholds selection = Ok (t1, t2) <->
      (exists r1, first_present "Avg_MPO" (rows selection) r1 t1) /\
      (exists r2, first_present "Avg_norm_docking" (rows selection) r2 t2)) /\
  (exists selection r1 r2 t1 t2,
      select_benchmark Re.compile two_matches_aggregated "x" = Ok selection /\
      thresholds selection = Ok (t1, t2) /\
      first_present "Avg_MPO" (rows selection) r1 t1 /\
      first_present "Avg_norm_docking" (rows selection) r2 t2 /\
      name r1 = 2 /\ name r2 = 0).
Proof.
  intros HA HS NE.
  destruct (selection_numeric _ _ _ _ _ "Avg_MPO" HA HS NE) as [m Hm]; [simpl; tauto|].
  destruct (selection_numeric _ _ _ _ _ "Avg_norm_docking" HA HS NE) as [d Hd]; [simpl; tauto|].
  split.
  - intros t1 t2. unfold thresholds. rewrite Hm, Hd. simpl.
    apply float_column_Ok in Hm, Hd. destruct Hm as [_ Hm], Hd as [_ Hd].
    rewrite <- (iloc0_dropna "Avg_MPO" _ _ t1 Hm).
    rewrite <- (iloc0_dropna "Avg_norm_docking" _ _ t2 Hd).
    destruct (iloc0 (dropna m)) as [a|e]; simpl.
    + destruct (iloc0 (dropna d)) as [b|e]; simpl.
      * split; [intros H; injection H as -> ->; auto | intros [A B]; congruence].
      * split; [discriminate | intros [_ B]; discriminate].
    + split; [discriminate | intros [A _]; discriminate].
  - exists two_matches_aggregated.
    exists (nth 2 (rows two_matches_aggregated) x1), (nth 0 (rows two_matches_aggregated) x1).
    exists q3, q2.
    split; [reflexivity|]. split; [reflexivity|]. split; [|split].
    + exists (firstn 2 (rows two_matches_aggregated)), (skipn 3 (rows two_matches_aggregated)).
      split; [reflexivity|]. split; [|split; reflexivity].
      repeat constructor.
    + exists [], (skipn 1 (rows two_matches_aggregated)).
      split; [reflexivity|]. split; [constructor | split; reflexivity].
    + split; reflexivity.
Qed.

Lemma thresholds_come_from_first_present_rows_witness :
  thresholds two_groups_aggregated = Ok (q2, q2) <->
  (exists r1, first_present "Avg_MPO" (rows two_groups_aggregated) r1 q2) /\
  (exists r2, first_present "Avg_norm_docking" (rows two_groups_aggregated) r2 q2).
Proof.
  refine (proj1 (thresholds_come_from_first_present_rows Re.compile two_groups
                   two_groups_aggregated two_groups_aggregated "a" _ _ _) q2 q2).
  - reflexivity.
  - reflexivity.
  - simpl. discriminate.
Defined.

(** ** C10: a selection without a threshold *)

(** C10 as stated fails on its own example.  In [pair_and_single] the one
    group the query b matches is not a pair: the run never reaches the
    threshold extraction.  There is no aggregated table to select from; the
    exception is the one of line 78, not the [IndexError] of lines 115-116;
    and no ranked file has been written. *)
Lemma lone_benchmark_group_stops_before_the_thresholds :
  groupby_Title pair_and_single = [(Str "A", [a1; a2]); (Str "B", [b_alone])] /\
  aggregate pair_and_single = Raise ConstructError /\
  main Npy.argsort Re.compile "out" pair_and_single "b" = ([], Raise ConstructError) /\
  snd (main Npy.argsort Re.compile "out" pair_and_single "b") <> Raise IndexError.
Proof.
  split; [reflexivity|]. split; [reflexivity|]. split; [reflexivity|].
  vm_compute. discriminate.
Qed.

(** C10, amended.  On a table that passes the schema check and whose groups
    are all pairs with numeric (or missing) scores, when the query selects at
    least one row but every selected row has [Avg_MPO] unset, or every
    selected row has [Avg_norm_docking] unset: [thresholds] raises
    [IndexError], nothing catches it, and the trace of the run stops at the
    two ranked files: no filtered file, no summary, no warning. *)
Theorem unset_benchmark_average_raises
    (argsort : list spec_float -> list nat) (re_compile : string -> option (string -> bool))
    (output_dir : string) (df : DataFrame) (benchmark_input : string)
    (processed_df selection : DataFrame) :
  check_schema df = Ok df -> ready df = true ->
  aggregate df = Ok processed_df ->
  select_benchmark re_compile processed_df (lower (strip benchmark_input)) = Ok selection ->
  rows selection <> [] ->
  Forall (fun r => isna (cell_at r "Avg_MPO") = true) (rows selection) \/
  Forall (fun r => isna (cell_at r "Avg_norm_docking") = true) (rows selection) ->
  thresholds selection = Raise IndexError /\
  exists s1 s2,
    ranked_files argsort processed_df s1 s2 /\
    main argsort re_compile output_dir df benchmark_input
    = ([to_csv (path_join output_dir "Sorted_by_Avg_MPO.csv") s1;
        to_csv (path_join output_dir "Sorted_by_Avg_normDocking.csv") s2],
       Raise IndexError).
Proof.
  intros HC HR HA HS NE HU.
  destruct (selection_numeric _ _ _ _ _ "Avg_MPO" HA HS NE) as [m Hm]; [simpl; tauto|].
  destruct (selection_numeric _ _ _ _ _ "Avg_norm_docking" HA HS NE) as [d Hd]; [simpl; tauto|].
  assert (T : thresholds selection = Raise IndexError).
  { unfold thresholds. rewrite Hm. simpl.
    destruct (proj1 (float_column_Ok _ _ _) Hm) as [_ Hm'].
    destruct (proj1 (float_column_Ok _ _ _) Hd) as [_ Hd'].
    destruct HU as [U|U].
    - rewrite (dropna_all_missing _ _ _ Hm' U). reflexivity.
    - destruct (dropna m); simpl; [reflexivity|].
      rewrite Hd. simpl. rewrite (dropna_all_missing _ _ _ Hd' U). reflexivity. }
  split; [exact T|].
  destruct (first_stage argsort output_dir df processed_df HC HR HA) as (s1 & s2 & F & E).
  exists s1, s2. split; [exact F|].
  rewrite (main_after_ranked _ _ _ _ _ _ _ _ _ E).
  unfold benchmark_filter. rewrite HS. simpl.
  destruct (rows selection) as [|r t]; [congruence|].
  rewrite T. reflexivity.
Qed.

Lemma unset_benchmark_average_raises_witness :
  snd (main Npy.argsort Re.compile "out" unset_pair " X ") = Raise IndexError /\
  wrote "out/Sorted_by_Avg_MPO.csv"
        (fst (main Npy.argsort Re.compile "out" unset_pair " X ")) = true /\
  List.length (fst (main Npy.argsort Re.compile "out" unset_pair " X ")) = 2.
Proof.
  destruct (unset_benchmark_average_raises Npy.argsort Re.compile "out" unset_pair " X "
              unset_pair_aggregated unset_pair_aggregated)
    as (_ & s1 & s2 & _ & E).
  - reflexivity.
  - vm_compute. reflexivity.
  - reflexivity.
  - reflexivity.
  - simpl. discriminate.
  - left. repeat constructor.
  - rewrite E. repeat split.
Defined.

(** * Further properties *)

(** ** The rows of the aggregated table *)

Lemma add_to_group_members (k : cell) (r : Series) (gs : list (cell * list Series)) :
  Permutation (members (add_to_group k r gs)) (members gs ++ [r]).
Proof.
  unfold members. induction gs as [|[k' g] t IH]; simpl.
  - reflexivity.
  - destruct (key_eqb k' k); simpl.
    + rewrite <- !app_assoc. apply Permutation_app_head. apply Permutation_app_comm.
    + rewrite <- app_assoc. now apply Permutation_app_head.
Qed.

Lemma groupby_fold_members (l : list Series) (acc : list (cell * list Series)) :
  Permutation
    (members (fold_left
                (fun gs r =>
                   match lookup "Title" (items r) with
                   | Some k => if isna k then gs else add_to_group k r gs
                   | None => gs
                   end) l acc))
    (members acc ++ filter titled l).
Proof.
  revert acc. induction l as [|r t IH]; intros acc; simpl.
  - now rewrite app_nil_r.
  - eapply Permutation_trans; [apply IH|]. unfold titled at 2.
    destruct (lookup "Title" (items r)) as [k|]; [|reflexivity].
    destruct (isna k); simpl; [reflexivity|].
    change (r :: filter titled t) with ([r] ++ filter titled t).
    rewrite app_assoc. apply Permutation_app_tail. apply add_to_group_members.
Qed.

Lemma groupby_Title_members (df : DataFrame) :
  Permutation (members (groupby_Title df)) (filter titled (rows df)).
Proof. apply (groupby_fold_members (rows df) []). Qed.

Lemma process_group_pair_inv (cols : list string) (r1 r2 : Series) (here : list item) :
  process_group cols [r1; r2] = Ok here ->
  exists a b c d, here = [Row (tag r1 a b c d); Row (tag r2 a b c d)].
Proof.
  simpl. intros H.
  apply rbind_Ok in H. destruct H as [a [_ H]].
  apply rbind_Ok in H. destruct H as [b [_ H]].
  apply rbind_Ok in H. destruct H as [c [_ H]].
  apply rbind_Ok in H. destruct H as [d [_ H]].
  injection H as <-. eauto.
Qed.

Lemma tag_passed_through (r : Series) (a b c d : cell) : passed_through r (tag r a b c d).
Proof.
  split; [reflexivity|]. split.
  - intros col H. apply tag_index. now right.
  - intros col H. now apply tag_frame.
Qed.

Lemma process_groups_rows (cols : list string) (gs : list (cell * list Series)) (l : list item) :
  process_groups cols gs = Ok l -> existsb is_group l = false ->
  Forall (fun kg => List.length (snd kg) = 2) gs /\
  Forall2 passed_through (members gs) (series_of l).
Proof.
  revert l. induction gs as [|[k g] rest IH]; simpl; intros l H G.
  - injection H as <-. split; constructor.
  - apply rbind_Ok in H. destruct H as [here [Hh H]].
    apply rbind_Ok in H. destruct H as [more [Hm H]].
    injection H as <-. rewrite existsb_app in G. apply orb_false_iff in G.
    destruct G as [G1 G2]. destruct (IH more Hm G2) as [L F].
    destruct g as [|r1 [|r2 [|r3 t]]];
      try (simpl in Hh; injection Hh as <-; discriminate G1).
    apply process_group_pair_inv in Hh. destruct Hh as (a & b & c & d & ->).
    split; [constructor; [reflexivity | assumption]|].
    unfold members in *. simpl.
    constructor; [apply tag_passed_through|].
    constructor; [apply tag_passed_through | assumption].
Qed.

Lemma Forall2_map_r {A B C} (P : A -> C -> Prop) (f : B -> C) (l1 : list A) (l2 : list B) :
  Forall2 (fun a b => P a (f b)) l1 l2 -> Forall2 P l1 (map f l2).
Proof. induction 1; simpl; constructor; auto. Qed.

(** [processed_df] row by row against the grouped input. *)
Lemma aggregate_rows (df processed_df : DataFrame) :
  aggregate df = Ok processed_df ->
  Forall (fun kg => List.length (snd kg) = 2) (groupby_Title df) /\
  Forall2 (fun r o => name o = name r /\
                      forall col, In col (index r) -> ~ In col derived ->
                                  cell_at o col = cell_at r col)
          (members (groupby_Title df)) (rows processed_df).
Proof.
  unfold aggregate. intros H.
  apply rbind_Ok in H. destruct H as [l [Hl Hdf]].
  apply processed_rows_Ok in Hl. destruct Hl as [_ Hl].
  apply DataFrame_of_list_Ok in Hdf. destruct Hdf as [G ->]. simpl.
  destruct (process_groups_rows _ _ _ Hl G) as [L F]. split; [assumption|].
  apply Forall2_map_r.
  assert (I : forall s, In s (series_of l) ->
                        forall c, In c (index s) -> In c (combined_columns (series_of l)))
    by (intros s Hs c Hc; apply In_combined_columns; eauto).
  set (cols := combined_columns (series_of l)) in *. clearbody cols.
  induction F as [|r s rs ss [N [X Y]] F IH]; constructor.
  - split; [assumption|]. intros col Hc Hd.
    rewrite cell_at_reindex by (apply (I s); [now left | auto]).
    unfold cell_at. now rewrite Y.
  - apply IH. intros s' Hs'. apply I. now right.
Qed.

Lemma Forall2_In_l {A B} (P : A -> B -> Prop) (l1 : list A) (l2 : list B) (a : A) :
  Forall2 P l1 l2 -> In a l1 -> exists b, In b l2 /\ P a b.
Proof.
  induction 1 as [|x y l1 l2 H F IH]; simpl; [tauto|].
  intros [<-|HIn]; [eauto|]. destruct (IH HIn) as [b [Hb Pb]]. eauto.
Qed.

Lemma Forall2_In_r {A B} (P : A -> B -> Prop) (l1 : list A) (l2 : list B) (b : B) :
  Forall2 P l1 l2 -> In b l2 -> exists a, In a l1 /\ P a b.
Proof.
  induction 1 as [|x y l1 l2 H F IH]; simpl; [tauto|].
  intros [<-|HIn]; [eauto|]. destruct (IH HIn) as [a [Ha Pa]]. eauto.
Qed.

Lemma Forall2_names (l1 l2 : list Series) (P : Series -> Series -> Prop) :
  Forall2 (fun r o => name o = name r /\ P r o) l1 l2 -> map name l2 = map name l1.
Proof. induction 1 as [|x y l1 l2 [N _] F IH]; simpl; congruence. Qed.

Lemma add_to_group_nonempty (k : cell) (r : Series) (gs : list (cell * list Series)) :
  Forall (fun kg => snd kg <> []) gs ->
  Forall (fun kg => snd kg <> []) (add_to_group k r gs).
Proof.
  induction 1 as [|[k' g] t H F IH]; simpl.
  - constructor; [discriminate | constructor].
  - destruct (key_eqb k' k); constructor; auto.
    simpl. destruct g; discriminate.
Qed.

Lemma groupby_Title_nonempty (df : DataFrame) :
  Forall (fun kg => snd kg <> []) (groupby_Title df).
Proof.
  unfold groupby_Title.
  assert (G : forall l acc, Forall (fun kg : cell * list Series => snd kg <> []) acc ->
            Forall (fun kg => snd kg <> [])
              (fold_left
                 (fun gs r =>
                    match lookup "Title" (items r) with
                    | Some k => if isna k then gs else add_to_group k r gs
                    | None => gs
                    end) l acc)).
  { induction l as [|r t IH]; intros acc H; simpl; [assumption|].
    apply IH. destruct (lookup "Title" (items r)) as [k|]; [|assumption].
    destruct (isna k); [assumption | now apply add_to_group_nonempty]. }
  apply G. constructor.
Qed.

Lemma no_titled_row_no_group (df : DataFrame) :
  filter titled (rows df) = [] -> groupby_Title df = [].
Proof.
  intros H. pose proof (groupby_Title_members df) as P. rewrite H in P.
  apply Permutation_sym, Permutation_nil in P. pose proof (groupby_Title_nonempty df) as N.
  destruct (groupby_Title df) as [|[k g] t]; [reflexivity|].
  inversion N as [|? ? Hg _]; subst. unfold members in P. simpl in *.
  destruct g; [contradiction | discriminate].
Qed.

(** X1.  A table that passes the schema check but has no row with a present
    identifier (no row at all, or only rows with an empty Title): the list
    [processed_rows] is empty, [pd.DataFrame([])] has no column, and
    [cols.index('Title')] raises [ValueError] before anything is written. *)
Theorem table_without_identifier_stops_at_the_arranger
    (argsort : list spec_float -> list nat) (re_compile : string -> option (string -> bool))
    (output_dir : string) (df : DataFrame) (benchmark_input : string) :
  check_schema df = Ok df ->
  filter titled (rows df) = [] ->
  aggregate df = Ok (mkFrame [] []) /\
  main argsort re_compile output_dir df benchmark_input
  = ([], Raise (ValueError "'Title' is not in list")).
Proof.
  intros HS HT. apply no_titled_row_no_group in HT.
  assert (A : aggregate df = Ok (mkFrame [] []))
    by (unfold aggregate;
        rewrite (processed_rows_titled df (check_schema_columns df "Title" HS (or_introl eq_refl)));
        rewrite HT; reflexivity).
  split; [exact A|].
  unfold main, ranked_outputs. rewrite HS. simpl. rewrite A. reflexivity.
Qed.

Lemma table_without_identifier_stops_at_the_arranger_witness :
  main Npy.argsort Re.compile "out" header_only "a"
  = ([], Raise (ValueError "'Title' is not in list")) /\
  main Npy.argsort Re.compile "out" (table [untitled]) "a"
  = ([], Raise (ValueError "'Title' is not in list")).
Proof.
  split.
  - exact (proj2 (table_without_identifier_stops_at_the_arranger Npy.argsort Re.compile "out"
                    header_only "a" eq_refl eq_refl)).
  - exact (proj2 (table_without_identifier_stops_at_the_arranger Npy.argsort Re.compile "out"
                    (table [untitled]) "a" eq_refl eq_refl)).
Defined.

(** X2.  When the aggregated table exists, its rows are the rows of the input
    that have a present identifier, each once, listed group by group (groups
    in first-seen order, members in input order), and every group has exactly
    two rows; a row whose identifier is missing is in no group and so in no
    output. *)
Theorem aggregated_rows_are_the_titled_rows (df processed_df : DataFrame) :
  aggregate df = Ok processed_df ->
  map name (rows processed_df) = map name (members (groupby_Title df)) /\
  Permutation (map name (rows processed_df)) (map name (filter titled (rows df))) /\
  Forall (fun kg => List.length (snd kg) = 2) (groupby_Title df) /\
  List.length (rows processed_df) = 2 * List.length (groupby_Title df).
Proof.
  intros H. destruct (aggregate_rows _ _ H) as [L F].
  assert (N : map name (rows processed_df) = map name (members (groupby_Title df)))
    by exact (Forall2_names _ _ _ F).
  split; [exact N|]. split; [|split; [exact L|]].
  - rewrite N. apply Permutation_map. apply groupby_Title_members.
  - rewrite <- (length_map name), N, length_map. unfold members.
    clear F N H. induction L as [|[k g] t Hg _ IH]; [reflexivity|].
    simpl in *. rewrite length_app, IH, Hg. lia.
Qed.

Lemma aggregated_rows_are_the_titled_rows_witness :
  map name (rows (aggregated two_pairs_and_untitled)) = [0; 1; 2; 3] /\
  Permutation (map name (rows (aggregated two_pairs_and_untitled)))
              (map name (filter titled (rows two_pairs_and_untitled))).
Proof.
  split; [reflexivity|].
  exact (proj1 (proj2 (aggregated_rows_are_the_titled_rows two_pairs_and_untitled
                         (aggregated two_pairs_and_untitled) eq_refl))).
Defined.

(** X3.  When the aggregated table exists, every input row with a present
    identifier has its row there, under the same label and with every field
    other than the four derived ones holding the value it had; and every row
    of the aggregated table is such a row. *)
Theorem aggregated_rows_keep_their_fields (df processed_df : DataFrame) :
  aggregate df = Ok processed_df ->
  (forall r, In r (rows df) -> titled r = true ->
     exists o, In o (rows processed_df) /\ name o = name r /\
               forall col, In col (index r) -> ~ In col derived ->
                           cell_at o col = cell_at r col) /\
  (forall o, In o (rows processed_df) ->
     exists r, In r (rows df) /\ titled r = true /\ name o = name r /\
               forall col, In col (index r) -> ~ In col derived ->
                           cell_at o col = cell_at r col).
Proof.
  intros H. destruct (aggregate_rows _ _ H) as [_ F].
  pose proof (groupby_Title_members df) as P. split.
  - intros r Hr Ht.
    assert (I : In r (members (groupby_Title df))).
    { apply Permutation_in with (filter titled (rows df)); [now apply Permutation_sym|].
      apply filter_In. auto. }
    destruct (Forall2_In_l _ _ _ _ F I) as [o [Ho [N V]]]. eauto.
  - intros o Ho. destruct (Forall2_In_r _ _ _ _ F Ho) as [r [Hr [N V]]].
    apply (Permutation_in _ P) in Hr. apply filter_In in Hr. destruct Hr as [Hr Ht].
    eauto 6.
Qed.

Lemma aggregated_rows_keep_their_fields_witness :
  exists o, In o (rows two_pairs_aggregated) /\ name o = name a2 /\
            forall col, In col (index a2) -> ~ In col derived ->
                        cell_at o col = cell_at a2 col.
Proof.
  refine (proj1 (aggregated_rows_keep_their_fields two_pairs two_pairs_aggregated eq_refl)
                a2 _ eq_refl).
  simpl. auto.
Defined.

(** ** Text where a score or an identifier is expected *)

Lemma process_group_scored (cols : list string) (g : list Series) :
  scored_pair g = true ->
  if text_score g then process_group cols g = Raise TypeError
  else exists here, process_group cols g = Ok here.
Proof.
  destruct g as [|r1 [|r2 [|r3 t]]]; try discriminate.
  unfold scored_pair, text_score, has_field, is_text, process_group, average, delta, getitem.
  destruct (lookup "MPO_score" (items r1)) as [[?|?]|];
    destruct (lookup "MPO_score" (items r2)) as [[?|?]|];
    destruct (lookup "norm_docking_score" (items r1)) as [[?|?]|];
    destruct (lookup "norm_docking_score" (items r2)) as [[?|?]|];
    simpl; intros H; try discriminate; try reflexivity; eauto.
Qed.

Lemma process_groups_scored (cols : list string) (gs : list (cell * list Series)) :
  forallb (fun kg => scored_pair (snd kg)) gs = true ->
  if existsb (fun kg => text_score (snd kg)) gs then process_groups cols gs = Raise TypeError
  else exists l, process_groups cols gs = Ok l.
Proof.
  induction gs as [|[k g] t IH]; simpl; [eauto|].
  intros H. apply andb_true_iff in H. destruct H as [Hg Ht].
  pose proof (process_group_scored cols g Hg) as P. specialize (IH Ht).
  destruct (text_score g); simpl.
  - rewrite P. reflexivity.
  - destruct P as [here ->]. simpl.
    destruct (existsb (fun kg => text_score (snd kg)) t).
    + rewrite IH. reflexivity.
    + destruct IH as [l ->]. simpl. eauto.
Qed.

(** X4.  A table that passes the schema check, whose groups are all pairs
    carrying both scores, and in which some pair has text where a score is
    expected: the arithmetic of lines 67-70 raises [TypeError] inside the
    loop, and the run ends there with no file written. *)
Theorem text_score_aborts_the_run
    (argsort : list spec_float -> list nat) (re_compile : string -> option (string -> bool))
    (output_dir : string) (df : DataFrame) (benchmark_input : string) :
  check_schema df = Ok df ->
  forallb (fun kg => scored_pair (snd kg)) (groupby_Title df) = true ->
  existsb (fun kg => text_score (snd kg)) (groupby_Title df) = true ->
  aggregate df = Raise TypeError /\
  main argsort re_compile output_dir df benchmark_input = ([], Raise TypeError).
Proof.
  intros HS HP HT.
  pose proof (process_groups_scored (columns df) _ HP) as P. rewrite HT in P.
  assert (A : aggregate df = Raise TypeError)
    by (unfold aggregate;
        rewrite (processed_rows_titled df (check_schema_columns df "Title" HS (or_introl eq_refl)));
        rewrite P; reflexivity).
  split; [exact A|].
  unfold main, ranked_outputs. rewrite HS. simpl. rewrite A. reflexivity.
Qed.

Lemma text_score_aborts_the_run_witness :
  aggregate text_pair = Raise TypeError /\
  main Npy.argsort Re.compile "out" text_pair "a" = ([], Raise TypeError).
Proof.
  exact (text_score_aborts_the_run Npy.argsort Re.compile "out" text_pair "a"
           eq_refl eq_refl eq_refl).
Defined.

(** The identifier column of the aggregated table, read off the groups. *)
Lemma aggregate_titles (df processed_df : DataFrame) :
  aggregate df = Ok processed_df ->
  map (fun o => cell_at o "Title") (rows processed_df)
  = map (fun r => cell_at r "Title") (members (groupby_Title df)).
Proof.
  intros H. destruct (aggregate_rows _ _ H) as [_ F].
  pose proof (groupby_Title_members df) as P.
  assert (T : Forall (fun r => titled r = true) (members (groupby_Title df))).
  { apply Forall_forall. intros r Hr. apply (Permutation_in _ P) in Hr.
    apply filter_In in Hr. tauto. }
  clear H P. revert T.
  induction F as [|r o l1 l2 [_ V] F IH]; intros T; [reflexivity|].
  inversion T as [|? ? Tr Tl]; subst. simpl. f_equal; [|now apply IH].
  apply V.
  - unfold titled in Tr. apply lookup_In_index.
    destruct (lookup "Title" (items r)); [eauto | discriminate].
  - unfold derived. simpl. intros [E|[E|[E|[E|[]]]]]; discriminate.
Qed.

Lemma member_in_table (df : DataFrame) (r : Series) :
  In r (members (groupby_Title df)) <-> In r (rows df) /\ titled r = true.
Proof.
  pose proof (groupby_Title_members df) as P. rewrite <- filter_In. split; intros H.
  - exact (Permutation_in _ P H).
  - exact (Permutation_in _ (Permutation_sym P) H).
Qed.

Section SelectionErrors.
Variable argsort : list spec_float -> list nat.
Variable re_compile : string -> option (string -> bool).

Lemma main_selection_raises (output_dir : string) (df processed_df : DataFrame)
    (benchmark_input : string) (e : exn) :
  check_schema df = Ok df -> ready df = true -> aggregate df = Ok processed_df ->
  select_benchmark re_compile processed_df (lower (strip benchmark_input)) = Raise e ->
  exists s1 s2,
    ranked_files argsort processed_df s1 s2 /\
    main argsort re_compile output_dir df benchmark_input
    = ([to_csv (path_join output_dir "Sorted_by_Avg_MPO.csv") s1;
        to_csv (path_join output_dir "Sorted_by_Avg_normDocking.csv") s2],
       Raise e).
Proof.
  intros HS HR HA HE.
  destruct (first_stage argsort output_dir df processed_df HS HR HA) as [s1 [s2 [RF RO]]].
  exists s1, s2. split; [exact RF|].
  rewrite (main_after_ranked argsort re_compile _ _ _ _ _ _ _ RO).
  unfold benchmark_filter. rewrite HE. reflexivity.
Qed.

Lemma title_column (df processed_df : DataFrame) :
  ready df = true -> aggregate df = Ok processed_df ->
  column processed_df "Title"
  = Ok (map (fun r => cell_at r "Title") (members (groupby_Title df))).
Proof.
  intros HR HA.
  destruct (aggregate_ready df (aggregate_Ok_titled _ _ HA) HR) as [pdf [HA' [_ HC]]].
  rewrite HA in HA'. injection HA' as <-.
  unfold column. rewrite (proj2 (mem_In _ _)); [|apply HC; simpl; auto].
  now rewrite (aggregate_titles _ _ HA).
Qed.
End SelectionErrors.

(** X5.  A table ready for aggregation in which no identifier is text (a
    [Title] column of numbers): both ranked files are written, then the
    [.str] accessor of line 111 raises [AttributeError]; no filtered file and
    no summary follow, whatever the benchmark name. *)
Theorem numeric_identifiers_stop_the_filter
    (argsort : list spec_float -> list nat) (re_compile : string -> option (string -> bool))
    (output_dir : string) (df : DataFrame) (benchmark_input : string) :
  check_schema df = Ok df -> ready df = true ->
  (forall r, In r (rows df) -> is_text r "Title" = false) ->
  exists processed_df s1 s2,
    aggregate df = Ok processed_df /\
    ranked_files argsort processed_df s1 s2 /\
    main argsort re_compile output_dir df benchmark_input
    = ([to_csv (path_join output_dir "Sorted_by_Avg_MPO.csv") s1;
        to_csv (path_join output_dir "Sorted_by_Avg_normDocking.csv") s2],
       Raise AttributeError).
Proof.
  intros HS HR HN.
  destruct (aggregate_ready df (check_schema_columns df "Title" HS (or_introl eq_refl)) HR) as [pdf [HA _]].
  exists pdf.
  assert (E : select_benchmark re_compile pdf (lower (strip benchmark_input))
              = Raise AttributeError).
  { unfold select_benchmark. rewrite (title_column _ _ HR HA). simpl.
    unfold str_lower_contains.
    replace (forallb is_num _) with true; [reflexivity|].
    symmetry. apply forallb_forall. intros c Hc. apply in_map_iff in Hc.
    destruct Hc as [r [<- Hr]]. apply member_in_table in Hr. destruct Hr as [Hr Ht].
    specialize (HN r Hr). unfold titled in Ht. unfold is_text in HN. unfold cell_at.
    destruct (lookup "Title" (items r)) as [[f|s]|]; [reflexivity|discriminate|discriminate]. }
  destruct (main_selection_raises argsort re_compile output_dir df pdf benchmark_input
              _ HS HR HA E) as [s1 [s2 [RF M]]].
  exists s1, s2. auto.
Qed.

Lemma numeric_identifiers_stop_the_filter_witness :
  exists processed_df s1 s2,
    aggregate numbered_pairs = Ok processed_df /\
    ranked_files Npy.argsort processed_df s1 s2 /\
    main Npy.argsort Re.compile "out" numbered_pairs "0.25"
    = ([to_csv "out/Sorted_by_Avg_MPO.csv" s1;
        to_csv "out/Sorted_by_Avg_normDocking.csv" s2],
       Raise AttributeError).
Proof.
  apply (numeric_identifiers_stop_the_filter Npy.argsort Re.compile "out" numbered_pairs "0.25");
    [reflexivity | reflexivity |].
  intros r Hr. simpl in Hr.
  destruct Hr as [<-|[<-|[<-|[<-|[]]]]]; reflexivity.
Defined.

(** X6.  A table ready for aggregation with a text identifier, and a
    benchmark name that [re] rejects as a pattern (line 111 passes the name to
    [str.contains] with its default [regex=True]): both ranked files are
    written, then the run ends with the [re] error; no filtered file and no
    summary follow. *)
Theorem rejected_pattern_stops_the_filter
    (argsort : list spec_float -> list nat) (re_compile : string -> option (string -> bool))
    (output_dir : string) (df : DataFrame) (benchmark_input : string) :
  check_schema df = Ok df -> ready df = true ->
  (exists r, In r (rows df) /\ is_text r "Title" = true) ->
  re_compile (lower (strip benchmark_input)) = None ->
  exists processed_df s1 s2,
    aggregate df = Ok processed_df /\
    ranked_files argsort processed_df s1 s2 /\
    main argsort re_compile output_dir df benchmark_input
    = ([to_csv (path_join output_dir "Sorted_by_Avg_MPO.csv") s1;
        to_csv (path_join output_dir "Sorted_by_Avg_normDocking.csv") s2],
       Raise ReError).
Proof.
  intros HS HR [r [Hr Ht]] HC.
  destruct (aggregate_ready df (check_schema_columns df "Title" HS (or_introl eq_refl)) HR) as [pdf [HA _]].
  exists pdf.
  assert (E : select_benchmark re_compile pdf (lower (strip benchmark_input)) = Raise ReError).
  { unfold select_benchmark. rewrite (title_column _ _ HR HA). simpl.
    unfold str_lower_contains. rewrite HC.
    replace (forallb is_num _) with false; [reflexivity|].
    symmetry. apply not_true_is_false. intros F.
    rewrite forallb_forall in F.
    assert (I : In (cell_at r "Title")
                   (map (fun r => cell_at r "Title") (members (groupby_Title df)))).
    { apply (in_map (fun r => cell_at r "Title")). apply member_in_table.
      split; [exact Hr|]. unfold titled. unfold is_text in Ht.
      destruct (lookup "Title" (items r)) as [[f|s]|]; try discriminate.
      reflexivity. }
    specialize (F _ I). unfold is_text in Ht. unfold cell_at in F.
    destruct (lookup "Title" (items r)) as [[f|s]|]; discriminate. }
  destruct (main_selection_raises argsort re_compile output_dir df pdf benchmark_input
              _ HS HR HA E) as [s1 [s2 [RF M]]].
  exists s1, s2. auto.
Qed.

Lemma rejected_pattern_stops_the_filter_witness :
  exists processed_df s1 s2,
    aggregate two_pairs = Ok processed_df /\
    ranked_files Npy.argsort processed_df s1 s2 /\
    main Npy.argsort Re.compile "out" two_pairs " A(1 "
    = ([to_csv "out/Sorted_by_Avg_MPO.csv" s1;
        to_csv "out/Sorted_by_Avg_normDocking.csv" s2],
       Raise ReError).
Proof.
  apply (rejected_pattern_stops_the_filter Npy.argsort Re.compile "out" two_pairs " A(1 ");
    [reflexivity | reflexivity | | reflexivity].
  exists a1. split; [simpl; auto | reflexivity].
Defined.

(** ** The filtered file and the summary *)

Lemma renumber_from (s : nat) (l : list Series) :
  map name (map (fun p => mkSeries (fst p) (items (snd p))) (combine (seq s (List.length l)) l))
  = seq s (List.length l) /\
  map items (map (fun p => mkSeries (fst p) (items (snd p))) (combine (seq s (List.length l)) l))
  = map items l.
Proof.
  revert s. induction l as [|r t IH]; intros s; simpl; [auto|].
  destruct (IH (S s)) as [N I]. rewrite N, I. auto.
Qed.

Lemma renumber_names (l : list Series) : map name (renumber l) = seq 0 (List.length l).
Proof. exact (proj1 (renumber_from 0 l)). Qed.

Lemma renumber_items (l : list Series) : map items (renumber l) = map items l.
Proof. exact (proj2 (renumber_from 0 l)). Qed.

Lemma map_eq_Forall2 {A B C} (f : A -> C) (g : B -> C) (l1 : list A) (l2 : list B) :
  map f l1 = map g l2 -> Forall2 (fun a b => f a = g b) l1 l2.
Proof.
  revert l2. induction l1 as [|a t IH]; intros [|b t2] H; try discriminate; constructor.
  - now injection H.
  - apply IH. now injection H.
Qed.

Lemma NoDup_union_index (labels acc : list string) :
  NoDup acc -> NoDup (union_index acc labels).
Proof.
  revert acc. unfold union_index.
  induction labels as [|c t IH]; intros acc H; simpl; [assumption|].
  apply IH. destruct (mem c acc) eqn:M; [assumption|].
  apply mem_false in M. apply NoDup_app; [assumption | repeat constructor; simpl; tauto |].
  intros x Hx [<-|[]]. contradiction.
Qed.

Lemma NoDup_combined_columns (l : list Series) : NoDup (combined_columns l).
Proof.
  unfold combined_columns.
  assert (G : forall acc, NoDup acc ->
            NoDup (fold_left (fun acc s => union_index acc (index s)) l acc)).
  { induction l as [|s t IH]; intros acc H; simpl; [assumption|].
    apply IH. now apply NoDup_union_index. }
  apply G. constructor.
Qed.

Lemma aggregate_columns_NoDup (df processed_df : DataFrame) :
  aggregate df = Ok processed_df -> NoDup (columns processed_df).
Proof.
  unfold aggregate. intros H. apply rbind_Ok in H. destruct H as [l [_ H]].
  apply DataFrame_of_list_Ok in H. destruct H as [_ ->]. simpl.
  apply NoDup_combined_columns.
Qed.

Lemma select_columns_within (df view : DataFrame) (cols : list string) :
  select_columns df cols = Ok view -> forall c, In c cols -> In c (columns df).
Proof.
  unfold select_columns. intros H c Hc.
  destruct (filter (fun c => negb (mem c (columns df))) cols) eqn:E; [|discriminate].
  destruct (mem c (columns df)) eqn:M; [now apply mem_In|].
  assert (I : In c (filter (fun c => negb (mem c (columns df))) cols))
    by (apply filter_In; rewrite M; auto).
  rewrite E in I. destruct I.
Qed.

Lemma key_cols_first_perm (cols : list string) :
  NoDup cols -> (forall c, In c key_cols -> In c cols) ->
  Permutation (key_cols ++ filter (fun col => negb (mem col key_cols)) cols) cols.
Proof.
  intros ND HI.
  apply Permutation_trans
    with (filter (fun col => mem col key_cols) cols
          ++ filter (fun col => negb (mem col key_cols)) cols);
    [|apply filter_split_perm].
  apply Permutation_app_tail. apply NoDup_Permutation.
  - unfold key_cols. repeat constructor; simpl; intuition discriminate.
  - now apply NoDup_filter.
  - intros x. rewrite filter_In, mem_In. split; [auto | tauto].
Qed.

(** X7.  The filtered file of lines 124-130, for any run that reaches it: its
    columns are the five key columns followed by the other columns of the
    aggregated table in their order there, a rearrangement of that table's
    columns; its rows are the rows that beat both thresholds, in table order,
    followed by the selected benchmark rows, labelled afresh from 0; and every
    value of every row is the one the aggregated table holds. *)
Theorem filtered_file_layout
    (re_compile : string -> option (string -> bool))
    (df processed_df selection better out : DataFrame) (benchmark_name : string)
    (t1 t2 : spec_float) :
  aggregate df = Ok processed_df ->
  select_benchmark re_compile processed_df benchmark_name = Ok selection ->
  better_than processed_df t1 t2 = Ok better ->
  final_output better selection = Ok out ->
  columns out
  = key_cols ++ filter (fun col => negb (mem col key_cols)) (columns processed_df) /\
  Permutation (columns out) (columns processed_df) /\
  map name (rows out) = seq 0 (List.length (rows better) + List.length (rows selection)) /\
  Forall2 (fun r o => forall col, In col (columns processed_df) -> cell_at o col = cell_at r col)
          (filter (exceeds t1 t2) (rows processed_df) ++ rows selection) (rows out).
Proof.
  intros HA HS HB HO. apply better_than_Ok in HB. subst better.
  unfold final_output in HO. simpl columns in HO. simpl rows in HO.
  pose proof (select_columns_within _ _ _ HO) as W. simpl columns in W.
  apply select_columns_inv in HO. subst out. simpl columns. simpl rows.
  set (cols := key_cols ++ filter (fun col => negb (mem col key_cols)) (columns processed_df)) in *.
  assert (P : Permutation cols (columns processed_df)).
  { apply key_cols_first_perm; [exact (aggregate_columns_NoDup _ _ HA)|].
    intros c Hc. apply W. unfold cols. apply in_or_app. auto. }
  split; [reflexivity|]. split; [exact P|]. split.
  - rewrite map_map. simpl.
    change (map (fun x : Series => name x) ?l) with (map name l).
    rewrite renumber_names. now rewrite length_app.
  - set (l := filter (exceeds t1 t2) (rows processed_df) ++ rows selection).
    pose proof (renumber_items l) as I. apply eq_sym, map_eq_Forall2 in I.
    clearbody l. induction I as [|r o l1 l2 E F IH]; simpl; constructor; [|exact IH].
    intros col Hcol. rewrite cell_at_reindex.
    + unfold cell_at. now rewrite E.
    + apply Permutation_in with (columns processed_df); [now apply Permutation_sym | exact Hcol].
Qed.

Lemma filtered_file_layout_witness :
  Permutation (columns two_groups_filtered) (columns two_groups_aggregated) /\
  map name (rows two_groups_filtered) = [0; 1; 2; 3; 4; 5].
Proof.
  destruct (filtered_file_layout Re.compile two_groups two_groups_aggregated
              two_groups_aggregated two_groups_better two_groups_filtered "a" q2 q2
              eq_refl eq_refl eq_refl eq_refl) as (_ & B & C & _).
  split; [exact B | exact C].
Defined.






Lemma has_sep_app (a b : string) : has_sep (a ++ b) = has_sep a || has_sep b.
Proof. induction a as [|c t IH]; simpl; [reflexivity|]. now rewrite IH, orb_assoc. Qed.





(** ** The ranked files as whole tables *)

Lemma key_of_reindex (cols : list string) (c : string) (r : Series) :
  In c cols -> key_of c (reindex cols r) = key_of c r.
Proof. intros H. unfold key_of. now rewrite cell_at_reindex. Qed.

Lemma ranked_file_full (argsort : list spec_float -> list nat) (t : template)
    (processed_df view s : DataFrame) (cols : list string) (c : string) :
  t = mpo_first \/ t = docking_first ->
  arrange t (columns processed_df) = Ok cols ->
  select_columns processed_df cols = Ok view ->
  sort_values argsort view c = Ok s ->
  is_argsort (rev (dropna (map (key_of c) (rows processed_df))))
             (argsort (rev (dropna (map (key_of c) (rows processed_df))))) = true ->
  columns s = cols /\
  Permutation cols (columns processed_df) /\
  Permutation (rows s) (map (reindex cols) (rows processed_df)).
Proof.
  intros Ht HA HV HS HK.
  pose proof (select_columns_within _ _ _ HV) as W.
  apply select_columns_inv in HV. subst view.
  assert (P : Permutation cols (columns processed_df)).
  { pose proof (arrange_Ok _ _ _ HA) as (b & a & _ & _ & E).
    destruct (arrange_select_total t processed_df Ht) as (cols' & HA' & P & _).
    - apply W. rewrite E. apply in_or_app. right. left. reflexivity.
    - intros col Hcol. apply W. rewrite E. apply in_or_app. right. right.
      apply in_or_app. now left.
    - congruence. }
  unfold sort_values in HS. apply rbind_Ok in HS. destruct HS as [k [Hk HS]].
  injection HS as <-. simpl columns. simpl rows.
  split; [reflexivity|]. split; [exact P|].
  pose proof (float_column_keys _ _ _ Hk) as EK. simpl rows in EK.
  assert (Hc : In c cols) by (apply float_column_Ok in Hk; simpl in Hk; tauto).
  assert (EK' : map (key_of c) (rows processed_df)
                = map (key_of c) (map (reindex cols) (rows processed_df))).
  { rewrite map_map. apply map_ext. intros r. symmetry. now apply key_of_reindex. }
  rewrite EK' in HK.
  destruct (nargsort_desc_spec argsort (key_of c) _ HK) as [top (T & Q & _)].
  rewrite <- EK, T.
  set (l := map (reindex cols) (rows processed_df)) in *.
  apply Permutation_trans
    with (filter (fun r => negb (F64.is_nan (key_of c r))) l
          ++ filter (fun r => F64.is_nan (key_of c r)) l).
  - now apply Permutation_app_tail.
  - pose proof (filter_split_perm (fun r => negb (F64.is_nan (key_of c r))) l) as R.
    rewrite (filter_ext (fun x => negb (negb (F64.is_nan (key_of c x))))
                        (fun r => F64.is_nan (key_of c r))) in R
      by (intros r; apply negb_involutive).
    exact R.
Qed.

(** X9.  When the first stage of a run succeeds and numpy's argsort answers
    with a valid ascending order for the two key vectors, each of the two
    ranked files is the whole aggregated table: its columns are a
    rearrangement of the table's columns, its rows are the table's rows, each
    once, and every value of every row is the one the table holds. *)
Theorem ranked_files_hold_every_row
    (argsort : list spec_float -> list nat) (output_dir : string)
    (df processed_df s1 s2 : DataFrame) (tr : list event) :
  ranked_outputs argsort output_dir df = (tr, Ok (processed_df, s1, s2)) ->
  is_argsort (rev (dropna (map (key_of "Avg_MPO") (rows processed_df))))
             (argsort (rev (dropna (map (key_of "Avg_MPO") (rows processed_df))))) = true ->
  is_argsort (rev (dropna (map (key_of "Avg_norm_docking") (rows processed_df))))
             (argsort (rev (dropna (map (key_of "Avg_norm_docking") (rows processed_df)))))
  = true ->
  (Permutation (columns s1) (columns processed_df) /\
   Permutation (rows s1) (map (reindex (columns s1)) (rows processed_df))) /\
  (Permutation (columns s2) (columns processed_df) /\
   Permutation (rows s2) (map (reindex (columns s2)) (rows processed_df))) /\
  (forall o, In o (rows s1) \/ In o (rows s2) ->
     exists r, In r (rows processed_df) /\ name o = name r /\
               forall col, In col (columns processed_df) -> cell_at o col = cell_at r col).
Proof.
  intros H K1 K2.
  destruct (ranked_outputs_Ok _ _ _ _ _ _ _ H)
    as (_ & _ & (c1 & v1 & A1 & V1 & S1) & (c2 & v2 & A2 & V2 & S2) & _).
  destruct (ranked_file_full argsort mpo_first _ _ _ _ _ (or_introl eq_refl) A1 V1 S1 K1)
    as (E1 & P1 & R1).
  destruct (ranked_file_full argsort docking_first _ _ _ _ _ (or_intror eq_refl) A2 V2 S2 K2)
    as (E2 & P2 & R2).
  rewrite E1, E2. repeat split; try assumption.
  assert (G : forall cols s o,
            Permutation cols (columns processed_df) ->
            Permutation (rows s) (map (reindex cols) (rows processed_df)) ->
            In o (rows s) ->
            exists r, In r (rows processed_df) /\ name o = name r /\
                      forall col, In col (columns processed_df) ->
                                  cell_at o col = cell_at r col).
  { intros cols s o P R Ho. apply (Permutation_in _ R) in Ho.
    apply in_map_iff in Ho. destruct Ho as [r [<- Hr]].
    exists r. split; [exact Hr|]. split; [reflexivity|].
    intros col Hcol. apply cell_at_reindex.
    apply Permutation_in with (columns processed_df); [now apply Permutation_sym | exact Hcol]. }
  intros o [Ho|Ho]; [exact (G c1 s1 o P1 R1 Ho) | exact (G c2 s2 o P2 R2 Ho)].
Qed.

Lemma ranked_files_hold_every_row_witness :
  map name (rows two_matches_by_mpo) = [2; 3; 0; 1] /\
  map name (rows two_matches_by_docking) = [0; 1; 2; 3] /\
  Permutation (rows two_matches_by_mpo)
              (map (reindex (columns two_matches_by_mpo)) (rows two_matches_aggregated)) /\
  Permutation (rows two_matches_by_docking)
              (map (reindex (columns two_matches_by_docking)) (rows two_matches_aggregated)).
Proof.
  destruct (ranked_files_hold_every_row Npy.argsort "out" two_matches two_matches_aggregated
              two_matches_by_mpo two_matches_by_docking
              [to_csv "out/Sorted_by_Avg_MPO.csv" two_matches_by_mpo;
               to_csv "out/Sorted_by_Avg_normDocking.csv" two_matches_by_docking]
              eq_refl eq_refl eq_refl) as ((_ & R1) & (_ & R2) & _).
  split; [reflexivity|]. split; [reflexivity|]. split; [exact R1 | exact R2].
Defined.

(** ** Missing scores *)

Lemma add_nan (x y : spec_float) :
  F64.is_nan x = true \/ F64.is_nan y = true -> F64.add x y = F64.nan.
Proof.
  intros [H|H]; [destruct x; try discriminate | destruct y; try discriminate];
    [reflexivity | destruct x; reflexivity].
Qed.

Lemma sub_nan (x y : spec_float) :
  F64.is_nan x = true \/ F64.is_nan y = true -> F64.sub x y = F64.nan.
Proof.
  intros [H|H]; [destruct x; try discriminate | destruct y; try discriminate];
    [reflexivity | destruct x; reflexivity].
Qed.

Lemma gtb_nan_l (t : spec_float) : F64.gtb F64.nan t = false.
Proof. destruct t; reflexivity. Qed.

Lemma exceeds_unset (t1 t2 : spec_float) (r : Series) :
  cell_at r "Avg_MPO" = NaN \/ cell_at r "Avg_norm_docking" = NaN -> exceeds t1 t2 r = false.
Proof.
  unfold exceeds. intros [H|H]; rewrite H; unfold NaN.
  - destruct (cell_at r "Avg_norm_docking"); [|reflexivity].
    now rewrite gtb_nan_l.
  - destruct (cell_at r "Avg_MPO"); [|reflexivity].
    rewrite gtb_nan_l. apply andb_false_r.
Qed.

Lemma pair_in_aggregate (df processed_df : DataFrame) (key : cell) (row1 row2 : Series)
    (a b c d : cell) :
  In (key, [row1; row2]) (groupby_Title df) ->
  process_group (columns df) [row1; row2]
  = Ok [Row (tag row1 a b c d); Row (tag row2 a b c d)] ->
  aggregate df = Ok processed_df ->
  forall row, row = row1 \/ row = row2 ->
    exists o, In o (rows processed_df) /\ name o = name row /\
              cell_at o "Avg_MPO" = a /\ cell_at o "Delta_MPO" = b /\
              cell_at o "Avg_norm_docking" = c /\ cell_at o "Delta_norm_docking" = d.
Proof.
  intros HIn HP HA row Hrow. unfold aggregate in HA.
  apply rbind_Ok in HA. destruct HA as [l [HL HD]].
  apply processed_rows_Ok in HL. destruct HL as [_ HL].
  destruct (process_groups_In _ _ _ _ _ HL HIn) as [here [HP' HI]].
  rewrite HP in HP'. injection HP' as <-.
  assert (IR : In (Row (tag row a b c d)) l).
  { apply HI. destruct Hrow as [->| ->]; simpl; auto. }
  destruct (DataFrame_of_list_row _ _ _ HD IR) as [o [Ho [N V]]].
  exists o. split; [exact Ho|]. split; [exact N|].
  destruct (tag_fields row a b c d) as (F1 & F2 & F3 & F4).
  assert (G : forall col v, In col derived -> getitem (tag row a b c d) col = Ok v ->
                            cell_at o col = v).
  { intros col v Hcol Hg. destruct (V col) as [_ ->].
    - apply tag_index. now left.
    - now apply getitem_cell_at. }
  split; [apply (G "Avg_MPO" a); [simpl; auto | exact F1]|].
  split; [apply (G "Delta_MPO" b); [simpl; auto | exact F2]|].
  split; [apply (G "Avg_norm_docking" c); [simpl; auto | exact F3]|].
  apply (G "Delta_norm_docking" d); [simpl; auto 6 | exact F4].
Qed.

(** X10.  A pair in which one of the two MPO scores is missing (NaN): when the
    aggregated table exists, both rows of the pair are in it with [Avg_MPO]
    and [Delta_MPO] unset, and neither row passes the filter of lines 119-122,
    whatever the two thresholds are.  The same holds for a missing docking
    score and the two docking fields. *)
Theorem missing_score_unsets_the_pair
    (df processed_df : DataFrame) (key : cell) (row1 row2 : Series)
    (m1 m2 d1 d2 : spec_float) :
  In (key, [row1; row2]) (groupby_Title df) ->
  getitem row1 "MPO_score" = Ok (Num m1) ->
  getitem row2 "MPO_score" = Ok (Num m2) ->
  getitem row1 "norm_docking_score" = Ok (Num d1) ->
  getitem row2 "norm_docking_score" = Ok (Num d2) ->
  aggregate df = Ok processed_df ->
  F64.is_nan m1 = true \/ F64.is_nan m2 = true \/
  F64.is_nan d1 = true \/ F64.is_nan d2 = true ->
  forall row, row = row1 \/ row = row2 ->
    exists o, In o (rows processed_df) /\ name o = name row /\
      (F64.is_nan m1 = true \/ F64.is_nan m2 = true ->
       cell_at o "Avg_MPO" = NaN /\ cell_at o "Delta_MPO" = NaN) /\
      (F64.is_nan d1 = true \/ F64.is_nan d2 = true ->
       cell_at o "Avg_norm_docking" = NaN /\ cell_at o "Delta_norm_docking" = NaN) /\
      forall t1 t2 better,
        better_than processed_df t1 t2 = Ok better -> ~ In o (rows better).
Proof.
  intros HIn G1 G2 G3 G4 HA HN row Hrow.
  pose proof (process_group_pair (columns df) row1 row2 m1 m2 d1 d2 G1 G2 G3 G4) as HP.
  cbv zeta in HP.
  destruct (pair_in_aggregate _ _ _ _ _ _ _ _ _ HIn HP HA row Hrow)
    as (o & Ho & N & A1 & A2 & A3 & A4).
  exists o. split; [exact Ho|]. split; [exact N|].
  assert (M : F64.is_nan m1 = true \/ F64.is_nan m2 = true ->
              cell_at o "Avg_MPO" = NaN /\ cell_at o "Delta_MPO" = NaN).
  { intros H. rewrite A1, A2, (add_nan _ _ H), (sub_nan _ _ H). split; reflexivity. }
  assert (D : F64.is_nan d1 = true \/ F64.is_nan d2 = true ->
              cell_at o "Avg_norm_docking" = NaN /\ cell_at o "Delta_norm_docking" = NaN).
  { intros H. rewrite A3, A4, (add_nan _ _ H), (sub_nan _ _ H). split; reflexivity. }
  split; [exact M|]. split; [exact D|].
  intros t1 t2 better HB HI. apply better_than_Ok in HB. subst better. simpl in HI.
  apply filter_In in HI. destruct HI as [_ HE].
  rewrite exceeds_unset in HE; [discriminate|].
  destruct HN as [H|[H|[H|H]]]; [left; apply M | left; apply M | right; apply D | right; apply D];
    tauto.
Qed.

Lemma missing_score_unsets_the_pair_witness :
  exists o, In o (rows two_matches_aggregated) /\ name o = 1 /\
            cell_at o "Avg_MPO" = NaN /\ cell_at o "Delta_MPO" = NaN /\
            forall t1 t2 better,
              better_than two_matches_aggregated t1 t2 = Ok better -> ~ In o (rows better).
Proof.
  destruct (missing_score_unsets_the_pair two_matches two_matches_aggregated (Str "X") x1 x2
              F64.nan q2 q2 q2 (or_introl eq_refl) eq_refl eq_refl eq_refl eq_refl eq_refl
              (or_introl eq_refl) x2 (or_intror eq_refl))
    as (o & Ho & N & M & _ & B).
  exists o. split; [exact Ho|]. split; [exact N|].
  destruct (M (or_introl eq_refl)) as [M1 M2]. auto.
Defined.

(** ** Stripping *)

Lemma lstrip_is (s : string) : lstrip s = lstrip_chars is_space s.
Proof. induction s as [|c t IH]; simpl; [reflexivity|]. now rewrite IH. Qed.

Lemma rstrip_is (s : string) : rstrip s = rstrip_chars is_space s.
Proof. induction s as [|c t IH]; simpl; [reflexivity|]. now rewrite IH. Qed.

Lemma strip_is (s : string) : strip s = strip_chars is_space s.
Proof. unfold strip, strip_chars. now rewrite rstrip_is, lstrip_is. Qed.

Lemma lstrip_chars_all (p : ascii -> bool) (w : string) :
  all_chars p w = true -> lstrip_chars p w = EmptyString.
Proof.
  induction w as [|c t IH]; simpl; [reflexivity|].
  intros H. apply andb_true_iff in H. destruct H as [-> H]. auto.
Qed.

Lemma rstrip_chars_all (p : ascii -> bool) (w : string) :
  all_chars p w = true -> rstrip_chars p w = EmptyString.
Proof.
  induction w as [|c t IH]; simpl; [reflexivity|].
  intros H. apply andb_true_iff in H. destruct H as [-> H]. now rewrite IH.
Qed.

Lemma lstrip_chars_all_app (p : ascii -> bool) (w s : string) :
  all_chars p w = true -> lstrip_chars p (w ++ s) = lstrip_chars p s.
Proof.
  induction w as [|c t IH]; simpl; [reflexivity|].
  intros H. apply andb_true_iff in H. destruct H as [-> H]. auto.
Qed.

Lemma rstrip_chars_app_all (p : ascii -> bool) (s w : string) :
  all_chars p w = true -> rstrip_chars p (s ++ w) = rstrip_chars p s.
Proof.
  intros H. induction s as [|c t IH]; simpl; [now apply rstrip_chars_all|].
  now rewrite IH.
Qed.

Lemma strip_chars_app_all (p : ascii -> bool) (s w : string) :
  all_chars p w = true -> strip_chars p (s ++ w) = strip_chars p s.
Proof.
  intros H. unfold strip_chars. induction s as [|c t IH]; simpl.
  - now rewrite (lstrip_chars_all p w H).
  - destruct (p c); [exact IH|].
    exact (rstrip_chars_app_all p (String c t) w H).
Qed.

Lemma strip_chars_padded (p : ascii -> bool) (w1 s w2 : string) :
  all_chars p w1 = true -> all_chars p w2 = true ->
  strip_chars p (w1 ++ s ++ w2) = strip_chars p s.
Proof.
  intros H1 H2. unfold strip_chars. rewrite (lstrip_chars_all_app p w1 _ H1).
  exact (strip_chars_app_all p s w2 H2).
Qed.

(** Stripping commutes with a character map that respects the set. *)
Lemma lstrip_chars_map (p : ascii -> bool) (f : ascii -> ascii) (m : string -> string)
    (s : string) :
  (forall c, p (f c) = p c) -> m EmptyString = EmptyString ->
  (forall c t, m (String c t) = String (f c) (m t)) ->
  lstrip_chars p (m s) = m (lstrip_chars p s).
Proof.
  intros Hp H0 HS. induction s as [|c t IH]; simpl.
  - now rewrite H0.
  - rewrite HS. simpl. rewrite Hp. destruct (p c); [exact IH | now rewrite HS].
Qed.

Lemma rstrip_chars_map (p : ascii -> bool) (f : ascii -> ascii) (m : string -> string)
    (s : string) :
  (forall c, p (f c) = p c) -> m EmptyString = EmptyString ->
  (forall c t, m (String c t) = String (f c) (m t)) ->
  rstrip_chars p (m s) = m (rstrip_chars p s).
Proof.
  intros Hp H0 HS. induction s as [|c t IH]; simpl.
  - now rewrite H0.
  - rewrite HS. simpl. rewrite IH, Hp. destruct (rstrip_chars p t) as [|x u].
    + rewrite H0. destruct (p c); [now rewrite H0 | now rewrite HS, H0].
    + rewrite !HS. reflexivity.
Qed.

Lemma is_space_lower (c : ascii) : is_space (ascii_lower c) = is_space c.
Proof. destruct c as [[] [] [] [] [] [] [] []]; reflexivity. Qed.

Lemma strip_lower (s : string) : strip (lower s) = lower (strip s).
Proof.
  rewrite !strip_is. unfold strip_chars.
  rewrite (lstrip_chars_map is_space ascii_lower lower s is_space_lower eq_refl
             (fun c t => eq_refl)).
  exact (rstrip_chars_map is_space ascii_lower lower _ is_space_lower eq_refl
           (fun c t => eq_refl)).
Qed.

(** X11.  Line 47 makes the benchmark name insensitive to the letter case of
    the answer and to white space around it: an answer padded with blanks on
    either side, in any mix of upper and lower case, gives the same run (same
    files, same lines, same outcome) as any answer with the same lower-cased
    text. *)
Theorem benchmark_name_ignores_case_and_padding
    (argsort : list spec_float -> list nat) (re_compile : string -> option (string -> bool))
    (output_dir : string) (df : DataFrame) (a b p1 p2 : string) :
  blank p1 = true -> blank p2 = true -> lower a = lower b ->
  main argsort re_compile output_dir df (p1 ++ a ++ p2)%string
  = main argsort re_compile output_dir df b.
Proof.
  intros H1 H2 E. unfold main.
  rewrite !strip_is, (strip_chars_padded is_space p1 a p2 H1 H2), <- !strip_is.
  now rewrite <- !strip_lower, E.
Qed.

Lemma benchmark_name_ignores_case_and_padding_witness :
  main Npy.argsort Re.compile "out" two_groups "  A2 "
  = main Npy.argsort Re.compile "out" two_groups "a2".
Proof.
  exact (benchmark_name_ignores_case_and_padding Npy.argsort Re.compile "out" two_groups
           "A2" "a2" "  " " " eq_refl eq_refl eq_refl).
Defined.

(** ** The three counts of the summary *)

Lemma SFeqb_canon (x y : spec_float) :
  F64.is_nan x = false -> F64.is_nan y = false ->
  F64.eqb x y = true <-> canon x = canon y.
Proof.
  intros Hx Hy. unfold F64.eqb, SFeqb.
  destruct x as [sx|sx| |sx mx ex], y as [sy|sy| |sy my ey]; try discriminate; simpl.
  all: try (split; reflexivity).
  1-7: try (destruct sx); try (destruct sy); split; try discriminate; reflexivity.
  assert (M : (ex ?= ey)%Z = Eq /\ Pos.compare_cont Eq mx my = Eq <-> ex = ey /\ mx = my).
  { rewrite Z.compare_eq_iff. change (Pos.compare_cont Eq mx my) with (Pos.compare mx my).
    now rewrite Pos.compare_eq_iff. }
  destruct sx, sy; try (split; discriminate);
    (split;
     [ intros H; destruct (ex ?= ey)%Z eqn:E; try discriminate;
       destruct (Pos.compare_cont Eq mx my) eqn:P; try discriminate;
       destruct (proj1 M (conj eq_refl eq_refl)) as [-> ->]; reflexivity
     | intros Q; injection Q as -> ->;
       destruct (proj2 M (conj eq_refl eq_refl)) as [-> ->]; reflexivity ]).
Qed.

Lemma key_eqb_canon (a b : cell) :
  isna a = false -> isna b = false ->
  key_eqb a b = true <-> canon_key a = canon_key b.
Proof.
  intros Ha Hb. destruct a as [x|x], b as [y|y]; simpl in *.
  - rewrite (SFeqb_canon x y Ha Hb). split; [now intros -> | now intros [= ->]].
  - split; discriminate.
  - split; discriminate.
  - rewrite String.eqb_eq. split; [now intros -> | now intros [= ->]].
Qed.

Lemma seen_canon (c : cell) (seen : list cell) :
  isna c = false -> Forall (fun s => isna s = false) seen ->
  existsb (key_eqb c) seen = true <-> In (canon_key c) (map canon_key seen).
Proof.
  intros Hc Hs. rewrite existsb_exists, in_map_iff. split.
  - intros [s [Hin E]]. exists s. split; [|exact Hin].
    symmetry. apply key_eqb_canon; auto. rewrite Forall_forall in Hs. auto.
  - intros [s [E Hin]]. exists s. split; [exact Hin|].
    apply key_eqb_canon; auto. rewrite Forall_forall in Hs. auto.
Qed.

Lemma distinct_from (l seen : list cell) :
  Forall (fun s => isna s = false) seen -> NoDup (map canon_key seen) ->
  let out :=
    fold_left
      (fun seen c => if isna c || existsb (key_eqb c) seen then seen else seen ++ [c])
      l seen in
  NoDup (map canon_key out) /\
  forall x, In x (map canon_key out) <->
            In x (map canon_key seen) \/
            exists c, In c l /\ isna c = false /\ canon_key c = x.
Proof.
  revert seen. induction l as [|c t IH]; intros seen HS HN; simpl.
  - split; [exact HN|]. intros x. split; [auto|]. intros [H|[c [[] _]]]. exact H.
  - destruct (isna c) eqn:Ec; simpl.
    + destruct (IH seen HS HN) as [N I]. split; [exact N|].
      intros x. rewrite I. split.
      * intros [H|[c' (H1 & H2 & H3)]]; [auto|]. right. exists c'. auto.
      * intros [H|[c' ([<-|H1] & H2 & H3)]]; [auto | congruence |]. right. exists c'. auto.
    + destruct (existsb (key_eqb c) seen) eqn:Ee.
      * destruct (IH seen HS HN) as [N I]. split; [exact N|].
        intros x. rewrite I. split.
        -- intros [H|[c' (H1 & H2 & H3)]]; [auto|]. right. exists c'. auto.
        -- intros [H|[c' ([<-|H1] & H2 & H3)]]; [auto | | right; exists c'; auto].
           left. subst x. now apply seen_canon.
      * assert (HS' : Forall (fun s => isna s = false) (seen ++ [c])).
        { apply Forall_app. split; [exact HS | constructor; [exact Ec | constructor]]. }
        assert (HN' : NoDup (map canon_key (seen ++ [c]))).
        { rewrite map_app. simpl. apply NoDup_app; [exact HN | repeat constructor; simpl; tauto |].
          intros x Hx [<-|[]]. apply (seen_canon c seen Ec HS) in Hx. congruence. }
        destruct (IH (seen ++ [c]) HS' HN') as [N I]. split; [exact N|].
        intros x. rewrite I, map_app, in_app_iff. simpl. split.
        -- intros [[H|[<-|[]]]|[c' (H1 & H2 & H3)]]; [auto | right; exists c; auto |].
           right. exists c'. auto.
        -- intros [H|[c' ([<-|H1] & H2 & H3)]]; [auto | left; right; auto |].
           right. exists c'. auto.
Qed.

Lemma nunique_incl (l1 l2 : list cell) : incl l1 l2 -> nunique l1 <= nunique l2.
Proof.
  intros H. unfold nunique.
  destruct (distinct_from l1 [] (Forall_nil _) (NoDup_nil _)) as [N1 I1].
  destruct (distinct_from l2 [] (Forall_nil _) (NoDup_nil _)) as [N2 I2].
  cbv zeta in *.
  rewrite <- (length_map canon_key), <- (length_map canon_key (fold_left _ l2 _)).
  apply NoDup_incl_length; [exact N1|].
  intros x Hx. apply I1 in Hx. apply I2.
  destruct Hx as [[]|[c (H1 & H2 & H3)]]. right. exists c. auto.
Qed.

Lemma nunique_same (l1 l2 : list cell) : incl l1 l2 -> incl l2 l1 -> nunique l1 = nunique l2.
Proof. intros H1 H2. apply Nat.le_antisymm; now apply nunique_incl. Qed.

Lemma count_above_inv (s : DataFrame) (c : string) (t : spec_float) (n : nat) :
  count_above s c t = Ok n ->
  n = nunique (map (fun r => cell_at r "Title")
                   (filter (fun r => F64.gtb (key_of c r) t) (rows s))).
Proof.
  unfold count_above, above. intros H.
  apply rbind_Ok in H. destruct H as [sub [H1 H2]].
  apply rbind_Ok in H1. destruct H1 as [k [Hk H1]]. injection H1 as <-.
  apply rbind_Ok in H2. destruct H2 as [titles [H2 H3]]. injection H3 as <-.
  unfold column in H2. simpl in H2.
  destruct (mem "Title" (columns s)); [|discriminate]. injection H2 as <-.
  rewrite <- (float_column_keys _ _ _ Hk), map_map.
  now rewrite (mask_rows_map (fun r => F64.gtb (key_of c r) t)).
Qed.

Lemma exceeds_each (t1 t2 : spec_float) (r : Series) :
  exceeds t1 t2 r = true ->
  F64.gtb (key_of "Avg_MPO" r) t1 = true /\ F64.gtb (key_of "Avg_norm_docking" r) t2 = true.
Proof.
  unfold exceeds, key_of.
  destruct (cell_at r "Avg_MPO"); [|discriminate].
  destruct (cell_at r "Avg_norm_docking"); [|discriminate].
  intros H. now apply andb_true_iff in H.
Qed.

Lemma titles_above_same (cols : list string) (c : string) (t : spec_float)
    (l sorted : list Series) :
  In "Title" cols -> In c cols -> Permutation sorted (map (reindex cols) l) ->
  forall x,
    In x (map (fun r => cell_at r "Title")
              (filter (fun r => F64.gtb (key_of c r) t) sorted)) <->
    In x (map (fun r => cell_at r "Title") (filter (fun r => F64.gtb (key_of c r) t) l)).
Proof.
  intros HT Hc P x. rewrite !in_map_iff. split.
  - intros [o [<- Ho]]. apply filter_In in Ho. destruct Ho as [Ho Hp].
    apply (Permutation_in _ P) in Ho. apply in_map_iff in Ho. destruct Ho as [r [<- Hr]].
    exists r. rewrite cell_at_reindex by exact HT. split; [reflexivity|].
    apply filter_In. split; [exact Hr|]. now rewrite key_of_reindex in Hp.
  - intros [r [<- Hr]]. apply filter_In in Hr. destruct Hr as [Hr Hp].
    exists (reindex cols r). rewrite cell_at_reindex by exact HT. split; [reflexivity|].
    apply filter_In. split.
    + apply (Permutation_in _ (Permutation_sym P)). now apply in_map.
    + now rewrite key_of_reindex.
Qed.

Lemma arranged_has (t : template) (cols cols' : list string) (c : string) :
  arrange t cols = Ok cols' -> c = "Title" \/ In c (to_insert t) -> In c cols'.
Proof.
  intros H Hc. apply arrange_Ok in H. destruct H as (b & a & _ & _ & ->).
  apply in_or_app. right. destruct Hc as [->|Hc]; [now left|].
  right. apply in_or_app. now left.
Qed.

(** X12.  The counts of the summary, when the first stage succeeded and
    numpy's argsort answers with a valid ascending order for the two key
    vectors: the count printed for a metric is the number of distinct
    identifiers among the aggregated rows whose average for that metric is
    strictly above the threshold, whatever order the ranked file has; and the
    count printed for both metrics is never larger than either of them. *)
Theorem summary_counts_are_consistent
    (argsort : list spec_float -> list nat) (output_dir : string)
    (df processed_df s1 s2 : DataFrame) (tr : list event)
    (t1 t2 : spec_float) (unique_mpo unique_dock : nat) :
  ranked_outputs argsort output_dir df = (tr, Ok (processed_df, s1, s2)) ->
  is_argsort (rev (dropna (map (key_of "Avg_MPO") (rows processed_df))))
             (argsort (rev (dropna (map (key_of "Avg_MPO") (rows processed_df))))) = true ->
  is_argsort (rev (dropna (map (key_of "Avg_norm_docking") (rows processed_df))))
             (argsort (rev (dropna (map (key_of "Avg_norm_docking") (rows processed_df)))))
  = true ->
  count_above s1 "Avg_MPO" t1 = Ok unique_mpo ->
  count_above s2 "Avg_norm_docking" t2 = Ok unique_dock ->
  let titles := map (fun r => cell_at r "Title") in
  let unique_both := nunique (titles (filter (exceeds t1 t2) (rows processed_df))) in
  unique_mpo
  = nunique (titles (filter (fun r => F64.gtb (key_of "Avg_MPO" r) t1) (rows processed_df))) /\
  unique_dock
  = nunique (titles (filter (fun r => F64.gtb (key_of "Avg_norm_docking" r) t2)
                            (rows processed_df))) /\
  unique_both <= unique_mpo /\ unique_both <= unique_dock.
Proof.
  intros H K1 K2 N1 N2 titles unique_both.
  destruct (ranked_outputs_Ok _ _ _ _ _ _ _ H)
    as (_ & _ & (c1 & v1 & A1 & V1 & S1) & (c2 & v2 & A2 & V2 & S2) & _).
  destruct (ranked_file_full argsort mpo_first _ _ _ _ _ (or_introl eq_refl) A1 V1 S1 K1)
    as (_ & _ & R1).
  destruct (ranked_file_full argsort docking_first _ _ _ _ _ (or_intror eq_refl) A2 V2 S2 K2)
    as (_ & _ & R2).
  apply count_above_inv in N1, N2.
  assert (I1 : In "Avg_MPO" (to_insert mpo_first)) by (simpl; auto).
  assert (I2 : In "Avg_norm_docking" (to_insert docking_first)) by (simpl; auto).
  pose proof (titles_above_same c1 "Avg_MPO" t1 _ _
                (arranged_has _ _ _ "Title" A1 (or_introl eq_refl))
                (arranged_has _ _ _ "Avg_MPO" A1 (or_intror I1)) R1) as T1.
  pose proof (titles_above_same c2 "Avg_norm_docking" t2 _ _
                (arranged_has _ _ _ "Title" A2 (or_introl eq_refl))
                (arranged_has _ _ _ "Avg_norm_docking" A2 (or_intror I2)) R2)
    as T2.
  assert (E1 : unique_mpo
               = nunique (titles (filter (fun r => F64.gtb (key_of "Avg_MPO" r) t1)
                                         (rows processed_df)))).
  { rewrite N1. apply nunique_same; intros x Hx; apply T1; exact Hx. }
  assert (E2 : unique_dock
               = nunique (titles (filter (fun r => F64.gtb (key_of "Avg_norm_docking" r) t2)
                                         (rows processed_df)))).
  { rewrite N2. apply nunique_same; intros x Hx; apply T2; exact Hx. }
  split; [exact E1|]. split; [exact E2|].
  rewrite E1, E2. unfold unique_both, titles.
  split; apply nunique_incl; intros x Hx; apply in_map_iff in Hx;
    destruct Hx as [r [<- Hr]]; apply (in_map (fun r => cell_at r "Title"));
    apply filter_In in Hr;
    destruct Hr as [Hr He]; apply filter_In; (split; [exact Hr|]);
    apply exceeds_each in He; tauto.
Qed.

Lemma summary_counts_are_consistent_witness :
  count_above two_matches_by_mpo "Avg_MPO" q2 = Ok 1 /\
  count_above two_matches_by_docking "Avg_norm_docking" q1 = Ok 1 /\
  nunique (map (fun r => cell_at r "Title")
               (filter (exceeds q2 q1) (rows two_matches_aggregated))) <= 1.
Proof.
  split; [reflexivity|]. split; [reflexivity|].
  exact (proj1 (proj2 (proj2
    (summary_counts_are_consistent Npy.argsort "out" two_matches two_matches_aggregated
       two_matches_by_mpo two_matches_by_docking
       [to_csv "out/Sorted_by_Avg_MPO.csv" two_matches_by_mpo;
        to_csv "out/Sorted_by_Avg_normDocking.csv" two_matches_by_docking]
       q2 q1 1 1 eq_refl eq_refl eq_refl eq_refl eq_refl)))).
Defined.

(** ** The input path and the output directory *)

Lemma ends_with_slash_app (s : string) (c : ascii) :
  ends_with_slash (s ++ String c EmptyString) = is_sep c.
Proof.
  induction s as [|x t IH]; simpl; [reflexivity|].
  destruct (t ++ String c EmptyString)%string eqn:E; [destruct t; discriminate | exact IH].
Qed.

Lemma head_of_no_sep (f : string) : has_sep f = false -> head_of f = EmptyString.
Proof. destruct f; simpl; [reflexivity|]. now intros ->. Qed.

Lemma head_of_app_sep (d f : string) :
  has_sep f = false -> head_of (d ++ String "/" f) = (d ++ "/")%string.
Proof.
  intros H. induction d as [|c t IH]; simpl.
  - now rewrite (head_of_no_sep f H).
  - rewrite has_sep_app. simpl. rewrite orb_true_r, orb_true_r. now rewrite IH.
Qed.

Lemma all_sep_ends (s : string) :
  s <> EmptyString -> all_chars is_sep s = true -> ends_with_slash s = true.
Proof.
  induction s as [|c t IH]; [congruence|]. simpl. intros _ H.
  apply andb_true_iff in H. destruct H as [Hc Ht].
  destruct t; [exact Hc|]. apply IH; [discriminate | exact Ht].
Qed.

Lemma head_of_all_sep_app (d f : string) :
  all_chars is_sep d = true -> has_sep f = false -> head_of (d ++ f) = d.
Proof.
  intros Hd Hf. induction d as [|c t IH]; simpl.
  - now apply head_of_no_sep.
  - simpl in Hd. apply andb_true_iff in Hd. destruct Hd as [Hc Ht].
    rewrite Hc. simpl. now rewrite IH.
Qed.

(** A stripped string does not end with a stripped character. *)
Lemma rstrip_chars_end (p : ascii -> bool) (s : string) :
  rstrip_chars p s = EmptyString \/
  exists t c, rstrip_chars p s = (t ++ String c EmptyString)%string /\ p c = false.
Proof.
  induction s as [|x t IH]; simpl; [now left|].
  destruct IH as [->|[u [c [-> Hc]]]].
  - destruct (p x) eqn:E; [now left|]. right. exists EmptyString, x. auto.
  - right. destruct (u ++ String c EmptyString)%string eqn:E; [destruct u; discriminate|].
    rewrite <- E. exists (String x u), c. auto.
Qed.

Lemma rstrip_chars_fixed (p : ascii -> bool) (t : string) (c : ascii) :
  p c = false -> rstrip_chars p (t ++ String c EmptyString) = (t ++ String c EmptyString)%string.
Proof.
  intros H. induction t as [|x u IH]; simpl; [now rewrite H|].
  rewrite IH. destruct (u ++ String c EmptyString)%string eqn:E; [destruct u; discriminate|].
  reflexivity.
Qed.

Lemma rstrip_chars_app_one (p : ascii -> bool) (s : string) (c : ascii) :
  p c = true -> rstrip_chars p (s ++ String c EmptyString) = rstrip_chars p s.
Proof.
  intros H. induction s as [|x u IH]; simpl; [now rewrite H|]. now rewrite IH.
Qed.

Lemma all_sep_rstrip (s : string) :
  all_chars is_sep s = false -> rstrip_chars is_sep s <> EmptyString.
Proof.
  induction s as [|c t IH]; simpl; [discriminate|].
  intros H. destruct (rstrip_chars is_sep t) eqn:E; [|discriminate].
  destruct (is_sep c) eqn:Ec; [|discriminate].
  simpl in H. exfalso. apply IH; [exact H | reflexivity].
Qed.

Lemma app_assoc_one (t : string) (c : ascii) (f : string) :
  ((t ++ String c EmptyString) ++ f)%string = (t ++ String c f)%string.
Proof. induction t as [|x u IH]; simpl; [reflexivity|]. now rewrite IH. Qed.

(** [dirname] undoes [join] on the directories [dirname] returns. *)
Lemma dirname_join_dirname (p f : string) :
  has_sep f = false -> dirname (path_join (dirname p) f) = dirname p.
Proof.
  intros Hf. set (d := dirname p).
  assert (C : d = EmptyString \/ (d <> EmptyString /\ all_chars is_sep d = true) \/
              exists t c, d = (t ++ String c EmptyString)%string /\ is_sep c = false).
  { unfold d, dirname. destruct (all_chars is_sep (head_of p)) eqn:A.
    - destruct (head_of p) eqn:E; [now left|]. right. left. split; [discriminate | exact A].
    - right. right. destruct (rstrip_chars_end is_sep (head_of p)) as [E|[t [c [E Hc]]]].
      + exfalso. exact (all_sep_rstrip _ A E).
      + exists t, c. auto. }
  destruct C as [->|[[N A]|[t [c [-> Hc]]]]].
  - simpl. unfold dirname. now rewrite (head_of_no_sep f Hf).
  - unfold path_join. destruct d as [|x u] eqn:E; [congruence|]. rewrite <- E in *.
    rewrite (all_sep_ends d N A). unfold dirname.
    rewrite (head_of_all_sep_app d f A Hf). now rewrite A.
  - unfold path_join. destruct (t ++ String c EmptyString)%string eqn:E;
      [destruct t; discriminate|]. rewrite <- E.
    rewrite ends_with_slash_app, Hc.
    change ("/" ++ f)%string with (String "/" f).
    unfold dirname. rewrite (head_of_app_sep _ f Hf).
    assert (A : all_chars is_sep ((t ++ String c EmptyString) ++ "/") = false).
    { rewrite app_assoc_one. clear E. induction t as [|x u IH]; simpl.
      - now rewrite Hc.
      - rewrite IH. apply andb_false_r. }
    rewrite A. rewrite (rstrip_chars_app_one is_sep _ "/" eq_refl).
    now apply rstrip_chars_fixed.
Qed.

(** What a run can write: a prefix of the three files, in this order. *)
Lemma main_paths (argsort : list spec_float -> list nat)
    (re_compile : string -> option (string -> bool))
    (output_dir : string) (df : DataFrame) (benchmark_input : string) :
  exists n,
    paths_written (fst (main argsort re_compile output_dir df benchmark_input))
    = firstn n
        [path_join output_dir "Sorted_by_Avg_MPO.csv";
         path_join output_dir "Sorted_by_Avg_normDocking.csv";
         path_join output_dir ("Above_" ++ lower (strip benchmark_input) ++ "_Compounds.csv")].
Proof.
  unfold main, ranked_outputs, benchmark_filter.
  change (to_csv_in output_dir "Sorted_by_Avg_MPO.csv")
    with (fun d => emit (to_csv (path_join output_dir "Sorted_by_Avg_MPO.csv") d)).
  change (to_csv_in output_dir "Sorted_by_Avg_normDocking.csv")
    with (fun d => emit (to_csv (path_join output_dir "Sorted_by_Avg_normDocking.csv") d)).
  unfold to_csv_in.
  set (p1 := path_join output_dir "Sorted_by_Avg_MPO.csv").
  set (p2 := path_join output_dir "Sorted_by_Avg_normDocking.csv").
  set (p3 := path_join output_dir _).
  set (name := lower (strip benchmark_input)).
  unfold lift, emit.
  destruct (check_schema df); [|exists 0; reflexivity].
  cbn [pbind]. destruct (aggregate df) as [pdf|]; [|exists 0; reflexivity].
  cbn [pbind]. destruct (arrange mpo_first (columns pdf)) as [c1|]; [|exists 0; reflexivity].
  cbn [pbind]. destruct (select_columns pdf c1) as [v1|]; [|exists 0; reflexivity].
  cbn [pbind]. destruct (sort_values argsort v1 "Avg_MPO") as [s1|]; [|exists 0; reflexivity].
  cbn [pbind app].
  destruct (arrange docking_first (columns pdf)) as [c2|]; [|exists 1; reflexivity].
  cbn [pbind app]. destruct (select_columns pdf c2) as [v2|]; [|exists 1; reflexivity].
  cbn [pbind app].
  destruct (sort_values argsort v2 "Avg_norm_docking") as [s2|]; [|exists 1; reflexivity].
  cbn [pbind app].
  destruct (select_benchmark re_compile pdf name) as [sel|]; [|exists 2; reflexivity].
  cbn [pbind app]. destruct (rows sel); [exists 2; reflexivity|].
  destruct (thresholds sel) as [t|]; [|exists 2; reflexivity].
  cbn [pbind app]. destruct (better_than pdf (fst t) (snd t)) as [better|];
    [|exists 2; reflexivity].
  cbn [pbind app]. destruct (final_output better sel) as [out|]; [|exists 2; reflexivity].
  cbn [pbind app]. destruct (has_sep _); [exists 2; reflexivity|].
  cbn [pbind app].
  destruct (count_above s1 "Avg_MPO" (fst t)); [|exists 3; reflexivity].
  cbn [pbind app].
  destruct (count_above s2 "Avg_norm_docking" (snd t)); [|exists 3; reflexivity].
  cbn [pbind app].
  destruct (column better "Title"); exists 3; reflexivity.
Qed.

(** X13.  The files of a run, from the path typed at the prompt: when the
    benchmark name holds no slash, every file the run writes lies in the
    directory of the input file ([os.path.dirname] of the path [os.path.join]
    builds is that directory again), and the files written are the first
    few of the two ranked files and the filtered file, in this order and each
    at most once. *)
Theorem outputs_stay_beside_the_input
    (argsort : list spec_float -> list nat) (re_compile : string -> option (string -> bool))
    (path_answer : string) (df : DataFrame) (benchmark_answer : string) :
  has_sep (lower (strip benchmark_answer)) = false ->
  let output_dir := dirname (input_path path_answer) in
  let written :=
    paths_written (fst (script argsort re_compile path_answer df benchmark_answer)) in
  (forall p, In p written -> dirname p = output_dir) /\
  exists n,
    written
    = firstn n
        [path_join output_dir "Sorted_by_Avg_MPO.csv";
         path_join output_dir "Sorted_by_Avg_normDocking.csv";
         path_join output_dir
                   ("Above_" ++ lower (strip benchmark_answer) ++ "_Compounds.csv")].
Proof.
  intros H output_dir written.
  destruct (main_paths argsort re_compile output_dir df benchmark_answer) as [n E].
  unfold script in written. fold output_dir in written. subst written.
  split; [|exists n; exact E].
  intros p Hp. rewrite E in Hp.
  assert (Hp' : In p [path_join output_dir "Sorted_by_Avg_MPO.csv";
                      path_join output_dir "Sorted_by_Avg_normDocking.csv";
                      path_join output_dir
                        ("Above_" ++ lower (strip benchmark_answer) ++ "_Compounds.csv")]).
  { clear E. destruct n as [|[|[|[|n]]]]; cbn [firstn In] in *; tauto. }
  clear Hp. rename Hp' into Hp.
  assert (F : has_sep ("Above_" ++ lower (strip benchmark_answer) ++ "_Compounds.csv")
              = false).
  { rewrite has_sep_app, has_sep_app, H. reflexivity. }
  simpl in Hp. destruct Hp as [<-|[<-|[<-|[]]]]; unfold output_dir;
    apply dirname_join_dirname; [reflexivity | reflexivity | exact F].
Qed.

Lemma outputs_stay_beside_the_input_witness :
  input_path pasted_path = "C:/data/in.csv" /\
  paths_written (fst (script Npy.argsort Re.compile pasted_path two_groups "A"))
  = ["C:/data/Sorted_by_Avg_MPO.csv"; "C:/data/Sorted_by_Avg_normDocking.csv";
     "C:/data/Above_a_Compounds.csv"] /\
  forall p,
    In p (paths_written (fst (script Npy.argsort Re.compile pasted_path two_groups "A"))) ->
    dirname p = "C:/data".
Proof.
  split; [reflexivity|]. split; [reflexivity|].
  exact (proj1 (outputs_stay_beside_the_input Npy.argsort Re.compile pasted_path two_groups
                  "A" eq_refl)).
Defined.

Lemma replace_backslash_app (a b : string) :
  replace_backslash (a ++ b) = (replace_backslash a ++ replace_backslash b)%string.
Proof. induction a as [|c t IH]; simpl; [reflexivity|]. now rewrite IH. Qed.

Lemma is_quote_replaced (c : ascii) :
  is_quote (if Ascii.eqb c "\" then "/"%char else c) = is_quote c.
Proof.
  destruct (Ascii.eqb c "\") eqn:E; [|reflexivity].
  apply Ascii.eqb_eq in E. subst c. reflexivity.
Qed.

Lemma strip_chars_replace_backslash (s : string) :
  strip_chars is_quote (replace_backslash s) = replace_backslash (strip_chars is_quote s).
Proof.
  unfold strip_chars.
  rewrite (lstrip_chars_map is_quote _ replace_backslash s is_quote_replaced eq_refl
             (fun c t => eq_refl)).
  exact (rstrip_chars_map is_quote _ replace_backslash _ is_quote_replaced eq_refl
           (fun c t => eq_refl)).
Qed.

Lemma strip_chars_fixed (p : ascii -> bool) (c : ascii) (t : string) (d : ascii) :
  p c = false -> p d = false ->
  strip_chars p (String c (t ++ String d EmptyString))
  = String c (t ++ String d EmptyString).
Proof.
  intros Hc Hd. unfold strip_chars. simpl. rewrite Hc.
  exact (rstrip_chars_fixed p (String c t) d Hd).
Qed.

Lemma lstrip_chars_keeps (p q : ascii -> bool) (s : string) :
  all_chars q s = true -> all_chars q (lstrip_chars p s) = true.
Proof.
  induction s as [|c t IH]; simpl; [reflexivity|].
  intros H. destruct (p c); [|exact H].
  apply andb_true_iff in H. tauto.
Qed.

Lemma rstrip_chars_keeps (p q : ascii -> bool) (s : string) :
  all_chars q s = true -> all_chars q (rstrip_chars p s) = true.
Proof.
  induction s as [|c t IH]; simpl; [reflexivity|].
  intros H. apply andb_true_iff in H. destruct H as [Hc Ht]. specialize (IH Ht).
  destruct (rstrip_chars p t).
  - destruct (p c); simpl; [reflexivity | now rewrite Hc].
  - simpl in *. now rewrite Hc.
Qed.

Lemma replace_backslash_clean (s : string) :
  all_chars (fun c => negb (Ascii.eqb c "\")) (replace_backslash s) = true.
Proof.
  induction s as [|c t IH]; simpl; [reflexivity|].
  rewrite IH. destruct (Ascii.eqb c "\") eqn:E; [reflexivity | now rewrite E].
Qed.

(** X14.  Line 46 on the answer to the path prompt: the path it yields never
    holds a backslash; and a path typed between double quotes, with blanks
    around the quotes, is read as the text between the quotes with every
    backslash turned into a slash (blanks inside the quotes are kept: the
    white space is stripped before the quotes are). *)
Theorem input_path_unquotes_and_turns_backslashes (answer : string) :
  all_chars (fun c => negb (Ascii.eqb c "\")) (input_path answer) = true /\
  forall p1 p2 s,
    blank p1 = true -> blank p2 = true -> strip_chars is_quote s = s ->
    input_path (p1 ++ String "034" (s ++ String "034" p2)) = replace_backslash s.
Proof.
  split.
  - unfold input_path, strip_chars.
    apply rstrip_chars_keeps, lstrip_chars_keeps, replace_backslash_clean.
  - intros p1 p2 s H1 H2 Hs. unfold input_path.
    assert (E : strip (p1 ++ String "034" (s ++ String "034" p2))
                = String "034" (s ++ String "034" EmptyString)).
    { rewrite strip_is.
      replace (p1 ++ String "034" (s ++ String "034" p2))%string
        with (p1 ++ String "034" (s ++ String "034" EmptyString) ++ p2)%string.
      - rewrite (strip_chars_padded is_space p1 _ p2 H1 H2).
        now apply strip_chars_fixed.
      - f_equal. simpl. f_equal. apply app_assoc_one. }
    rewrite E. simpl replace_backslash. rewrite replace_backslash_app. simpl.
    unfold strip_chars at 1. simpl lstrip_chars.
    change (rstrip_chars is_quote
              (lstrip_chars is_quote (replace_backslash s ++ String "034" EmptyString)))
      with (strip_chars is_quote (replace_backslash s ++ String "034" EmptyString)).
    rewrite (strip_chars_app_all is_quote _ (String "034" EmptyString) eq_refl).
    now rewrite strip_chars_replace_backslash, Hs.
Qed.

Lemma input_path_unquotes_and_turns_backslashes_witness :
  input_path (" " ++ String "034" ("C:\data\in.csv" ++ String "034" " "))
  = "C:/data/in.csv".
Proof.
  exact (proj2 (input_path_unquotes_and_turns_backslashes EmptyString)
               " " " " "C:\data\in.csv" eq_refl eq_refl eq_refl).
Defined.

(** ** Aggregating an aggregated table *)

Lemma groupby_Title_fold (df : DataFrame) :
  groupby_Title df = fold_left group_step (rows df) [].
Proof. reflexivity. Qed.

Lemma key_eqb_refl (k : cell) : isna k = false -> key_eqb k k = true.
Proof. intros H. now apply key_eqb_canon. Qed.

Lemma add_to_group_well_grouped (prev : list cell) (gs : list (cell * list Series))
    (t : cell) (r : Series) :
  well_grouped prev gs -> lookup "Title" (items r) = Some t -> isna t = false ->
  Forall (fun k' => key_eqb k' t = false) prev ->
  well_grouped prev (add_to_group t r gs).
Proof.
  revert prev. induction gs as [|[k g] rest IH]; intros prev W HT HN HP; simpl.
  - split; [exists r, []; auto|]. split; [|exact I].
    constructor; [|constructor]. exists t. auto using key_eqb_refl.
  - destruct W as ((r0 & g' & -> & H0) & HF & W).
    destruct (key_eqb k t) eqn:E; simpl.
    + split; [exists r0, (g' ++ [r]); auto|]. split; [|exact W].
      change (r0 :: g' ++ [r]) with ((r0 :: g') ++ [r]).
      apply Forall_app. split; [exact HF|]. constructor; [|constructor].
      exists t. auto.
    + split; [exists r0, g'; auto|]. split; [exact HF|].
      apply IH; auto. apply Forall_app. split; [exact HP|]. constructor; [exact E|constructor].
Qed.

Lemma groupby_Title_well_grouped (df : DataFrame) : well_grouped [] (groupby_Title df).
Proof.
  rewrite groupby_Title_fold.
  assert (G : forall l acc, well_grouped [] acc -> well_grouped [] (fold_left group_step l acc)).
  { induction l as [|r t IH]; intros acc W; simpl; [exact W|].
    apply IH. unfold group_step. destruct (lookup "Title" (items r)) as [k|] eqn:E; [|exact W].
    destruct (isna k) eqn:N; [exact W|].
    apply add_to_group_well_grouped; auto. }
  apply G. exact I.
Qed.

Lemma add_to_group_miss (gs : list (cell * list Series)) (t : cell) (r : Series) :
  Forall (fun k' => key_eqb k' t = false) (map fst gs) ->
  add_to_group t r gs = gs ++ [(t, [r])].
Proof.
  induction gs as [|[k g] rest IH]; simpl; intros H; [reflexivity|].
  inversion H as [|? ? Hk Hr]; subst. rewrite Hk. now rewrite IH.
Qed.

Lemma add_to_group_last (gs : list (cell * list Series)) (k : cell) (acc : list Series)
    (t : cell) (r : Series) :
  Forall (fun k' => key_eqb k' t = false) (map fst gs) -> key_eqb k t = true ->
  add_to_group t r (gs ++ [(k, acc)]) = gs ++ [(k, acc ++ [r])].
Proof.
  induction gs as [|[k' g] rest IH]; simpl; intros H E; [now rewrite E|].
  inversion H as [|? ? Hk Hr]; subst. rewrite Hk. now rewrite IH.
Qed.

Lemma fold_group_rest (done : list (cell * list Series)) (k : cell) (g acc : list Series) :
  Forall (member_ok (map fst done) k) g ->
  fold_left group_step g (done ++ [(k, acc)]) = done ++ [(k, acc ++ g)].
Proof.
  revert acc. induction g as [|r g' IH]; intros acc H; simpl.
  - now rewrite app_nil_r.
  - inversion H as [|? ? Hr HR]; subst. destruct Hr as (t & HT & HN & HK & HP).
    replace (group_step (done ++ [(k, acc)]) r) with (done ++ [(k, acc ++ [r])]).
    + rewrite (IH (acc ++ [r]) HR). now rewrite <- app_assoc.
    + unfold group_step. rewrite HT, HN. symmetry. now apply add_to_group_last.
Qed.

(** Grouping the members of well-formed groups gives the groups back. *)
Lemma regroup (gs done : list (cell * list Series)) :
  well_grouped (map fst done) gs -> fold_left group_step (members gs) done = done ++ gs.
Proof.
  revert done. induction gs as [|[k g] rest IH]; intros done W.
  - simpl. now rewrite app_nil_r.
  - destruct W as ((r & g' & -> & H0) & HF & W).
    change (members ((k, r :: g') :: rest)) with ((r :: g') ++ members rest).
    rewrite fold_left_app.
    inversion HF as [|? ? Hr HR]; subst. destruct Hr as (t & HT & HN & HK & HP).
    assert (t = k) by congruence. subst t.
    assert (E : fold_left group_step (r :: g') done = done ++ [(k, r :: g')]).
    { simpl. replace (group_step done r) with (done ++ [(k, [r])]).
      - exact (fold_group_rest done k g' [r] HR).
      - unfold group_step. rewrite H0, HN. symmetry. now apply add_to_group_miss. }
    rewrite E, IH; [now rewrite <- app_assoc|].
    now rewrite map_app.
Qed.

Lemma well_grouped_rekeyed (prev : list cell) (gs : list (cell * list Series))
    (bs : list (list Series)) :
  well_grouped prev gs ->
  Forall2 (fun kg b => Forall2 same_title (snd kg) b) gs bs ->
  well_grouped prev (rekeyed gs bs).
Proof.
  intros W F. revert prev W. unfold rekeyed.
  induction F as [|[k g] b gs' bs' Hb F IH]; intros prev W; simpl; [exact I|].
  destruct W as ((r & g' & -> & H0) & HF & W). simpl in Hb.
  split; [|split; [|now apply IH]].
  - inversion Hb as [|? o ? b' Ho Hb']; subst. exists o, b'. split; [reflexivity|].
    now rewrite Ho.
  - clear H0 W IH F. revert HF Hb. generalize (r :: g'). intros g0 HF Hb.
    induction Hb as [|x o g1 b1 Ho Hb IHb]; [constructor|].
    inversion HF as [|? ? Hx HF']; subst. destruct Hx as (t & HT & HR).
    constructor; [|now apply IHb].
    exists t. split; [|exact HR]. now rewrite Ho.
Qed.

Lemma members_rekeyed (gs : list (cell * list Series)) (bs : list (list Series)) :
  List.length gs = List.length bs -> members (rekeyed gs bs) = List.concat bs.
Proof.
  unfold members, rekeyed. revert bs.
  induction gs as [|kg gs' IH]; intros [|b bs'] H; try discriminate; [reflexivity|].
  simpl. f_equal. apply IH. now injection H.
Qed.

Lemma process_group_block (cols : list string) (g : list Series) (here : list item) :
  process_group cols g = Ok here -> existsb is_group here = false ->
  exists b, block_of g b /\ here = map Row b.
Proof.
  intros H G. destruct g as [|r1 [|r2 [|r3 t]]];
    try (simpl in H; injection H as <-; discriminate G).
  unfold process_group in H.
  apply rbind_Ok in H. destruct H as [a1 [H1 H]].
  apply rbind_Ok in H. destruct H as [a2 [H2 H]].
  apply rbind_Ok in H. destruct H as [a3 [H3 H]].
  apply rbind_Ok in H. destruct H as [a4 [H4 H]].
  injection H as <-. exists [tag r1 a1 a2 a3 a4; tag r2 a1 a2 a3 a4].
  split; [|reflexivity].
  exists r1, r2, a1, a2, a3, a4. auto 10.
Qed.

Lemma process_groups_blocks (cols : list string) (gs : list (cell * list Series))
    (l : list item) :
  process_groups cols gs = Ok l -> existsb is_group l = false ->
  exists bs, Forall2 (fun kg b => block_of (snd kg) b) gs bs /\
             series_of l = List.concat bs.
Proof.
  revert l. induction gs as [|[k g] rest IH]; simpl; intros l H G.
  - injection H as <-. exists []. split; [constructor | reflexivity].
  - apply rbind_Ok in H. destruct H as [here [Hh H]].
    apply rbind_Ok in H. destruct H as [more [Hm H]].
    injection H as <-. rewrite existsb_app in G. apply orb_false_iff in G.
    destruct G as [G1 G2]. destruct (IH more Hm G2) as [bs [F E]].
    destruct (process_group_block _ _ _ Hh G1) as [b [B ->]].
    exists (b :: bs). split; [constructor; assumption|].
    simpl. rewrite <- E. clear. induction b as [|x t IH]; simpl; [reflexivity|].
    now rewrite IH.
Qed.

Lemma lookup_reindex (cols : list string) (s : Series) (c : string) :
  In c cols -> lookup c (items (reindex cols s)) = Some (cell_at s c).
Proof. intros H. unfold reindex, cell_at. simpl. now rewrite lookup_tabulate. Qed.

Lemma assoc_set_same (c : string) (v : cell) (l : list (string * cell)) :
  lookup c l = Some v -> assoc_set c v l = l.
Proof.
  induction l as [|[k x] t IH]; simpl; [discriminate|].
  destruct (String.eqb k c) eqn:E.
  - now intros [= ->].
  - intros H. now rewrite IH.
Qed.

Lemma setitem_same (s : Series) (c : string) (v : cell) :
  lookup c (items s) = Some v -> setitem s c v = s.
Proof.
  intros H. unfold setitem. rewrite (assoc_set_same _ _ _ H). now destruct s.
Qed.

Lemma reindex_reindex (cols : list string) (s : Series) :
  reindex cols (reindex cols s) = reindex cols s.
Proof.
  unfold reindex at 1. simpl name. unfold reindex at 2. f_equal.
  apply map_ext_in. intros c Hc. now rewrite (lookup_reindex cols s c Hc).
Qed.

Lemma union_index_absorb (acc labels : list string) :
  (forall c, In c labels -> In c acc) -> union_index acc labels = acc.
Proof.
  unfold union_index. revert acc. induction labels as [|c t IH]; intros acc H; simpl;
    [reflexivity|].
  rewrite (proj2 (mem_In c acc)) by (apply H; now left).
  apply IH. intros x Hx. apply H. now right.
Qed.

Lemma union_index_fresh (acc labels : list string) :
  NoDup (acc ++ labels) -> union_index acc labels = acc ++ labels.
Proof.
  unfold union_index. revert acc. induction labels as [|c t IH]; intros acc H; simpl.
  - now rewrite app_nil_r.
  - assert (M : mem c acc = false).
    { apply mem_false. intros Hc. apply NoDup_remove_2 in H. apply H.
      apply in_or_app. now left. }
    rewrite M. rewrite IH; rewrite <- app_assoc; [reflexivity | exact H].
Qed.

Lemma combined_columns_uniform (cols : list string) (l : list Series) :
  NoDup cols -> l <> [] -> Forall (fun o => index o = cols) l -> combined_columns l = cols.
Proof.
  intros ND NE F. unfold combined_columns.
  destruct l as [|o t]; [congruence|]. inversion F as [|? ? Ho Ht]; subst. simpl.
  rewrite (union_index_fresh [] (index o) ND). simpl.
  clear NE F. induction Ht as [|x u Hx Hu IH]; simpl; [reflexivity|].
  rewrite Hx. rewrite union_index_absorb by auto. exact IH.
Qed.

Lemma index_reindex (cols : list string) (s : Series) : index (reindex cols s) = cols.
Proof. unfold index, reindex. simpl. rewrite map_map. simpl. apply map_id. Qed.

Lemma series_of_rows (l : list Series) : series_of (map Row l) = l.
Proof. induction l as [|x t IH]; simpl; [reflexivity | now rewrite IH]. Qed.

Lemma no_group_in_rows (l : list Series) : existsb is_group (map Row l) = false.
Proof. induction l as [|x t IH]; simpl; [reflexivity | exact IH]. Qed.

Lemma process_groups_settled (cols : list string) (gs : list (cell * list Series)) :
  Forall (fun kg => process_group cols (snd kg) = Ok (map Row (snd kg))) gs ->
  process_groups cols gs = Ok (map Row (members gs)).
Proof.
  induction 1 as [|[k g] rest H F IH]; [reflexivity|].
  simpl in *. rewrite H. simpl. rewrite IH. simpl.
  unfold members. simpl. now rewrite map_app.
Qed.

Lemma getitem_reindex_tag (cols : list string) (r : Series) (a1 a2 a3 a4 : cell)
    (c : string) (v : cell) :
  In c cols -> ~ In c derived -> getitem r c = Ok v ->
  getitem (reindex cols (tag r a1 a2 a3 a4)) c = Ok v.
Proof.
  intros Hc Hd H. unfold getitem. rewrite (lookup_reindex _ _ _ Hc).
  unfold cell_at. rewrite (tag_frame r a1 a2 a3 a4 c Hd).
  unfold getitem in H. destruct (lookup c (items r)); [exact H | discriminate].
Qed.

Lemma average_getitem (row1 row2 : Series) (c : string) (v : cell) :
  average row1 row2 c = Ok v ->
  exists x y, getitem row1 c = Ok x /\ getitem row2 c = Ok y.
Proof.
  unfold average. intros H.
  apply rbind_Ok in H. destruct H as [x [Hx H]].
  apply rbind_Ok in H. destruct H as [y [Hy H]]. eauto.
Qed.

Lemma getitem_In_index (r : Series) (c : string) (v : cell) :
  getitem r c = Ok v -> In c (index r).
Proof.
  unfold getitem. intros H. apply lookup_In_index.
  destruct (lookup c (items r)); [eauto | discriminate].
Qed.

(** A block, realigned on columns that hold its labels, is left as it is by
    the loop. *)
Lemma block_settled (cols cols' : list string) (g b : list Series) :
  block_of g b ->
  (forall o c, In o b -> In c (index o) -> In c cols) ->
  process_group cols' (map (reindex cols) b) = Ok (map Row (map (reindex cols) b)).
Proof.
  intros (r1 & r2 & a1 & a2 & a3 & a4 & -> & -> & H1 & H2 & H3 & H4) HC.
  set (o1 := reindex cols (tag r1 a1 a2 a3 a4)).
  set (o2 := reindex cols (tag r2 a1 a2 a3 a4)).
  destruct (average_getitem _ _ _ _ H1) as (m1 & m2 & Gm1 & Gm2).
  destruct (average_getitem _ _ _ _ H3) as (d1 & d2 & Gd1 & Gd2).
  assert (IC : forall r c, r = r1 \/ r = r2 ->
                 In c derived \/ In c (index r) -> In c cols).
  { intros r c Hr Hc. apply (HC (tag r a1 a2 a3 a4)).
    - destruct Hr as [->| ->]; simpl; auto.
    - now apply tag_index. }
  assert (ND1 : ~ In "MPO_score" derived) by (simpl; intuition discriminate).
  assert (ND2 : ~ In "norm_docking_score" derived) by (simpl; intuition discriminate).
  assert (S : forall r c v, r = r1 \/ r = r2 -> ~ In c derived -> getitem r c = Ok v ->
                getitem (reindex cols (tag r a1 a2 a3 a4)) c = Ok v).
  { intros r c v Hr Hd Hg. apply getitem_reindex_tag; auto.
    apply (IC r c Hr). right. exact (getitem_In_index _ _ _ Hg). }
  assert (A1 : average o1 o2 "MPO_score" = Ok a1).
  { rewrite <- H1. unfold average, o1, o2.
    now rewrite (S r1 _ _ (or_introl eq_refl) ND1 Gm1), (S r2 _ _ (or_intror eq_refl) ND1 Gm2),
      Gm1, Gm2. }
  assert (A2 : delta o1 o2 "MPO_score" = Ok a2).
  { rewrite <- H2. unfold delta, o1, o2.
    now rewrite (S r1 _ _ (or_introl eq_refl) ND1 Gm1), (S r2 _ _ (or_intror eq_refl) ND1 Gm2),
      Gm1, Gm2. }
  assert (A3 : average o1 o2 "norm_docking_score" = Ok a3).
  { rewrite <- H3. unfold average, o1, o2.
    now rewrite (S r1 _ _ (or_introl eq_refl) ND2 Gd1), (S r2 _ _ (or_intror eq_refl) ND2 Gd2),
      Gd1, Gd2. }
  assert (A4 : delta o1 o2 "norm_docking_score" = Ok a4).
  { rewrite <- H4. unfold delta, o1, o2.
    now rewrite (S r1 _ _ (or_introl eq_refl) ND2 Gd1), (S r2 _ _ (or_intror eq_refl) ND2 Gd2),
      Gd1, Gd2. }
  assert (T : forall r, r = r1 \/ r = r2 ->
                tag (reindex cols (tag r a1 a2 a3 a4)) a1 a2 a3 a4
                = reindex cols (tag r a1 a2 a3 a4)).
  { intros r Hr. destruct (tag_fields r a1 a2 a3 a4) as (F1 & F2 & F3 & F4).
    assert (L : forall c v, In c derived -> getitem (tag r a1 a2 a3 a4) c = Ok v ->
                  lookup c (items (reindex cols (tag r a1 a2 a3 a4))) = Some v).
    { intros c v Hc Hg. rewrite lookup_reindex by (apply (IC r c Hr); now left).
      now rewrite (getitem_cell_at _ _ _ Hg). }
    unfold tag at 1.
    rewrite (setitem_same _ "Avg_MPO" a1) by (apply L; [simpl; auto | exact F1]).
    rewrite (setitem_same _ "Delta_MPO" a2) by (apply L; [simpl; auto | exact F2]).
    rewrite (setitem_same _ "Avg_norm_docking" a3) by (apply L; [simpl; auto | exact F3]).
    now rewrite (setitem_same _ "Delta_norm_docking" a4)
      by (apply L; [simpl; auto 6 | exact F4]). }
  simpl map. fold o1 o2. unfold process_group.
  rewrite A1, A2, A3, A4. simpl.
  unfold o1, o2. now rewrite (T r1 (or_introl eq_refl)), (T r2 (or_intror eq_refl)).
Qed.

Lemma block_same_title (cols : list string) (g b : list Series) :
  block_of g b -> In "Title" cols -> Forall (fun r => titled r = true) g ->
  Forall2 same_title g (map (reindex cols) b).
Proof.
  intros (r1 & r2 & a1 & a2 & a3 & a4 & -> & -> & _) HT HG.
  assert (ST : forall r, titled r = true ->
                 same_title r (reindex cols (tag r a1 a2 a3 a4))).
  { intros r Hr. unfold same_title. rewrite (lookup_reindex _ _ _ HT).
    unfold cell_at. rewrite tag_frame by (simpl; intuition discriminate).
    unfold titled in Hr. destruct (lookup "Title" (items r)); [reflexivity | discriminate]. }
  inversion HG as [|? ? T1 HG']; subst. inversion HG' as [|? ? T2 _]; subst.
  simpl. repeat constructor; auto.
Qed.

Lemma blocks_same_title (cols : list string) (gs : list (cell * list Series))
    (bs : list (list Series)) :
  Forall2 (fun kg b => block_of (snd kg) b) gs bs ->
  Forall (fun kg => Forall (fun r => titled r = true) (snd kg)) gs ->
  (forall b o c, In b bs -> In o b -> In c (index o) -> In c cols) ->
  Forall2 (fun kg b => Forall2 same_title (snd kg) b) gs (map (map (reindex cols)) bs).
Proof.
  induction 1 as [|[k g] b gs0 bs0 B F IH]; intros TG IC; simpl; constructor.
  - simpl. inversion TG as [|? ? Tg _]; subst. simpl in Tg, B.
    apply block_same_title; auto.
    destruct B as (r1 & r2 & a1 & a2 & a3 & a4 & -> & -> & _).
    apply (IC _ (tag r1 a1 a2 a3 a4) "Title" (or_introl eq_refl)); [simpl; auto|].
    apply tag_index. right. inversion Tg as [|? ? T1 _]; subst.
    unfold titled in T1. apply lookup_In_index.
    destruct (lookup "Title" (items r1)); [eauto | discriminate].
  - apply IH.
    + now inversion TG.
    + intros b0 o c Hb. apply (IC b0 o c). now right.
Qed.

Lemma blocks_settled (cols : list string) (gs : list (cell * list Series))
    (bs : list (list Series)) :
  Forall2 (fun kg b => block_of (snd kg) b) gs bs ->
  (forall b o c, In b bs -> In o b -> In c (index o) -> In c cols) ->
  Forall (fun kg => process_group cols (snd kg) = Ok (map Row (snd kg)))
         (rekeyed gs (map (map (reindex cols)) bs)).
Proof.
  unfold rekeyed.
  induction 1 as [|[k g] b gs0 bs0 B F IH]; intros IC; simpl; constructor.
  - simpl in *. apply (block_settled cols cols g b B).
    intros o c Ho Hc. apply (IC b o c); [now left | exact Ho | exact Hc].
  - apply IH. intros b0 o c Hb. apply (IC b0 o c). now right.
Qed.

Lemma blocks_are_tagged_members (gs : list (cell * list Series)) (bs : list (list Series))
    (s : Series) :
  Forall2 (fun kg b => block_of (snd kg) b) gs bs -> In s (List.concat bs) ->
  exists r a1 a2 a3 a4, In r (members gs) /\ s = tag r a1 a2 a3 a4.
Proof.
  unfold members.
  induction 1 as [|[k g] b gs0 bs0 B F IH]; simpl; [tauto|].
  intros H. apply in_app_or in H. destruct H as [H|H].
  - simpl in B. destruct B as (r1 & r2 & a1 & a2 & a3 & a4 & -> & -> & _).
    destruct H as [<-|[<-|[]]]; [exists r1 | exists r2]; exists a1, a2, a3, a4;
      simpl; auto.
  - destruct (IH H) as (r & a1 & a2 & a3 & a4 & Hr & E).
    exists r, a1, a2, a3, a4. split; [|exact E]. apply in_or_app. now right.
Qed.

(** X15.  The aggregation leaves its own result as it is: when the
    aggregated table of a table exists and has a row, aggregating that table
    again (its rows regrouped by identifier, every pair averaged anew, the
    four derived fields overwritten) gives the same table, with the same rows,
    labels, columns and values.  An aggregated table without rows has no
    column, and grouping it by [Title] raises [KeyError]. *)
Theorem aggregate_is_idempotent (df processed_df : DataFrame) :
  aggregate df = Ok processed_df ->
  (rows processed_df <> [] -> aggregate processed_df = Ok processed_df) /\
  (rows processed_df = [] -> aggregate processed_df = Raise (KeyError "Title")).
Proof.
  intros HA. pose proof (aggregate_columns_NoDup _ _ HA) as ND.
  unfold aggregate in HA. apply rbind_Ok in HA. destruct HA as [l [HL HD]].
  apply DataFrame_of_list_Ok in HD. destruct HD as [NG ->].
  apply processed_rows_Ok in HL. destruct HL as [_ HL].
  destruct (process_groups_blocks _ _ _ HL NG) as [bs [FB ES]].
  set (cols := combined_columns (series_of l)) in *. simpl columns in ND.
  simpl rows.
  assert (C : series_of l = [] \/ exists s0, In s0 (series_of l))
    by (destruct (series_of l); [now left | right; eexists; now left]).
  destruct C as [EL|[s0 I0]].
  { unfold cols. rewrite EL. split; [intros H; now elim H | intros _; reflexivity]. }
  split; [intros _ | intros H; apply map_eq_nil in H; rewrite H in I0; destruct I0].
  assert (IC : forall b o c, In b bs -> In o b -> In c (index o) -> In c cols).
  { intros b o c Hb Ho Hc. apply In_combined_columns. exists o. split; [|exact Hc].
    rewrite ES. apply in_concat. eauto. }
  assert (HT : In "Title" cols).
  { assert (I1 : In s0 (List.concat bs)) by (rewrite <- ES; exact I0).
    destruct (blocks_are_tagged_members _ _ _ FB I1) as (r & a1 & a2 & a3 & a4 & Hr & E).
    apply In_combined_columns. exists s0. split; [exact I0|].
    rewrite E. apply tag_index. right. apply member_in_table in Hr. destruct Hr as [_ Hr].
    unfold titled in Hr. apply lookup_In_index.
    destruct (lookup "Title" (items r)); [eauto | discriminate]. }
  assert (TG : Forall (fun kg => Forall (fun r => titled r = true) (snd kg))
                      (groupby_Title df)).
  { apply Forall_forall. intros [k g] Hkg. apply Forall_forall. intros r Hr.
    assert (M : In r (members (groupby_Title df))).
    { unfold members. apply in_concat. exists g. split; [|exact Hr].
      apply in_map_iff. exists (k, g). auto. }
    apply member_in_table in M. tauto. }
  pose proof (groupby_Title_well_grouped df) as WG.
  pose proof (blocks_same_title cols _ _ FB TG IC) as ST.
  pose proof (blocks_settled cols _ _ FB IC) as SB.
  set (bs' := map (map (reindex cols)) bs) in *.
  assert (RW : map (reindex cols) (series_of l) = List.concat bs').
  { rewrite ES. unfold bs'. now rewrite concat_map. }
  assert (LEN : List.length (groupby_Title df) = List.length bs').
  { unfold bs'. rewrite length_map. exact (Forall2_length FB). }
  assert (GB : groupby_Title (mkFrame cols (map (reindex cols) (series_of l)))
               = rekeyed (groupby_Title df) bs').
  { rewrite groupby_Title_fold. simpl rows.
    rewrite RW, <- (members_rekeyed (groupby_Title df) bs' LEN).
    apply (regroup _ []). simpl.
    apply well_grouped_rekeyed; [exact WG | exact ST]. }
  unfold aggregate. rewrite processed_rows_titled by exact HT. simpl columns.
  rewrite GB, (process_groups_settled _ _ SB). simpl rbind.
  rewrite (members_rekeyed _ bs' LEN), <- RW.
  unfold DataFrame_of_list. rewrite no_group_in_rows, series_of_rows.
  assert (CC : combined_columns (map (reindex cols) (series_of l)) = cols).
  { apply combined_columns_uniform;
      [exact ND | intros H; apply map_eq_nil in H; rewrite H in I0; destruct I0 |].
    apply Forall_forall. intros o Ho. apply in_map_iff in Ho.
    destruct Ho as [s [<- _]]. apply index_reindex. }
  rewrite CC. f_equal. f_equal. rewrite map_map. apply map_ext.
  intros s. apply reindex_reindex.
Qed.

Lemma aggregate_is_idempotent_witness :
  aggregate two_pairs = Ok two_pairs_aggregated /\
  aggregate two_pairs_aggregated = Ok two_pairs_aggregated /\
  aggregate header_only = Ok (mkFrame [] []) /\
  aggregate (mkFrame [] []) = Raise (KeyError "Title").
Proof.
  split; [reflexivity|]. split.
  - apply (proj1 (aggregate_is_idempotent two_pairs two_pairs_aggregated eq_refl)).
    discriminate.
  - split; [reflexivity|].
    exact (proj2 (aggregate_is_idempotent header_only (mkFrame [] []) eq_refl) eq_refl).
Defined.

(** ** Plain benchmark names *)

Lemma match_here_prefix (pat s : string) :
  Re.has "." pat = false -> Re.match_here pat s = String.prefix pat s.
Proof.
  revert s. induction pat as [|p pt IH]; intros s H.
  - destruct s; reflexivity.
  - destruct s as [|c ct]; [reflexivity|].
    simpl in H. apply orb_false_iff in H. destruct H as [Hp Ht].
    simpl. rewrite Hp, (IH ct Ht).
    destruct (ascii_dec p c) as [->|N].
    + now rewrite Ascii.eqb_refl.
    + apply Ascii.eqb_neq in N. now rewrite N.
Qed.

Lemma search_is_substring (pat s : string) :
  Re.has "." pat = false -> Re.search pat s = is_substring pat s.
Proof.
  intros H. induction s as [|c t IH]; simpl.
  - now rewrite (match_here_prefix pat EmptyString H).
  - now rewrite (match_here_prefix pat (String c t) H), IH.
Qed.

(** X16.  A benchmark name without any character that is special in a
    regular expression is matched as plain text: the rows line 111 selects
    are exactly the rows of the aggregated table whose identifier is text
    that, lower-cased, contains the name; a row whose identifier is not text
    is never selected. *)
Theorem plain_name_selects_by_substring
    (processed_df selection : DataFrame) (benchmark_name : string) :
  Re.in_fragment benchmark_name = true -> Re.has "." benchmark_name = false ->
  select_benchmark Re.compile processed_df benchmark_name = Ok selection ->
  columns selection = columns processed_df /\
  rows selection
  = filter (fun r => match cell_at r "Title" with
                     | Str title => is_substring benchmark_name (lower title)
                     | Num _ => false
                     end)
           (rows processed_df).
Proof.
  intros HF HD H. unfold select_benchmark in H.
  apply rbind_Ok in H. destruct H as [titles [HT H]].
  apply rbind_Ok in H. destruct H as [mask [HM H]]. injection H as <-.
  split; [reflexivity|]. simpl rows.
  unfold column in HT. destruct (mem "Title" (columns processed_df)); [|discriminate].
  injection HT as <-. unfold str_lower_contains, Re.compile in HM. rewrite HF in HM.
  destruct (forallb is_num _); [discriminate|]. injection HM as <-.
  rewrite map_map.
  rewrite (mask_rows_map (fun r => match cell_at r "Title" with
                                   | Str s => Re.search benchmark_name (lower s)
                                   | Num _ => false
                                   end)).
  apply filter_ext. intros r. destruct (cell_at r "Title"); [reflexivity|].
  now apply search_is_substring.
Qed.

Lemma plain_name_selects_by_substring_witness :
  exists selection,
    select_benchmark Re.compile two_matches_aggregated "xy" = Ok selection /\
    map name (rows selection) = [2; 3] /\
    rows selection
    = filter (fun r => match cell_at r "Title" with
                       | Str title => is_substring "xy" (lower title)
                       | Num _ => false
                       end)
             (rows two_matches_aggregated).
Proof.
  eexists. split; [reflexivity|]. split; [reflexivity|].
  exact (proj2 (plain_name_selects_by_substring two_matches_aggregated _ "xy"
                  eq_refl eq_refl eq_refl)).
Defined.

(** ** The columns of the aggregated table *)

Lemma index_assoc_set (c : string) (v : cell) (l : list (string * cell)) :
  map fst (assoc_set c v l) = if mem c (map fst l) then map fst l else map fst l ++ [c].
Proof.
  unfold mem. induction l as [|[k x] t IH]; simpl; [reflexivity|].
  rewrite (String.eqb_sym c k). destruct (String.eqb k c); simpl; [reflexivity|].
  rewrite IH. now destruct (existsb (String.eqb c) (map fst t)).
Qed.

Lemma index_setitem (s : Series) (c : string) (v : cell) :
  index (setitem s c v) = union_index (index s) [c].
Proof. unfold index, setitem, union_index. simpl. apply index_assoc_set. Qed.

Lemma index_tag (row : Series) (a b c d : cell) :
  index (tag row a b c d) = union_index (index row) derived.
Proof.
  unfold tag. rewrite !index_setitem. reflexivity.
Qed.

(** X17.  The columns of the aggregated table, for a table as [read_csv]
    returns it (every row carries exactly the columns of the table, no column
    name twice) with at least one pair: they are the columns of the input, in
    their order, followed by those of [Avg_MPO], [Delta_MPO],
    [Avg_norm_docking], [Delta_norm_docking] that the input does not have, in
    this order; a derived column the input already has stays where it is. *)
Theorem aggregated_columns_are_input_then_derived (df processed_df : DataFrame) :
  NoDup (columns df) ->
  Forall (fun r => index r = columns df) (rows df) ->
  aggregate df = Ok processed_df -> rows processed_df <> [] ->
  columns processed_df = union_index (columns df) derived /\
  ((forall c, In c derived -> ~ In c (columns df)) ->
   columns processed_df = columns df ++ derived).
Proof.
  intros ND HU HA NE.
  assert (E : columns processed_df = union_index (columns df) derived).
  { unfold aggregate in HA. apply rbind_Ok in HA. destruct HA as [l [HL HD]].
    apply DataFrame_of_list_Ok in HD. destruct HD as [NG ->].
    apply processed_rows_Ok in HL. destruct HL as [_ HL].
    destruct (process_groups_blocks _ _ _ HL NG) as [bs [FB ES]].
    simpl columns. simpl rows in NE. apply combined_columns_uniform.
    - now apply NoDup_union_index.
    - intros H. apply NE. now rewrite H.
    - apply Forall_forall. intros s Hs. rewrite ES in Hs.
      destruct (blocks_are_tagged_members _ _ _ FB Hs) as (r & a1 & a2 & a3 & a4 & Hr & ->).
      rewrite index_tag. apply member_in_table in Hr. destruct Hr as [Hr _].
      rewrite Forall_forall in HU. now rewrite (HU r Hr). }
  split; [exact E|]. intros HF. rewrite E. apply union_index_fresh.
  apply NoDup_app; [exact ND | unfold derived; repeat constructor; simpl; intuition discriminate |].
  intros c Hc Hd. exact (HF c Hd Hc).
Qed.

Lemma aggregated_columns_are_input_then_derived_witness :
  columns two_pairs_aggregated
  = ["Title"; "MPO_score"; "norm_docking_score"; "docking score";
     "Avg_MPO"; "Delta_MPO"; "Avg_norm_docking"; "Delta_norm_docking"].
Proof.
  refine (proj2 (aggregated_columns_are_input_then_derived two_pairs two_pairs_aggregated
                   _ _ eq_refl _) _).
  - unfold two_pairs, table, input_columns. simpl.
    repeat constructor; simpl; intuition discriminate.
  - repeat constructor.
  - discriminate.
  - intros c Hc Hi. simpl in Hc, Hi.
    destruct Hc as [<-|[<-|[<-|[<-|[]]]]]; intuition discriminate.
Defined.

(** ** The shape of a run *)

(** X18.  How a run can end.  A run that raises nothing has either written
    the two ranked files and printed the warning, and nothing else, or written
    the three files and printed the completion line and the six summary lines,
    in source order.  A run that raises has written at most the three files
    and printed at most the completion line: it never prints the warning or a
    summary line. *)
Theorem run_ends_in_one_of_these_ways
    (argsort : list spec_float -> list nat) (re_compile : string -> option (string -> bool))
    (output_dir : string) (df : DataFrame) (benchmark_input : string) :
  let benchmark_name := lower (strip benchmark_input) in
  let p1 := path_join output_dir "Sorted_by_Avg_MPO.csv" in
  let p2 := path_join output_dir "Sorted_by_Avg_normDocking.csv" in
  let p3 := path_join output_dir ("Above_" ++ benchmark_name ++ "_Compounds.csv") in
  let (tr, r) := main argsort re_compile output_dir df benchmark_input in
  match r with
  | Ok _ =>
      (exists s1 s2,
          tr = [to_csv p1 s1; to_csv p2 s2; print (BenchmarkNotFound benchmark_name)]) \/
      (exists s1 s2 out unique_mpo unique_dock unique_both,
          tr = [to_csv p1 s1; to_csv p2 s2; to_csv p3 out;
                print ProcessingComplete;
                print (FileSortedByMPO p1);
                print (ExceededMPO unique_mpo benchmark_name);
                print (FileSortedByDocking p2);
                print (ExceededDocking unique_dock benchmark_name);
                print (FileFiltered p3);
                print (ExceededBoth unique_both benchmark_name)])
  | Raise _ =>
      exists s1 s2 out n,
        tr = firstn n [to_csv p1 s1; to_csv p2 s2; to_csv p3 out; print ProcessingComplete]
  end.
Proof.
  intros name p1 p2 p3.
  unfold main, ranked_outputs, benchmark_filter.
  change (to_csv_in output_dir "Sorted_by_Avg_MPO.csv")
    with (fun d => emit (to_csv (path_join output_dir "Sorted_by_Avg_MPO.csv") d)).
  change (to_csv_in output_dir "Sorted_by_Avg_normDocking.csv")
    with (fun d => emit (to_csv (path_join output_dir "Sorted_by_Avg_normDocking.csv") d)).
  unfold to_csv_in.
  fold name. fold p1 p2 p3.
  unfold lift, emit.
  set (nil_frame := mkFrame [] []).
  destruct (check_schema df); [|exists nil_frame, nil_frame, nil_frame, 0; reflexivity].
  cbn [pbind]. destruct (aggregate df) as [pdf|];
    [|exists nil_frame, nil_frame, nil_frame, 0; reflexivity].
  cbn [pbind]. destruct (arrange mpo_first (columns pdf)) as [c1|];
    [|exists nil_frame, nil_frame, nil_frame, 0; reflexivity].
  cbn [pbind]. destruct (select_columns pdf c1) as [v1|];
    [|exists nil_frame, nil_frame, nil_frame, 0; reflexivity].
  cbn [pbind]. destruct (sort_values argsort v1 "Avg_MPO") as [s1|];
    [|exists nil_frame, nil_frame, nil_frame, 0; reflexivity].
  cbn [pbind app].
  destruct (arrange docking_first (columns pdf)) as [c2|];
    [|exists s1, nil_frame, nil_frame, 1; reflexivity].
  cbn [pbind app]. destruct (select_columns pdf c2) as [v2|];
    [|exists s1, nil_frame, nil_frame, 1; reflexivity].
  cbn [pbind app].
  destruct (sort_values argsort v2 "Avg_norm_docking") as [s2|];
    [|exists s1, nil_frame, nil_frame, 1; reflexivity].
  cbn [pbind app].
  destruct (select_benchmark re_compile pdf name) as [sel|];
    [|exists s1, s2, nil_frame, 2; reflexivity].
  cbn [pbind app]. destruct (rows sel); [left; exists s1, s2; reflexivity|].
  destruct (thresholds sel) as [t|]; [|exists s1, s2, nil_frame, 2; reflexivity].
  cbn [pbind app]. destruct (better_than pdf (fst t) (snd t)) as [better|];
    [|exists s1, s2, nil_frame, 2; reflexivity].
  cbn [pbind app]. destruct (final_output better sel) as [out|];
    [|exists s1, s2, nil_frame, 2; reflexivity].
  cbn [pbind app]. destruct (has_sep _); [exists s1, s2, nil_frame, 2; reflexivity|].
  cbn [pbind app].
  destruct (count_above s1 "Avg_MPO" (fst t)) as [n1|];
    [|exists s1, s2, out, 4; reflexivity].
  cbn [pbind app].
  destruct (count_above s2 "Avg_norm_docking" (snd t)) as [n2|];
    [|exists s1, s2, out, 4; reflexivity].
  cbn [pbind app].
  destruct (column better "Title") as [titles|]; cbn [rbind pbind app];
    [|exists s1, s2, out, 4; reflexivity].
  right. exists s1, s2, out, n1, n2, (nunique titles). reflexivity.
Qed.
